(** * The resilient API client of the mobile app

    A shallow embedding of [mobile-app/src/config/api.js]: the request
    helper that talks to the listing backend with a bounded retry loop,
    linear backoff, fallback over a fixed list of development hosts and
    clean-up of the persisted user record on a 401.

    The JavaScript module is sequential code over three pieces of mutable
    state (the two module variables [API_BASE_URL] and [currentApiIndex],
    and the [AsyncStorage] key/value store) and one source of
    non-determinism (the network).  It is embedded as a state-and-exception
    monad over a record of that state; the network and the [JSON.parse]
    builtin are an explicit [World] the functions are run in, and what a
    caller passes to [apiCall] is data of the embedding.  Every effect the
    specification talks about (a request as it goes out with what it
    settled to, a backoff pause, the removal of a storage key) is appended
    to a trace kept in the state.  [console.log] calls are dropped. *)

From Stdlib Require Import ZArith String Ascii DecimalString.
From stdpp Require Import gmap strings list.

Open Scope string_scope.
Open Scope Z_scope.
Open Scope list_scope.

(** ** JavaScript strings

    Strings are sequences of bytes (UTF-8), which is how the literals of
    the source are read here. *)

Module JsString.

(** [hay.includes(needle)] *)
Fixpoint includes (hay needle : string) {struct hay} : bool :=
  String.prefix needle hay ||
  match hay with
  | EmptyString => false
  | String _ rest => includes rest needle
  end.

Definition code (c : ascii) : N := N_of_ascii c.

(** White space and line terminators removed by [String.prototype.trim],
    by the length of their UTF-8 encoding: TAB, LF, VT, FF, CR, SP; then
    U+00A0; then U+1680, U+2000..U+200A, U+2028, U+2029, U+202F, U+205F,
    U+3000 and U+FEFF. *)
Definition space1 (c : ascii) : bool :=
  ((9 <=? code c) && (code c <=? 13))%N || (code c =? 32)%N.

Definition space2 (c1 c2 : ascii) : bool :=
  ((code c1 =? 194) && (code c2 =? 160))%N.

Definition space3 (c1 c2 c3 : ascii) : bool :=
  (((code c1 =? 225) && (code c2 =? 154) && (code c3 =? 128))
   || ((code c1 =? 226) && (code c2 =? 128)
       && (((128 <=? code c3) && (code c3 <=? 138))
           || (code c3 =? 168) || (code c3 =? 169) || (code c3 =? 175)))
   || ((code c1 =? 226) && (code c2 =? 129) && (code c3 =? 159))
   || ((code c1 =? 227) && (code c2 =? 128) && (code c3 =? 128))
   || ((code c1 =? 239) && (code c2 =? 187) && (code c3 =? 191)))%N.

(** [blank s] holds when [s.trim()] is the empty string, that is when
    [s.trim()] is falsy. *)
Fixpoint blank (s : string) : bool :=
  match s with
  | EmptyString => true
  | String c1 r1 =>
      if space1 c1 then blank r1 else
      match r1 with
      | EmptyString => false
      | String c2 r2 =>
          if space2 c1 c2 then blank r2 else
          match r2 with
          | EmptyString => false
          | String c3 r3 => if space3 c1 c2 c3 then blank r3 else false
          end
      end
  end.

(** Decimal rendering of an integer inside a template literal. *)
Definition of_Z (z : Z) : string := NilZero.string_of_int (Z.to_int z).
Definition of_nat (n : nat) : string := NilZero.string_of_uint (Nat.to_uint n).

(** [`${x}`] for a variable holding a string or [undefined]. *)
Definition template (x : option string) : string :=
  match x with Some s => s | None => "undefined" end.

End JsString.

(** ** JSON values

    The result of [JSON.parse].  A number is kept as the text [ToString]
    gives it: this client only ever tests a number for truthiness or prints
    it, and JSON has no NaN, so a number is falsy exactly when it prints as
    [0].  An object is the list of its own properties, keys pairwise
    distinct. *)

#[local] Set Warnings "-register-all".

Inductive JSON :=
| JNull
| JBool (b : bool)
| JNumber (text : string)
| JString (s : string)
| JArray (items : list JSON)
| JObject (props : list (string * JSON)).

Module Js.

(** ToBoolean *)
Definition truthy (v : JSON) : bool :=
  match v with
  | JNull => false
  | JBool b => b
  | JNumber text => negb (String.eqb text "0")
  | JString s => negb (String.eqb s "")
  | JArray _ | JObject _ => true
  end.

Fixpoint assoc (key : string) (props : list (string * JSON)) : option JSON :=
  match props with
  | [] => None
  | (k, v) :: rest => if String.eqb k key then Some v else assoc key rest
  end.

(** ToString; [None] when the conversion throws its TypeError.  An object
    prints through [Object.prototype.toString] unless it has a property
    [toString] of its own: coming from [JSON.parse] that property is no
    function, [valueOf] gives back the object, and the conversion throws.
    An array prints through [join]: its elements converted in turn and
    separated by commas, [null] as the empty string. *)
Fixpoint to_string (v : JSON) : option string :=
  match v with
  | JNull => Some "null"
  | JBool true => Some "true"
  | JBool false => Some "false"
  | JNumber text => Some text
  | JString s => Some s
  | JArray items =>
      let fix each (l : list JSON) : option (list string) :=
        match l with
        | [] => Some []
        | x :: rest =>
            match (match x with JNull => Some EmptyString | _ => to_string x end),
                  each rest with
            | Some t, Some ts => Some (t :: ts)
            | _, _ => None
            end
        end in
      match each items with
      | Some texts => Some (String.concat "," texts)
      | None => None
      end
  | JObject props =>
      match assoc "toString" props with
      | Some _ => None
      | None => Some "[object Object]"
      end
  end.

(** [v?.key]: [None] is [undefined].  None of the keys read by this
    client lives on a prototype, so only objects answer. *)
Definition get (v : JSON) (key : string) : option JSON :=
  match v with
  | JObject props => assoc key props
  | _ => None
  end.

(** [a || b] on possibly undefined values *)
Definition or (a b : option JSON) : option JSON :=
  match a with
  | Some v => if truthy v then a else b
  | None => b
  end.

(** [a || b] when [b] is a value *)
Definition or_else (a : option JSON) (b : JSON) : JSON :=
  match a with
  | Some v => if truthy v then v else b
  | None => b
  end.

End Js.

(** ** The network and the runtime *)

Inductive Body :=
| BodyText (text : string)        (* [response.text()] resolves *)
| BodyError (message : string).   (* [response.text()] rejects *)

Record Response := {
  status : Z;
  content_type : option string;   (* [response.headers.get("content-type")] *)
  body : Body
}.

(** [response.ok] *)
Definition ok (r : Response) : bool := (200 <=? status r) && (status r <=? 299).

(** What [withTimeout(fetch(..), ms)] settles to. *)
Inductive FetchOutcome :=
| Responded (r : Response)
| Rejected (message : string)     (* transport error *)
| TimedOut.                       (* the timer of [withTimeout] won the race *)

(** The world the client runs in.  [fetch n url] is the outcome of the
    [n]-th request issued since the process started when it goes to [url].
    In a run, method, headers and body of a request are functions of the
    history and of the arguments of the calls made, so indexing by [n]
    covers servers that look at them. *)
Record World := {
  fetch : nat -> string -> FetchOutcome;
  JSON_parse : string -> JSON + string   (* value, or message of the SyntaxError *)
}.

(** ** What the caller passes and what goes to [fetch] *)

(** What [JSON.stringify] makes of a value. *)
Inductive Stringified :=
| Text (text : string)        (* the JSON text *)
| NoText                      (* [undefined]: a function, a symbol *)
| Fails (message : string).   (* a TypeError: a cyclic structure, a BigInt *)

(** The data of a request as the caller hands it over: a string, or any
    other value, which this client only tests for truthiness and passes to
    [JSON.stringify].  [None] of [option Data] is [null] or [undefined]. *)
Inductive Data :=
| DataString (text : string)
| DataValue (truthy : bool) (stringified : Stringified).

(** ToBoolean on data *)
Definition data_truthy (d : option Data) : bool :=
  match d with
  | Some (DataString text) => negb (String.eqb text EmptyString)
  | Some (DataValue truthy _) => truthy
  | None => false
  end.

(** [a || b] on data *)
Definition data_or (a b : option Data) : option Data :=
  if data_truthy a then a else b.

(** An options object: [None] is an absent key.  Header values are
    strings, and so is the method when there is one. *)
Record Options := {
  options_method : option string;
  options_body : option Data;
  options_data : option Data;
  options_headers : option (gmap string string)
}.

(** The second argument of [apiCall]: a method name, an options object,
    [null], or nothing at all. *)
Inductive MethodOrOptions :=
| IsString (method : string)
| IsOptions (options : Options)
| IsNull
| IsUndefined.

(** The object handed to [fetch]. *)
Record FetchOptions := {
  fetch_method : string;
  fetch_headers : gmap string string;
  fetch_body : option string
}.

(** ** Module state and effects *)

(** A request is logged as it goes out, together with what it settled to. *)
Inductive Event :=
| EFetch (url : string) (options : FetchOptions) (timeout : Z) (outcome : FetchOutcome)
| ESleep (ms : Z)
| ERemoveItem (key : string).

Record State := {
  API_BASE_URL : option string;         (* [None] is [undefined] *)
  currentApiIndex : Z;
  AsyncStorage : gmap string string;
  issued : nat;                         (* requests issued so far *)
  trace : list Event                    (* effects so far, oldest first *)
}.

(** A thrown value: an [Error] object, seen through its [message], or
    the value [undefined]. *)
Inductive Thrown :=
| JsError (message : string)
| JsUndefined.

Inductive Result (A : Type) :=
| Ok (a : A)
| Throw (e : Thrown).
Arguments Ok {A} a.
Arguments Throw {A} e.

Definition M (A : Type) : Type := State -> Result A * State.

Definition ret {A} (a : A) : M A := fun s => (Ok a, s).
Definition throw {A} (e : Thrown) : M A := fun s => (Throw e, s).
Definition bind {A B} (m : M A) (k : A -> M B) : M B :=
  fun s => match m s with
           | (Ok a, s') => k a s'
           | (Throw e, s') => (Throw e, s')
           end.
(** [try { body } catch (error) { handler }] *)
Definition try_catch {A} (body : M A) (handler : Thrown -> M A) : M A :=
  fun s => match body s with
           | (Ok a, s') => (Ok a, s')
           | (Throw e, s') => handler e s'
           end.
Definition get_state : M State := fun s => (Ok s, s).
Definition modify (f : State -> State) : M unit := fun s => (Ok tt, f s).
(** A computation that touches no state. *)
Definition lift {A} (r : Result A) : M A := fun s => (r, s).

Notation "'let*' x ':=' m 'in' k" := (bind m (fun x => k))
  (at level 10, x name, m at level 100, k at level 200).
Notation "m ';;' k" := (bind m (fun _ => k))
  (at level 100, k at level 200, right associativity).

Definition emit (e : Event) : M unit :=
  modify (fun s => {| API_BASE_URL := API_BASE_URL s;
                      currentApiIndex := currentApiIndex s;
                      AsyncStorage := AsyncStorage s;
                      issued := issued s;
                      trace := trace s ++ [e] |}).

(** [API_BASE_URL = url; currentApiIndex = i] *)
Definition set_current (url : option string) (i : Z) : M unit :=
  modify (fun s => {| API_BASE_URL := url;
                      currentApiIndex := i;
                      AsyncStorage := AsyncStorage s;
                      issued := issued s;
                      trace := trace s |}).

(** [error.message]; reading a property of [undefined] is a TypeError. *)
Definition message_of (e : Thrown) : M string :=
  match e with
  | JsError m => ret m
  | JsUndefined =>
      throw (JsError "Cannot read properties of undefined (reading 'message')")
  end.

(** The message of the TypeError of a conversion to string that fails. *)
Definition cannot_convert : string := "Cannot convert object to primitive value".

(** The message of what [throw new Error(value)] throws: [ToString(value)],
    or, when that conversion throws, the message of its TypeError. *)
Definition thrown_message (value : JSON) : string :=
  match Js.to_string value with
  | Some message => message
  | None => cannot_convert
  end.

(** ** Configuration *)

Definition DEVELOPMENT_API_URLS : list string :=
  [ "http://192.168.100.46:3000/api";
    "http://192.168.100.1:3000/api";
    "http://localhost:3000/api" ].

Definition MAX_RETRIES : Z := 3.
Definition TIMEOUT_MS : Z := 10000.

(** The module as loaded: first host current, given storage, nothing done. *)
Definition initial_state (store : gmap string string) : State :=
  {| API_BASE_URL := DEVELOPMENT_API_URLS !! 0%nat;
     currentApiIndex := 0;
     AsyncStorage := store;
     issued := 0;
     trace := [] |}.

(** [arr[i]]: [undefined] outside the array *)
Definition array_get (arr : list string) (i : Z) : option string :=
  if i <? 0 then None else arr !! Z.to_nat i.

(** [arr.indexOf(x)] counted from [i]: [-1] when absent *)
Fixpoint index_from (i : Z) (x : string) (arr : list string) : Z :=
  match arr with
  | [] => -1
  | y :: rest => if String.eqb y x then i else index_from (i + 1) x rest
  end.
Definition indexOf (arr : list string) (x : string) : Z := index_from 0 x arr.

(** [a === b] for a string against a string or [undefined] *)
Definition same_url (a : string) (b : option string) : bool :=
  match b with Some s => String.eqb a s | None => false end.

(** [{ method: "GET", headers: { "Content-Type": "application/json" } }],
    the options of the requests to [/debug/test]. *)
Definition debug_test_options : FetchOptions :=
  {| fetch_method := "GET";
     fetch_headers := {[ "Content-Type" := "application/json" ]};
     fetch_body := None |}.

(** ** The client *)

Section Client.

Context (w : World).

(** [withTimeout(fetch(url, options), timeout)]: one request, answered by
    the world. *)
Definition fetch_with_timeout (url : string) (options : FetchOptions)
    (timeout : Z) : M Response :=
  fun s =>
    let s' := {| API_BASE_URL := API_BASE_URL s;
                 currentApiIndex := currentApiIndex s;
                 AsyncStorage := AsyncStorage s;
                 issued := S (issued s);
                 trace := trace s ++ [EFetch url options timeout
                                             (fetch w (issued s) url)] |} in
    match fetch w (issued s) url with
    | Responded r => (Ok r, s')
    | Rejected m => (Throw (JsError m), s')
    | TimedOut => (Throw (JsError "Request timeout"), s')
    end.

Definition response_text (r : Response) : M string :=
  match body r with
  | BodyText t => ret t
  | BodyError m => throw (JsError m)
  end.

Definition json_parse (text : string) : M JSON :=
  match JSON_parse w text with
  | inl v => ret v
  | inr m => throw (JsError m)
  end.

(** [response.json()] *)
Definition response_json (r : Response) : M JSON :=
  let* t := response_text r in json_parse t.

(** [AsyncStorage.removeItem(key)].  The store itself is taken to work:
    its calls do not reject. *)
Definition removeItem (key : string) : M unit :=
  fun s => (Ok tt, {| API_BASE_URL := API_BASE_URL s;
                      currentApiIndex := currentApiIndex s;
                      AsyncStorage := delete key (AsyncStorage s);
                      issued := issued s;
                      trace := trace s ++ [ERemoveItem key] |}).

(** What [getAuthToken] finds in a store: every failure inside is
    swallowed and gives [null].  [None] stands for [null] and [undefined]
    alike; the caller only tests the result for truthiness. *)
Definition stored_token (store : gmap string string) : option JSON :=
  match store !! "user" with
  | Some userDataString =>
      if String.eqb userDataString "" then None else
      match JSON_parse w userDataString with
      | inl JNull => None     (* [null.token]: TypeError, caught *)
      | inl userData =>
          Js.or (Js.or (Js.get userData "token")
                       (Js.get userData "access_token"))
                (Js.get userData "accessToken")
      | inr _ => None
      end
  | None => None
  end.

Definition getAuthToken : M (option JSON) :=
  fun s => (Ok (stored_token (AsyncStorage s)), s).

(** The first lines of [makeApiRequest]: method, data and headers from
    the two calling patterns.  Anything that is not a string is read as an
    options object, and reading [method] off [null] or [undefined] is a
    TypeError. *)
Definition read_arguments (methodOrOptions : MethodOrOptions) (bodyData : option Data)
    : Result (string * option Data * gmap string string) :=
  match methodOrOptions with
  | IsString method => Ok (method, bodyData, ∅)
  | IsOptions options =>
      Ok (match options_method options with
          | Some m => if String.eqb m EmptyString then "GET" else m
          | None => "GET"
          end,
          data_or (options_body options) (options_data options),
          default ∅ (options_headers options))
  | IsNull => Throw (JsError "Cannot read properties of null (reading 'method')")
  | IsUndefined =>
      Throw (JsError "Cannot read properties of undefined (reading 'method')")
  end.

(** [`Bearer ${token}`] under [if (token)]: the header, if any. *)
Definition authorization (token : option JSON) : Result (option string) :=
  match token with
  | Some t =>
      if Js.truthy t then
        match Js.to_string t with
        | Some text => Ok (Some ("Bearer " +:+ text))
        | None => Throw (JsError cannot_convert)
        end
      else Ok None
  | None => Ok None
  end.

(** [defaultHeaders] once the [Authorization] header is in, if there is one. *)
Definition defaultHeaders (bearer : option string) : gmap string string :=
  let headers : gmap string string :=
    <[ "Content-Type" := "application/json" ]>
      (<[ "Accept" := "application/json" ]>
         (<[ "User-Agent" := "EstateApp-Mobile/1.0" ]> ∅)) in
  match bearer with
  | Some value => <[ "Authorization" := value ]> headers
  | None => headers
  end.

(** [method === "POST" || method === "PUT" || method === "PATCH"] *)
Definition writes (method : string) : bool :=
  String.eqb method "POST" || String.eqb method "PUT" || String.eqb method "PATCH".

(** The [body] of the request: absent unless the data is truthy and the
    method one that writes. *)
Definition request_body (method : string) (data : option Data)
    : Result (option string) :=
  if data_truthy data && writes method then
    match data with
    | Some (DataString text) => Ok (Some text)
    | Some (DataValue _ (Text text)) => Ok (Some text)
    | Some (DataValue _ NoText) => Ok None
    | Some (DataValue _ (Fails message)) => Throw (JsError message)
    | None => Ok None
    end
  else Ok None.

(** [makeApiRequest] from its first line to the assignment of
    [fetchOptions.body]: none of it is inside a [try]. *)
Definition fetchOptions (methodOrOptions : MethodOrOptions) (bodyData : option Data)
    : M FetchOptions :=
  let* arguments := lift (read_arguments methodOrOptions bodyData) in
  let '(method, data, headers) := arguments in
  let* token := getAuthToken in
  let* bearer := lift (authorization token) in
  let finalHeaders := headers ∪ defaultHeaders bearer in
  let* body := lift (request_body method data) in
  ret {| fetch_method := method; fetch_headers := finalHeaders; fetch_body := body |}.

(** [responseData?.message || responseData?.error || `HTTP ${status}`] *)
Definition errorMessage (responseData : JSON) (st : Z) : JSON :=
  Js.or_else (Js.or (Js.get responseData "message") (Js.get responseData "error"))
             (JString ("HTTP " +:+ JsString.of_Z st)).

(** The [try] block of one iteration of the retry loop, from the
    content-type test on. *)
Definition read_response (baseUrl : string) (response : Response) : M JSON :=
  let contentType := default "" (content_type response) in
  if JsString.includes contentType "text/html" then
    throw (JsError ("❌ Server returned HTML error page. Check if API server is running at "
                    +:+ baseUrl))
  else
    let* responseData :=
      try_catch
        (let* responseText := response_text response in
         if JsString.blank responseText then ret (JObject [])
         else json_parse responseText)
        (fun parseError =>
           let* m := message_of parseError in
           throw (JsError ("Invalid JSON response: " +:+ m))) in
    if negb (ok response) then
      let errorMessage := errorMessage responseData (status response) in
      if status response =? 401 then
        removeItem "user" ;; throw (JsError "Authentication failed")
      else if status response =? 404 then
        throw (JsError "API endpoint not found")
      else if status response =? 500 then
        throw (JsError "Server internal error")
      else
        throw (JsError (thrown_message errorMessage))
    else ret responseData.

(** The whole [try] block: the request, then the reading of the answer. *)
Definition attempt_once (baseUrl url : string) (options : FetchOptions) : M JSON :=
  let* response := fetch_with_timeout url options TIMEOUT_MS in
  read_response baseUrl response.

(** The test of the [catch] block that leaves the loop before the
    attempts are used up. *)
Definition gives_up (message : string) : bool :=
  JsString.includes message "Authentication failed"
  || JsString.includes message "not found".

Definition sleep (ms : Z) : M unit := emit (ESleep ms).

(** [for (let attempt = 1; attempt <= MAX_RETRIES; attempt++)] followed
    by [throw lastError].  [fuel] bounds the iterations; [MAX_RETRIES]
    of it is enough. *)
Fixpoint retry_loop (baseUrl url : string) (options : FetchOptions)
    (fuel : nat) (attempt : Z) (lastError : Thrown) : M JSON :=
  match fuel with
  | O => throw lastError
  | S fuel' =>
      if attempt <=? MAX_RETRIES then
        try_catch (attempt_once baseUrl url options)
          (fun error =>
             let* message := message_of error in
             if gives_up message || (attempt =? MAX_RETRIES) then
               throw error                           (* [break] *)
             else
               (if attempt <? MAX_RETRIES then sleep (attempt * 1000) else ret tt) ;;
               retry_loop baseUrl url options fuel' (attempt + 1) error)
      else throw lastError
  end.

(** [makeApiRequest(baseUrl, endpoint, methodOrOptions, bodyData)]: the
    request is built, once, and the retry loop sends it. *)
Definition makeApiRequest (baseUrl endpoint : string)
    (methodOrOptions : MethodOrOptions) (bodyData : option Data) : M JSON :=
  let url := baseUrl +:+ endpoint in
  let* options := fetchOptions methodOrOptions bodyData in
  retry_loop baseUrl url options (Z.to_nat MAX_RETRIES) 1 JsUndefined.

(** The fallback loop of [apiCall] over what is left of
    [DEVELOPMENT_API_URLS]; past its end, the aggregate error. *)
Fixpoint fallbacks (endpoint : string) (methodOrOptions : MethodOrOptions)
    (bodyData : option Data) (lastError : Thrown)
    (attemptedUrls : list (option string)) (urls : list string) : M JSON :=
  match urls with
  | [] =>
      let* message := message_of lastError in
      throw (JsError ("API call failed: " +:+ message +:+ ". Tried "
                      +:+ JsString.of_nat (length attemptedUrls) +:+ " endpoints."))
  | devUrl :: rest =>
      let* s := get_state in
      if same_url devUrl (API_BASE_URL s) then
        fallbacks endpoint methodOrOptions bodyData lastError attemptedUrls rest
      else
        try_catch
          (let* result := makeApiRequest devUrl endpoint methodOrOptions bodyData in
           set_current (Some devUrl) (indexOf DEVELOPMENT_API_URLS devUrl) ;;
           ret result)
          (fun error =>
             let* _ := message_of error in
             fallbacks endpoint methodOrOptions bodyData lastError
                       (attemptedUrls ++ [Some devUrl]) rest)
  end.

(** The default of the second parameter of [apiCall]: [{}] when nothing
    is passed. *)
Definition no_options : Options :=
  {| options_method := None; options_body := None; options_data := None;
     options_headers := None |}.

Definition or_default (methodOrOptions : MethodOrOptions) : MethodOrOptions :=
  match methodOrOptions with
  | IsUndefined => IsOptions no_options
  | _ => methodOrOptions
  end.

(** [apiCall(endpoint, methodOrOptions = {}, bodyData = null)] *)
Definition apiCall (endpoint : string) (methodOrOptions : MethodOrOptions)
    (bodyData : option Data) : M JSON :=
  let methodOrOptions := or_default methodOrOptions in
  let* s := get_state in
  try_catch (makeApiRequest (JsString.template (API_BASE_URL s)) endpoint
                            methodOrOptions bodyData)
    (fun error =>
       let* _ := message_of error in
       fallbacks endpoint methodOrOptions bodyData error [API_BASE_URL s]
                 DEVELOPMENT_API_URLS).

(** The object [checkServerHealth] resolves to; an absent key is [None]. *)
Record Health := {
  healthy : bool;
  health_status : option Z;
  health_data : option JSON;
  health_error : option string
}.

Definition checkServerHealth : M Health :=
  try_catch
    (let* s := get_state in
     let* response :=
       fetch_with_timeout (JsString.template (API_BASE_URL s) +:+ "/debug/test")
                          debug_test_options 8000 in
     if ok response then
       let* data := response_json response in
       ret {| healthy := true; health_status := Some (status response);
              health_data := Some data; health_error := None |}
     else
       ret {| healthy := false; health_status := Some (status response);
              health_data := None; health_error := None |})
    (fun error =>
       let* message := message_of error in
       ret {| healthy := false; health_status := None;
              health_data := None; health_error := Some message |}).

(** What [testMultipleIPs] resolves to:
    [{success: true, url, type}] or [{success: false, error}]. *)
Inductive Probe :=
| ProbeFound (url : string) (type : string)
| ProbeNone (error : string).

(** The loop of [testMultipleIPs] from index [i] on. *)
Fixpoint probe_from (i : Z) (urls : list string) : M Probe :=
  match urls with
  | [] => ret (ProbeNone "No API endpoints are reachable")
  | testUrl :: rest =>
      let* returned :=
        try_catch
          (let* response :=
             fetch_with_timeout (testUrl +:+ "/debug/test") debug_test_options 3000 in
           if ok response then
             set_current (Some testUrl) i ;;
             ret (Some (ProbeFound testUrl "development"))
           else ret None)
          (fun error => let* _ := message_of error in ret None) in
      match returned with
      | Some result => ret result
      | None => probe_from (i + 1) rest
      end
  end.

Definition testMultipleIPs : M Probe := probe_from 0 DEVELOPMENT_API_URLS.

(** [switchToNextApiUrl]: the new [API_BASE_URL], or [null] ([None]). *)
Definition switchToNextApiUrl : M (option (option string)) :=
  let* s := get_state in
  if currentApiIndex s <? Z.of_nat (length DEVELOPMENT_API_URLS) - 1 then
    let i := currentApiIndex s + 1 in
    set_current (array_get DEVELOPMENT_API_URLS i) i ;;
    ret (Some (array_get DEVELOPMENT_API_URLS i))
  else ret None.

Definition getCurrentApiUrl : M (option string) :=
  let* s := get_state in ret (API_BASE_URL s).

End Client.


(** ** The rest of the module

    The configuration getter, the connection test and the endpoint
    wrappers. *)

Module API_ENDPOINTS.
Definition login : string := "/auth/signin".
Definition register : string := "/auth/signup".
Definition logout : string := "/auth/signout".
Definition listings : string := "/listing/get".
Definition createListing : string := "/listing/create".
End API_ENDPOINTS.

(** The object [getApiConfig] returns. *)
Record ApiConfig := {
  config_baseUrl : option string;
  config_timeout : Z;
  config_maxRetries : Z
}.

Definition getApiConfig : M ApiConfig :=
  let* s := get_state in
  ret {| config_baseUrl := API_BASE_URL s;
         config_timeout := TIMEOUT_MS;
         config_maxRetries := MAX_RETRIES |}.

(** The object [testApiConnection] resolves to; an absent key is [None]. *)
Record Connection := {
  connection_success : bool;
  connection_data : option JSON;
  connection_error : option string;
  connection_details : option Health
}.

Section Callers.

Context (w : World).

Definition testApiConnection : M Connection :=
  try_catch
    (let* healthCheck := checkServerHealth w in
     if negb (healthy healthCheck) then
       ret {| connection_success := false;
              connection_data := None;
              connection_error :=
                Some ("API server not reachable: "
                      +:+ JsString.template (health_error healthCheck));
              connection_details := Some healthCheck |}
     else
       let* response := apiCall w "/listing/stats" IsUndefined None in
       ret {| connection_success := true;
              connection_data := Some response;
              connection_error := None;
              connection_details := None |})
    (fun error =>
       let* message := message_of error in
       ret {| connection_success := false;
              connection_data := None;
              connection_error := Some message;
              connection_details := None |}).

(** The wrappers. *)
Definition login (credentials : option Data) : M JSON :=
  apiCall w API_ENDPOINTS.login (IsString "POST") credentials.
Definition register (userData : option Data) : M JSON :=
  apiCall w API_ENDPOINTS.register (IsString "POST") userData.
Definition logout : M JSON := apiCall w API_ENDPOINTS.logout (IsString "GET") None.
Definition createListing (listingData : option Data) : M JSON :=
  apiCall w API_ENDPOINTS.createListing (IsString "POST") listingData.

(** [getListings], from [new URLSearchParams(params).toString()] on. *)
Definition getListings (queryString : string) : M JSON :=
  let endpoint :=
    if String.eqb queryString EmptyString then API_ENDPOINTS.listings
    else API_ENDPOINTS.listings +:+ "?" +:+ queryString in
  apiCall w endpoint (IsString "GET") None.

End Callers.
(** * Vocabulary for reasoning about the client *)

(** ** States reached by single effects *)

Definition after_fetch (url : string) (options : FetchOptions) (timeout : Z)
    (o : FetchOutcome) (s : State) : State :=
  {| API_BASE_URL := API_BASE_URL s;
     currentApiIndex := currentApiIndex s;
     AsyncStorage := AsyncStorage s;
     issued := S (issued s);
     trace := trace s ++ [EFetch url options timeout o] |}.

Definition after_remove (key : string) (s : State) : State :=
  {| API_BASE_URL := API_BASE_URL s;
     currentApiIndex := currentApiIndex s;
     AsyncStorage := delete key (AsyncStorage s);
     issued := issued s;
     trace := trace s ++ [ERemoveItem key] |}.

Definition after_sleep (ms : Z) (s : State) : State :=
  {| API_BASE_URL := API_BASE_URL s;
     currentApiIndex := currentApiIndex s;
     AsyncStorage := AsyncStorage s;
     issued := issued s;
     trace := trace s ++ [ESleep ms] |}.

(** ** What one answer means to the retry loop *)

(** The content-type test of [read_response]. *)
Definition html_reply (r : Response) : bool :=
  JsString.includes (default "" (content_type r)) "text/html".

(** The inner [try] of [read_response]: the data, or the message of what
    was thrown while reading or parsing. *)
Definition parsed_body (w : World) (r : Response) : JSON + string :=
  match body r with
  | BodyError m => inr m
  | BodyText t => if JsString.blank t then inl (JObject []) else JSON_parse w t
  end.

(** An answer that gets as far as the status test. *)
Definition is_json_reply (w : World) (r : Response) : bool :=
  negb (html_reply r) && match parsed_body w r with inl _ => true | inr _ => false end.

Inductive Verdict :=
| Success (data : JSON)
| Unauthorized
| Failure (message : string).

Definition html_message (baseUrl : string) : string :=
  "❌ Server returned HTML error page. Check if API server is running at " +:+ baseUrl.

Definition verdict (w : World) (baseUrl : string) (o : FetchOutcome) : Verdict :=
  match o with
  | Rejected m => Failure m
  | TimedOut => Failure "Request timeout"
  | Responded r =>
      if html_reply r then Failure (html_message baseUrl) else
      match parsed_body w r with
      | inr m => Failure ("Invalid JSON response: " +:+ m)
      | inl data =>
          if ok r then Success data
          else if status r =? 401 then Unauthorized
          else if status r =? 404 then Failure "API endpoint not found"
          else if status r =? 500 then Failure "Server internal error"
          else Failure (thrown_message (errorMessage data (status r)))
      end
  end.

(** ** Replaying a list of effects on a state *)

Definition effect (s : State) (e : Event) : State :=
  match e with
  | EFetch url options timeout o => after_fetch url options timeout o s
  | ESleep ms => after_sleep ms s
  | ERemoveItem key => after_remove key s
  end.

Definition replay (evs : list Event) (s : State) : State := fold_left effect evs s.

(** ** Runs of the retry loop *)

(** What the request-building part of [makeApiRequest] gives in a state:
    the options for [fetch], or what it throws. *)
Definition built (w : World) (methodOrOptions : MethodOrOptions) (bodyData : option Data)
    (s : State) : Result FetchOptions :=
  fst (fetchOptions w methodOrOptions bodyData s).

Section RunsOfTheRetryLoop.

Context (w : World) (baseUrl url : string) (options : FetchOptions).

Local Abbreviation request n := (EFetch url options TIMEOUT_MS (fetch w n url)).

(** [retry_run n attempt evs res]: started as attempt number [attempt]
    when [n] requests have been issued, the loop performs [evs] and
    ends in [res]. *)
Inductive retry_run : nat -> Z -> list Event -> Result JSON -> Prop :=
| run_success n attempt data :
    verdict w baseUrl (fetch w n url) = Success data ->
    retry_run n attempt [request n] (Ok data)
| run_unauthorized n attempt :
    verdict w baseUrl (fetch w n url) = Unauthorized ->
    retry_run n attempt [request n; ERemoveItem "user"]
              (Throw (JsError "Authentication failed"))
| run_give_up n attempt m :
    verdict w baseUrl (fetch w n url) = Failure m ->
    gives_up m || (attempt =? MAX_RETRIES) = true ->
    retry_run n attempt [request n] (Throw (JsError m))
| run_again n attempt m evs res :
    verdict w baseUrl (fetch w n url) = Failure m ->
    gives_up m || (attempt =? MAX_RETRIES) = false ->
    retry_run (S n) (attempt + 1) evs res ->
    retry_run n attempt (request n :: ESleep (attempt * 1000) :: evs) res.

End RunsOfTheRetryLoop.

(** [request_run w baseUrl endpoint methodOrOptions bodyData s evs res]:
    from state [s], [makeApiRequest] performs [evs] and ends in [res].
    Either building the request throws, and then nothing was done, or the
    retry loop runs with the request that was built. *)
Inductive request_run (w : World) (baseUrl endpoint : string)
    (methodOrOptions : MethodOrOptions) (bodyData : option Data) (s : State)
    : list Event -> Result JSON -> Prop :=
| request_unbuilt m :
    built w methodOrOptions bodyData s = Throw (JsError m) ->
    request_run w baseUrl endpoint methodOrOptions bodyData s [] (Throw (JsError m))
| request_built options evs res :
    built w methodOrOptions bodyData s = Ok options ->
    retry_run w baseUrl (baseUrl +:+ endpoint) options (issued s) 1 evs res ->
    request_run w baseUrl endpoint methodOrOptions bodyData s evs res.

(** The requests of a trace, in order. *)
Fixpoint requests (evs : list Event) : list string :=
  match evs with
  | [] => []
  | EFetch url _ _ _ :: rest => url :: requests rest
  | _ :: rest => requests rest
  end.

(** A 401 that got as far as the status test. *)
Definition unauthorized_reply (w : World) (o : FetchOutcome) : bool :=
  match o with
  | Responded r => is_json_reply w r && (status r =? 401)
  | _ => false
  end.

(** ** Runs of [makeApiRequest] and of the fallback loop *)

(** [API_BASE_URL = devUrl; currentApiIndex = DEVELOPMENT_API_URLS.indexOf(devUrl)] *)
Definition promote (devUrl : string) (s : State) : State :=
  {| API_BASE_URL := Some devUrl;
     currentApiIndex := indexOf DEVELOPMENT_API_URLS devUrl;
     AsyncStorage := AsyncStorage s;
     issued := issued s;
     trace := trace s |}.

(** How the fallback loop ends. *)
Inductive FallbackEnd :=
| Promoted (devUrl : string) (data : JSON)
| Exhausted.

(** The events of a list of per-host blocks, in order. *)
Definition events_of (blocks : list (string * list Event)) : list Event :=
  concat (map snd blocks).

Definition aggregate_message (message : string) (tried : nat) : string :=
  "API call failed: " +:+ message +:+ ". Tried " +:+ JsString.of_nat tried +:+ " endpoints.".

Section RunsOfTheFallbackLoop.

Context (w : World) (endpoint : string) (methodOrOptions : MethodOrOptions)
  (bodyData : option Data).

(** [fallback_run base s urls blocks fin]: from state [s], with [base]
    the host already tried, the loop over [urls] runs [makeApiRequest]
    once for each host of [blocks], in this order, each with the events
    given, and ends as [fin] says. *)
Inductive fallback_run (base : option string) :
    State -> list string -> list (string * list Event) -> FallbackEnd -> Prop :=
| fallback_exhausted s :
    fallback_run base s [] [] Exhausted
| fallback_skip s devUrl rest blocks fin :
    same_url devUrl base = true ->
    fallback_run base s rest blocks fin ->
    fallback_run base s (devUrl :: rest) blocks fin
| fallback_success s devUrl rest evs data :
    same_url devUrl base = false ->
    request_run w devUrl endpoint methodOrOptions bodyData s evs (Ok data) ->
    fallback_run base s (devUrl :: rest) [(devUrl, evs)] (Promoted devUrl data)
| fallback_failure s devUrl rest evs m blocks fin :
    same_url devUrl base = false ->
    request_run w devUrl endpoint methodOrOptions bodyData s evs (Throw (JsError m)) ->
    fallback_run base (replay evs s) rest blocks fin ->
    fallback_run base s (devUrl :: rest) ((devUrl, evs) :: blocks) fin.

End RunsOfTheFallbackLoop.

(** Result and final state of the fallback loop, from how it ended. *)
Definition fallback_result (lastMessage : string) (attempted : nat)
    (blocks : list (string * list Event)) (fin : FallbackEnd) (s : State)
    : Result JSON * State :=
  match fin with
  | Promoted devUrl data => (Ok data, promote devUrl (replay (events_of blocks) s))
  | Exhausted =>
      (Throw (JsError (aggregate_message lastMessage (attempted + length blocks))),
       replay (events_of blocks) s)
  end.

(** ** The invariant of the host pointer *)

(** The host list is not empty and [currentApiIndex] is an index into it. *)
Definition host_invariant (s : State) : Prop :=
  DEVELOPMENT_API_URLS <> []
  /\ 0 <= currentApiIndex s < Z.of_nat (length DEVELOPMENT_API_URLS).

(** ** The result of the health check, from the answer it gets *)

Definition unhealthy (message : string) : Health :=
  {| healthy := false; health_status := None; health_data := None;
     health_error := Some message |}.

Definition health_of (w : World) (o : FetchOutcome) : Health :=
  match o with
  | Responded r =>
      if ok r then
        match body r with
        | BodyText text =>
            match JSON_parse w text with
            | inl data =>
                {| healthy := true; health_status := Some (status r);
                   health_data := Some data; health_error := None |}
            | inr message => unhealthy message
            end
        | BodyError message => unhealthy message
        end
      else
        {| healthy := false; health_status := Some (status r);
           health_data := None; health_error := None |}
  | Rejected message => unhealthy message
  | TimedOut => unhealthy "Request timeout"
  end.

(** The two halves of the pointer agree: [API_BASE_URL] is the entry of
    the host list at [currentApiIndex]. *)
Definition pointer_coherent (s : State) : Prop :=
  API_BASE_URL s = array_get DEVELOPMENT_API_URLS (currentApiIndex s)
  /\ exists url, API_BASE_URL s = Some url.


(** ** More vocabulary *)

(** The backoff pauses of a trace, in order, in milliseconds. *)
Fixpoint pauses (evs : list Event) : list Z :=
  match evs with
  | [] => []
  | ESleep ms :: rest => ms :: pauses rest
  | _ :: rest => pauses rest
  end.

(** The time spent in backoff pauses. *)
Definition total_pause (evs : list Event) : Z := foldr Z.add 0 (pauses evs).

(** The pauses of a run of [k] attempts that starts as attempt [a]. *)
Fixpoint backoff (a : Z) (k : nat) : list Z :=
  match k with
  | O => []
  | S k' => a * 1000 :: backoff (a + 1) k'
  end.

(** The keys removed from the store by a trace. *)
Fixpoint removals (evs : list Event) : list string :=
  match evs with
  | [] => []
  | ERemoveItem key :: rest => key :: removals rest
  | _ :: rest => removals rest
  end.

(** The requests of the host-discovery probe to [urls], the first of them
    being request number [n]. *)
Fixpoint probe_events (w : World) (n : nat) (urls : list string) : list Event :=
  match urls with
  | [] => []
  | testUrl :: rest =>
      EFetch (testUrl +:+ "/debug/test") debug_test_options 3000
             (fetch w n (testUrl +:+ "/debug/test"))
      :: probe_events w (S n) rest
  end.

(** An answer the probe accepts. *)
Definition accepted (o : FetchOutcome) : bool :=
  match o with
  | Responded r => ok r
  | _ => false
  end.

(** The hosts [apiCall] falls back to when [base] is the current one. *)
Definition other_hosts (base : option string) : list string :=
  List.filter (fun u => negb (same_url u base)) DEVELOPMENT_API_URLS.

(** The headers the caller passes (none when [apiCall] is called with a
    method name). *)
Definition passed_headers (methodOrOptions : MethodOrOptions) : gmap string string :=
  match methodOrOptions with
  | IsOptions options => default ∅ (options_headers options)
  | _ => ∅
  end.

(** [tokenless passed s evs]: in the trace [evs], performed from state
    [s], a request made while the store holds no user record has no
    [Authorization] header but the one the caller passed, if any; this
    for all requests if there is no record in [s], and for those that
    follow a removal of the record. *)
Definition tokenless (passed : gmap string string) (s : State) (evs : list Event) : Prop :=
  (AsyncStorage s !! "user" = None ->
   forall u o t r, In (EFetch u o t r) evs ->
                   fetch_headers o !! "Authorization" = passed !! "Authorization")
  /\ (forall pre post u o t r,
         evs = pre ++ ERemoveItem "user" :: post ->
         In (EFetch u o t r) post ->
         fetch_headers o !! "Authorization" = passed !! "Authorization").

(** [between_attempts evs]: every pause of [evs] stands between two
    requests to the same URL, sent with the same options and timeout. *)
Definition between_attempts (evs : list Event) : Prop :=
  forall pre post ms,
    evs = pre ++ ESleep ms :: post ->
    exists pre' url b t o o' post',
      pre = pre' ++ [EFetch url b t o] /\ post = EFetch url b t o' :: post'.

(** [per_host_runs w endpoint methodOrOptions bodyData s blocks fin]:
    starting in state [s], each block holds the host and exactly the
    events of one call of [makeApiRequest] on that host, the next call
    starting in the state the last one left; every call but the last
    throws, and the loop ends as [fin] says: with the result the last call
    returned, or, every call having thrown, exhausted. *)
Fixpoint per_host_runs (w : World) (endpoint : string)
    (methodOrOptions : MethodOrOptions) (bodyData : option Data)
    (s : State) (blocks : list (string * list Event)) (fin : FallbackEnd) : Prop :=
  match blocks with
  | [] => fin = Exhausted
  | (devUrl, evs) :: rest =>
      exists res,
        makeApiRequest w devUrl endpoint methodOrOptions bodyData s = (res, replay evs s)
        /\ match res with
           | Ok data => rest = [] /\ fin = Promoted devUrl data
           | Throw _ => per_host_runs w endpoint methodOrOptions bodyData
                                      (replay evs s) rest fin
           end
  end.

(** Whether the request can be built in a state. *)
Definition buildable (w : World) (methodOrOptions : MethodOrOptions)
    (bodyData : option Data) (s : State) : bool :=
  match built w methodOrOptions bodyData s with
  | Ok _ => true
  | Throw _ => false
  end.
(** * Concrete worlds

    Servers and stores the examples below are run against.  The parser of
    these worlds knows the handful of texts the servers and stores hold and
    rejects every other text, with the message V8 words for a text whose
    first character starts no JSON value. *)

Module Scenario.

Definition host1 : string := "http://192.168.100.46:3000/api".
Definition host2 : string := "http://192.168.100.1:3000/api".
Definition host3 : string := "http://localhost:3000/api".

Definition quote : string := String "034"%char EmptyString.

(** The text [{"message":"not found"}] *)
Definition not_found_body : string :=
  "{" +:+ quote +:+ "message" +:+ quote +:+ ":" +:+ quote +:+ "not found" +:+ quote +:+ "}".

(** The text [{"message":["not found"]}] *)
Definition not_found_list_body : string :=
  "{" +:+ quote +:+ "message" +:+ quote +:+ ":[" +:+ quote +:+ "not found" +:+ quote +:+ "]}".

(** The text [{"token":"t0k3n"}] *)
Definition user_record : string :=
  "{" +:+ quote +:+ "token" +:+ quote +:+ ":" +:+ quote +:+ "t0k3n" +:+ quote +:+ "}".

(** The text [{"token":{"toString":1}}] *)
Definition odd_record : string :=
  "{" +:+ quote +:+ "token" +:+ quote +:+ ":{" +:+ quote +:+ "toString" +:+ quote +:+ ":1}}".

(** [Unexpected token 'c', "text" is not valid JSON] *)
Definition unexpected (c : string) (text : string) : string :=
  "Unexpected token '" +:+ c +:+ "', " +:+ quote +:+ text +:+ quote +:+ " is not valid JSON".

Definition parse (text : string) : JSON + string :=
  if String.eqb text "{}" then inl (JObject [])
  else if String.eqb text not_found_body then
    inl (JObject [("message", JString "not found")])
  else if String.eqb text not_found_list_body then
    inl (JObject [("message", JArray [JString "not found"])])
  else if String.eqb text user_record then
    inl (JObject [("token", JString "t0k3n")])
  else if String.eqb text odd_record then
    inl (JObject [("token", JObject [("toString", JNumber "1")])])
  else if String.eqb text "not found" then inr (unexpected "o" text)
  else
    match text with
    | EmptyString => inr "Unexpected end of JSON input"
    | String c _ => inr (unexpected (String c EmptyString) text)
    end.

(** A server whose answer depends on the URL only. *)
Definition world (server : string -> FetchOutcome) : World :=
  {| fetch := fun _ url => server url; JSON_parse := parse |}.

Definition json_type : option string := Some "application/json; charset=utf-8".
Definition html_type : option string := Some "text/html; charset=utf-8".
Definition text_type : option string := Some "text/plain; charset=utf-8".

Definition reply (st : Z) (type : option string) (text : string) : FetchOutcome :=
  Responded {| status := st; content_type := type; body := BodyText text |}.

Definition on (host url : string) : bool := String.prefix host url.

(** Every host answers 500 with an empty JSON object. *)
Definition all_500 : World := world (fun _ => reply 500 json_type "{}").

(** The first host answers 401, the others 200. *)
Definition unauthorized_then_ok : World :=
  world (fun url => if on host1 url then reply 401 json_type "{}"
                    else reply 200 json_type "{}").

(** The first host answers 404, the others 500. *)
Definition not_found_then_500 : World :=
  world (fun url => if on host1 url then reply 404 json_type "{}"
                    else reply 500 json_type "{}").

(** Every host answers 200 with a body that is no JSON. *)
Definition malformed : World := world (fun _ => reply 200 json_type "<").

(** Every host answers with an HTML page. *)
Definition html_page : World := world (fun _ => reply 502 html_type "<html></html>").

(** Every host answers 204 with no body. *)
Definition no_content : World := world (fun _ => reply 204 None EmptyString).

(** Every host answers 500 and says "not found" in its message. *)
Definition error_500_not_found : World := world (fun _ => reply 500 json_type not_found_body).

(** Every host answers 500 with the plain text [not found]. *)
Definition error_500_plain_text : World := world (fun _ => reply 500 text_type "not found").

(** Every host answers 400 and says "not found" in its message. *)
Definition error_400_not_found : World := world (fun _ => reply 400 json_type not_found_body).

(** The answer of that last server. *)
Definition bad_request : Response :=
  {| status := 400; content_type := json_type; body := BodyText not_found_body |}.

(** The first host is down, the others answer 200. *)
Definition first_down : World :=
  world (fun url => if on host1 url then TimedOut else reply 200 json_type "{}").

(** A fresh process with a signed-in user, one with an empty store, and
    one whose user record holds a token that does not convert to a
    string. *)
Definition signed_in : State := initial_state {[ "user" := user_record ]}.
Definition signed_out : State := initial_state ∅.
Definition signed_in_oddly : State := initial_state {[ "user" := odd_record ]}.

(** The request of [apiCall(endpoint)] and of [apiCall(endpoint, "GET")]:
    a GET with the default headers, the bearer header among them if there
    is one. *)
Definition get (bearer : option string) : FetchOptions :=
  {| fetch_method := "GET"; fetch_headers := defaultHeaders bearer; fetch_body := None |}.

(** Data [JSON.stringify] throws on, the BigInt [1n]. *)
Definition bigint : option Data :=
  Some (DataValue true (Fails "Do not know how to serialize a BigInt")).

End Scenario.
(** * Reasoning about the client *)

Section Attempt.

Context (w : World) (baseUrl url : string) (options : FetchOptions).

(** [attempt_once] computes [verdict] of the answer it gets. *)
Lemma attempt_once_verdict (s : State) :
  let o := fetch w (issued s) url in
  let s1 := after_fetch url options TIMEOUT_MS o s in
  attempt_once w baseUrl url options s =
  match verdict w baseUrl o with
  | Success data => (Ok data, s1)
  | Unauthorized => (Throw (JsError "Authentication failed"), after_remove "user" s1)
  | Failure m => (Throw (JsError m), s1)
  end.
Proof.
  cbv zeta. unfold attempt_once, bind, fetch_with_timeout, verdict.
  fold (after_fetch url options TIMEOUT_MS (fetch w (issued s) url) s).
  destruct (fetch w (issued s) url) as [r | m |]; try reflexivity.
  unfold read_response, html_reply, parsed_body, html_message.
  destruct (JsString.includes _ _); [reflexivity |].
  unfold bind, try_catch, response_text, json_parse.
  destruct (body r) as [t | m]; simpl; [| reflexivity].
  destruct (JsString.blank t); simpl.
  - destruct (ok r); simpl; [reflexivity |].
    destruct (status r =? 401); [reflexivity |].
    destruct (status r =? 404); [reflexivity |].
    destruct (status r =? 500); reflexivity.
  - destruct (JSON_parse w t) as [v | m]; simpl; [| reflexivity].
    destruct (ok r); simpl; [reflexivity |].
    destruct (status r =? 401); [reflexivity |].
    destruct (status r =? 404); [reflexivity |].
    destruct (status r =? 500); reflexivity.
Qed.

End Attempt.

Lemma replay_app (evs1 evs2 : list Event) (s : State) :
  replay (evs1 ++ evs2) s = replay evs2 (replay evs1 s).
Proof. unfold replay. apply fold_left_app. Qed.

Lemma trace_replay (evs : list Event) (s : State) :
  trace (replay evs s) = trace s ++ evs.
Proof.
  revert s. induction evs as [| e evs IH]; intros s; simpl.
  - symmetry. apply app_nil_r.
  - change (trace (replay evs (effect s e)) = trace s ++ e :: evs).
    rewrite IH. destruct e; simpl; rewrite <- app_assoc; reflexivity.
Qed.

Lemma API_BASE_URL_replay (evs : list Event) (s : State) :
  API_BASE_URL (replay evs s) = API_BASE_URL s.
Proof.
  revert s. induction evs as [| e evs IH]; intros s; [reflexivity |].
  change (API_BASE_URL (replay evs (effect s e)) = API_BASE_URL s).
  rewrite IH. destruct e; reflexivity.
Qed.

Lemma currentApiIndex_replay (evs : list Event) (s : State) :
  currentApiIndex (replay evs s) = currentApiIndex s.
Proof.
  revert s. induction evs as [| e evs IH]; intros s; [reflexivity |].
  change (currentApiIndex (replay evs (effect s e)) = currentApiIndex s).
  rewrite IH. destruct e; reflexivity.
Qed.

(** Nothing this client does writes a storage key: an absent key stays
    absent. *)
Lemma storage_replay_None (evs : list Event) (s : State) (key : string) :
  AsyncStorage s !! key = None -> AsyncStorage (replay evs s) !! key = None.
Proof.
  revert s. induction evs as [| e evs IH]; intros s H; [exact H |].
  change (AsyncStorage (replay evs (effect s e)) !! key = None).
  apply IH. destruct e; simpl; try exact H.
  rewrite lookup_delete. case_decide; [reflexivity | exact H].
Qed.

Section Runs.

Context (w : World) (baseUrl url : string) (options : FetchOptions).

Local Abbreviation request n := (EFetch url options TIMEOUT_MS (fetch w n url)).

Lemma gives_up_authentication : gives_up "Authentication failed" = true.
Proof. reflexivity. Qed.

(** The loop function follows the relation, whatever fuel is left beyond
    the attempts still allowed. *)
Lemma retry_loop_run (fuel : nat) :
  forall (attempt : Z) (lastError : Thrown) (s : State),
    attempt <= MAX_RETRIES ->
    MAX_RETRIES - attempt < Z.of_nat fuel ->
    exists evs res,
      retry_loop w baseUrl url options fuel attempt lastError s = (res, replay evs s)
      /\ retry_run w baseUrl url options (issued s) attempt evs res.
Proof.
  induction fuel as [| fuel IH]; intros attempt lastError s Hle Hfuel; [lia |].
  simpl retry_loop.
  destruct (attempt <=? MAX_RETRIES) eqn:Hc; [| apply Z.leb_gt in Hc; lia].
  unfold try_catch. rewrite attempt_once_verdict.
  destruct (verdict w baseUrl (fetch w (issued s) url)) as [data | | m] eqn:Hv.
  - exists [request (issued s)], (Ok data). split; [reflexivity |].
    now apply run_success.
  - exists [request (issued s); ERemoveItem "user"],
      (Throw (JsError "Authentication failed")).
    split; [| now apply run_unauthorized].
    unfold message_of, bind, ret. rewrite gives_up_authentication. reflexivity.
  - unfold message_of, bind at 1, ret.
    destruct (gives_up m || (attempt =? MAX_RETRIES)) eqn:Hg.
    + exists [request (issued s)], (Throw (JsError m)). split; [reflexivity |].
      now apply run_give_up.
    + apply orb_false_iff in Hg as Hg'. destruct Hg' as [_ Hne].
      apply Z.eqb_neq in Hne.
      assert (Hlt : (attempt <? MAX_RETRIES) = true) by (apply Z.ltb_lt; lia).
      rewrite Hlt. unfold bind, sleep, emit, modify.
      fold (after_sleep (attempt * 1000)
              (after_fetch url options TIMEOUT_MS (fetch w (issued s) url) s)).
      destruct (IH (attempt + 1) (JsError m)
                  (after_sleep (attempt * 1000)
                     (after_fetch url options TIMEOUT_MS (fetch w (issued s) url) s)))
        as (evs & res & Heq & Hrun); [lia | lia |].
      exists (request (issued s) :: ESleep (attempt * 1000) :: evs), res.
      split; [exact Heq |].
      eapply run_again; eauto.
Qed.

(** *** One iteration, by the verdict on its answer *)

Lemma retry_loop_success fuel attempt lastError s data :
  verdict w baseUrl (fetch w (issued s) url) = Success data ->
  attempt <= MAX_RETRIES ->
  retry_loop w baseUrl url options (S fuel) attempt lastError s
  = (Ok data, after_fetch url options TIMEOUT_MS (fetch w (issued s) url) s).
Proof.
  intros Hv Hle. simpl retry_loop.
  destruct (attempt <=? MAX_RETRIES) eqn:Hc; [| apply Z.leb_gt in Hc; lia].
  unfold try_catch. rewrite attempt_once_verdict, Hv. reflexivity.
Qed.

Lemma retry_loop_unauthorized fuel attempt lastError s :
  verdict w baseUrl (fetch w (issued s) url) = Unauthorized ->
  attempt <= MAX_RETRIES ->
  retry_loop w baseUrl url options (S fuel) attempt lastError s
  = (Throw (JsError "Authentication failed"),
     after_remove "user" (after_fetch url options TIMEOUT_MS (fetch w (issued s) url) s)).
Proof.
  intros Hv Hle. simpl retry_loop.
  destruct (attempt <=? MAX_RETRIES) eqn:Hc; [| apply Z.leb_gt in Hc; lia].
  unfold try_catch. rewrite attempt_once_verdict, Hv.
  unfold message_of, bind, ret. rewrite gives_up_authentication. reflexivity.
Qed.

Lemma retry_loop_stop fuel attempt lastError s m :
  verdict w baseUrl (fetch w (issued s) url) = Failure m ->
  attempt <= MAX_RETRIES ->
  gives_up m = true \/ attempt = MAX_RETRIES ->
  retry_loop w baseUrl url options (S fuel) attempt lastError s
  = (Throw (JsError m), after_fetch url options TIMEOUT_MS (fetch w (issued s) url) s).
Proof.
  intros Hv Hle Hstop. simpl retry_loop.
  destruct (attempt <=? MAX_RETRIES) eqn:Hc; [| apply Z.leb_gt in Hc; lia].
  unfold try_catch. rewrite attempt_once_verdict, Hv.
  unfold message_of, bind, ret.
  assert (Hg : gives_up m || (attempt =? MAX_RETRIES) = true).
  { destruct Hstop as [-> | ->]; [reflexivity |].
    rewrite Z.eqb_refl. apply orb_true_r. }
  rewrite Hg. reflexivity.
Qed.

Lemma retry_loop_again fuel attempt lastError s m :
  verdict w baseUrl (fetch w (issued s) url) = Failure m ->
  attempt < MAX_RETRIES ->
  gives_up m = false ->
  retry_loop w baseUrl url options (S fuel) attempt lastError s
  = retry_loop w baseUrl url options fuel (attempt + 1) (JsError m)
      (after_sleep (attempt * 1000)
         (after_fetch url options TIMEOUT_MS (fetch w (issued s) url) s)).
Proof.
  intros Hv Hlt Hg. simpl retry_loop.
  destruct (attempt <=? MAX_RETRIES) eqn:Hc; [| apply Z.leb_gt in Hc; lia].
  unfold try_catch. rewrite attempt_once_verdict, Hv.
  unfold message_of, bind at 1, ret. rewrite Hg.
  assert (Hne : (attempt =? MAX_RETRIES) = false) by (apply Z.eqb_neq; lia).
  assert (Hl : (attempt <? MAX_RETRIES) = true) by (apply Z.ltb_lt; lia).
  rewrite Hne, Hl. reflexivity.
Qed.

(** Whatever the fuel, the loop only adds effects to the state. *)
Lemma retry_loop_replay (fuel : nat) :
  forall (attempt : Z) (lastError : Thrown) (s : State),
  exists evs,
    snd (retry_loop w baseUrl url options fuel attempt lastError s) = replay evs s.
Proof.
  induction fuel as [| fuel IH]; intros attempt lastError s; [now exists [] |].
  simpl retry_loop.
  destruct (attempt <=? MAX_RETRIES); [| now exists []].
  unfold try_catch. rewrite attempt_once_verdict.
  destruct (verdict w baseUrl (fetch w (issued s) url)) as [data | | m].
  - now exists [request (issued s)].
  - exists [request (issued s); ERemoveItem "user"].
    unfold message_of, bind, ret. rewrite gives_up_authentication. reflexivity.
  - unfold message_of, bind at 1, ret.
    destruct (gives_up m || (attempt =? MAX_RETRIES)); [now exists [request (issued s)] |].
    destruct (attempt <? MAX_RETRIES).
    + unfold bind, sleep, emit, modify.
      destruct (IH (attempt + 1) (JsError m)
                  (after_sleep (attempt * 1000)
                     (after_fetch url options TIMEOUT_MS (fetch w (issued s) url) s)))
        as (evs & Heq).
      exists (request (issued s) :: ESleep (attempt * 1000) :: evs). exact Heq.
    + unfold bind, ret.
      destruct (IH (attempt + 1) (JsError m)
                  (after_fetch url options TIMEOUT_MS (fetch w (issued s) url) s))
        as (evs & Heq).
      exists (request (issued s) :: evs). exact Heq.
Qed.

End Runs.

(** ** Facts about runs of the retry loop *)

Lemma requests_app (evs1 evs2 : list Event) :
  requests (evs1 ++ evs2) = requests evs1 ++ requests evs2.
Proof.
  induction evs1 as [| [u b t o | ms | key] evs1 IH]; simpl; congruence.
Qed.

Lemma ok_not_401 (r : Response) : ok r = true -> (status r =? 401) = false.
Proof. unfold ok. intros H. apply andb_true_iff in H as [_ H]. lia. Qed.

Lemma verdict_unauthorized (w : World) (baseUrl : string) (o : FetchOutcome) :
  verdict w baseUrl o = Unauthorized <-> unauthorized_reply w o = true.
Proof.
  unfold verdict, unauthorized_reply, is_json_reply.
  destruct o as [r | m |]; [| split; discriminate ..].
  destruct (html_reply r); simpl; [split; discriminate |].
  destruct (parsed_body w r) as [data | m]; simpl; [| split; discriminate].
  destruct (ok r) eqn:Hok.
  - rewrite (ok_not_401 r Hok). split; discriminate.
  - destruct (status r =? 401); [tauto |].
    destruct (status r =? 404); [split; discriminate |].
    destruct (status r =? 500); split; discriminate.
Qed.

Lemma verdict_success (w : World) (baseUrl : string) (o : FetchOutcome) (data : JSON) :
  verdict w baseUrl o = Success data ->
  exists r, o = Responded r /\ ok r = true /\ is_json_reply w r = true
            /\ parsed_body w r = inl data.
Proof.
  unfold verdict, is_json_reply.
  destruct o as [r | m |]; try discriminate.
  destruct (html_reply r) eqn:Hh; simpl; [discriminate |].
  destruct (parsed_body w r) as [d | m] eqn:Hp; [| discriminate].
  destruct (ok r) eqn:Hok.
  - intros [= <-]. exists r. rewrite Hh, Hp. auto.
  - destruct (status r =? 401); [discriminate |].
    destruct (status r =? 404); [discriminate |].
    destruct (status r =? 500); discriminate.
Qed.

Section RunFacts.

Context (w : World) (baseUrl url : string) (options : FetchOptions).

Local Abbreviation run := (retry_run w baseUrl url options).

(** A run never throws [undefined]. *)
Lemma run_throws_error n attempt evs res :
  run n attempt evs res -> res <> Throw JsUndefined.
Proof. induction 1; congruence. Qed.

(** A run that returns ends with the request that was answered well. *)
Lemma run_ok_last n attempt evs data :
  run n attempt evs (Ok data) ->
  exists pre r,
    evs = pre ++ [EFetch url options TIMEOUT_MS (Responded r)]
    /\ ok r = true /\ parsed_body w r = inl data.
Proof.
  remember (Ok data) as res eqn:Hres.
  induction 1 as [n a d Hv | n a Hv | n a m Hv Hg | n a m evs res Hv Hg Hrun IH];
    try discriminate.
  - injection Hres as ->.
    apply verdict_success in Hv as (r & Ho & Hok & _ & Hp).
    exists [], r. rewrite Ho. auto.
  - destruct (IH Hres) as (pre & r & -> & Hok & Hp).
    exists (EFetch url options TIMEOUT_MS (fetch w n url) :: ESleep (a * 1000) :: pre), r.
    auto.
Qed.

(** A 401 that gets as far as the status test ends the run: the user
    record is removed next and nothing follows. *)
Lemma run_unauthorized_last n attempt evs res pre post u b t o :
  run n attempt evs res ->
  evs = pre ++ EFetch u b t o :: post ->
  unauthorized_reply w o = true ->
  post = [ERemoveItem "user"] /\ res = Throw (JsError "Authentication failed").
Proof.
  intros Hrun. revert pre.
  induction Hrun as [n a d Hv | n a Hv | n a m Hv Hg | n a m evs res Hv Hg Hrun IH];
    intros pre Hevs Hun.
  - destruct pre as [| e [| e' pre]]; try discriminate.
    injection Hevs as <- <- <- Ho <-. rewrite <- Ho in Hun.
    apply (proj2 (verdict_unauthorized w baseUrl _)) in Hun. congruence.
  - destruct pre as [| e [| e' [| e'' pre]]]; try discriminate.
    injection Hevs as <- <- <- Ho <-. auto.
  - destruct pre as [| e [| e' pre]]; try discriminate.
    injection Hevs as <- <- <- Ho <-. rewrite <- Ho in Hun.
    apply (proj2 (verdict_unauthorized w baseUrl _)) in Hun. congruence.
  - destruct pre as [| e [| e' pre]].
    + injection Hevs as <- <- <- Ho <-. rewrite <- Ho in Hun.
      apply (proj2 (verdict_unauthorized w baseUrl _)) in Hun. congruence.
    + discriminate.
    + injection Hevs as <- <- Hevs. eapply IH; eauto.
Qed.

(** The user record is gone after a run that saw such a 401. *)
Lemma run_unauthorized_storage n attempt evs res :
  run n attempt evs res ->
  forall s u b t o,
    In (EFetch u b t o) evs ->
    unauthorized_reply w o = true ->
    AsyncStorage (replay evs s) !! "user" = None.
Proof.
  intros Hrun s u b t o Hin Hun.
  apply in_split in Hin as (pre & post & Hevs).
  destruct (run_unauthorized_last _ _ _ _ _ _ _ _ _ _ Hrun Hevs Hun) as [-> _].
  rewrite Hevs.
  change (pre ++ EFetch u b t o :: [ERemoveItem "user"])
    with (pre ++ [EFetch u b t o; ERemoveItem "user"]).
  rewrite replay_app. simpl. apply lookup_delete_eq.
Qed.

End RunFacts.

(** ** Building the request *)

Lemma read_arguments_throws (methodOrOptions : MethodOrOptions) (bodyData : option Data)
    (e : Thrown) :
  read_arguments methodOrOptions bodyData = Throw e ->
  (methodOrOptions = IsNull \/ methodOrOptions = IsUndefined) /\ exists m, e = JsError m.
Proof.
  destruct methodOrOptions; simpl; try discriminate; intros [= <-]; eauto.
Qed.

Lemma authorization_throws (token : option JSON) (e : Thrown) :
  authorization token = Throw e ->
  e = JsError cannot_convert
  /\ exists t, token = Some t /\ Js.truthy t = true /\ Js.to_string t = None.
Proof.
  unfold authorization. destruct token as [t |]; [| discriminate].
  destruct (Js.truthy t) eqn:Ht; [| discriminate].
  destruct (Js.to_string t) eqn:Hs; [discriminate |].
  intros [= <-]. eauto.
Qed.

Lemma request_body_throws (method : string) (data : option Data) (e : Thrown) :
  request_body method data = Throw e ->
  writes method = true
  /\ exists truthy m, data = Some (DataValue truthy (Fails m)) /\ e = JsError m.
Proof.
  unfold request_body.
  destruct (data_truthy data && writes method) eqn:Hc; [| discriminate].
  apply andb_true_iff in Hc as [_ Hw].
  destruct data as [[text | truthy [text | | m]] |]; try discriminate.
  intros [= <-]. eauto.
Qed.

Section Building.

Context (w : World) (methodOrOptions : MethodOrOptions) (bodyData : option Data).

(** The request is built from the arguments and the stored token, in
    this order. *)
Lemma built_eq (s : State) :
  built w methodOrOptions bodyData s
  = match read_arguments methodOrOptions bodyData with
    | Throw e => Throw e
    | Ok (method, data, headers) =>
        match authorization (stored_token w (AsyncStorage s)) with
        | Throw e => Throw e
        | Ok bearer =>
            match request_body method data with
            | Throw e => Throw e
            | Ok body =>
                Ok {| fetch_method := method;
                      fetch_headers := headers ∪ defaultHeaders bearer;
                      fetch_body := body |}
            end
        end
    end.
Proof.
  unfold built, fetchOptions, bind, lift, getAuthToken, ret.
  destruct (read_arguments methodOrOptions bodyData) as [[[method data] headers] | e];
    [| reflexivity].
  destruct (authorization (stored_token w (AsyncStorage s))) as [bearer | e];
    [| reflexivity].
  destruct (request_body method data) as [body | e]; reflexivity.
Qed.

(** Building the request leaves the state as it was. *)
Lemma fetchOptions_built (s : State) :
  fetchOptions w methodOrOptions bodyData s = (built w methodOrOptions bodyData s, s).
Proof.
  unfold built, fetchOptions, bind, lift, getAuthToken, ret.
  destruct (read_arguments methodOrOptions bodyData) as [[[method data] headers] | e];
    [| reflexivity].
  destruct (authorization (stored_token w (AsyncStorage s))) as [bearer | e];
    [| reflexivity].
  destruct (request_body method data) as [body | e]; reflexivity.
Qed.

(** What is built depends on the state through the store only. *)
Lemma built_store (s s' : State) :
  AsyncStorage s' = AsyncStorage s ->
  built w methodOrOptions bodyData s' = built w methodOrOptions bodyData s.
Proof. intros H. rewrite !built_eq, H. reflexivity. Qed.

(** Building throws errors, never [undefined]. *)
Lemma built_throws_error (s : State) (e : Thrown) :
  built w methodOrOptions bodyData s = Throw e -> exists m, e = JsError m.
Proof.
  rewrite built_eq.
  destruct (read_arguments methodOrOptions bodyData) as [[[method data] headers] | e0]
    eqn:Hargs.
  - destruct (authorization (stored_token w (AsyncStorage s))) as [bearer | e1] eqn:Hauth.
    + destruct (request_body method data) as [body | e2] eqn:Hbody; [discriminate |].
      intros [= <-]. apply request_body_throws in Hbody as (_ & t & m & _ & ->). eauto.
    + intros [= <-]. apply authorization_throws in Hauth as [-> _]. eauto.
  - intros [= <-]. now apply read_arguments_throws in Hargs as [_ H].
Qed.

Lemma stored_token_no_user (store : gmap string string) :
  store !! "user" = None -> stored_token w store = None.
Proof. intros H. unfold stored_token. now rewrite H. Qed.

(** A request that can be built can still be built once the user record
    is gone. *)
Lemma built_without_user (s s' : State) (options : FetchOptions) :
  built w methodOrOptions bodyData s = Ok options ->
  AsyncStorage s' !! "user" = None ->
  exists options', built w methodOrOptions bodyData s' = Ok options'.
Proof.
  rewrite !built_eq. intros H Hnone.
  destruct (read_arguments methodOrOptions bodyData) as [[[method data] headers] | e0];
    [| discriminate].
  rewrite (stored_token_no_user _ Hnone). cbn [authorization].
  destruct (authorization (stored_token w (AsyncStorage s))); [| discriminate].
  destruct (request_body method data) as [body | e2]; [eauto | discriminate].
Qed.

End Building.

(** ** [makeApiRequest] and the fallback loop follow their run relations *)

Section Fallback.

Context (w : World) (endpoint : string) (methodOrOptions : MethodOrOptions)
  (bodyData : option Data).

(** [makeApiRequest] is the retry loop on the request that was built. *)
Lemma makeApiRequest_built (baseUrl : string) (s : State) (options : FetchOptions) :
  built w methodOrOptions bodyData s = Ok options ->
  makeApiRequest w baseUrl endpoint methodOrOptions bodyData s
  = retry_loop w baseUrl (baseUrl +:+ endpoint) options (Z.to_nat MAX_RETRIES) 1
      JsUndefined s.
Proof.
  intros H. unfold makeApiRequest, bind. rewrite fetchOptions_built, H. reflexivity.
Qed.

(** When building the request throws, that is all that happens. *)
Lemma makeApiRequest_unbuilt (baseUrl : string) (s : State) (e : Thrown) :
  built w methodOrOptions bodyData s = Throw e ->
  makeApiRequest w baseUrl endpoint methodOrOptions bodyData s = (Throw e, s).
Proof.
  intros H. unfold makeApiRequest, bind. rewrite fetchOptions_built, H. reflexivity.
Qed.

Lemma makeApiRequest_run (baseUrl : string) (s : State) :
  exists evs res,
    makeApiRequest w baseUrl endpoint methodOrOptions bodyData s = (res, replay evs s)
    /\ request_run w baseUrl endpoint methodOrOptions bodyData s evs res.
Proof.
  destruct (built w methodOrOptions bodyData s) as [options | e] eqn:Hb.
  - rewrite (makeApiRequest_built baseUrl s options Hb).
    destruct (retry_loop_run w baseUrl (baseUrl +:+ endpoint) options
                (Z.to_nat MAX_RETRIES) 1 JsUndefined s)
      as (evs & res & Heq & Hrun); [unfold MAX_RETRIES; lia | unfold MAX_RETRIES; simpl; lia |].
    exists evs, res. split; [exact Heq |]. eapply request_built; eauto.
  - rewrite (makeApiRequest_unbuilt baseUrl s e Hb).
    destruct (built_throws_error _ _ _ _ _ Hb) as (m & ->).
    exists [], (Throw (JsError m)). split; [reflexivity |]. now apply request_unbuilt.
Qed.

(** A run never throws [undefined]. *)
Lemma request_run_throws_error baseUrl s evs res :
  request_run w baseUrl endpoint methodOrOptions bodyData s evs res ->
  res <> Throw JsUndefined.
Proof.
  destruct 1 as [m Hb | options evs res Hb Hrun]; [discriminate |].
  eapply run_throws_error; eauto.
Qed.

Lemma fallbacks_run (urls : list string) :
  forall (lastMessage : string) (attemptedUrls : list (option string)) (s : State),
  exists blocks fin,
    fallback_run w endpoint methodOrOptions bodyData (API_BASE_URL s) s urls blocks fin
    /\ fallbacks w endpoint methodOrOptions bodyData (JsError lastMessage)
         attemptedUrls urls s
       = fallback_result lastMessage (length attemptedUrls) blocks fin s.
Proof.
  induction urls as [| devUrl rest IH]; intros lastMessage attempted s.
  - exists [], Exhausted. split; [constructor |].
    simpl. unfold bind, ret, throw, fallback_result, aggregate_message. simpl.
    rewrite Nat.add_0_r. reflexivity.
  - simpl fallbacks. unfold bind at 1, get_state.
    destruct (same_url devUrl (API_BASE_URL s)) eqn:Hsame.
    + destruct (IH lastMessage attempted s) as (blocks & fin & Hrun & Heq).
      exists blocks, fin. split; [now apply fallback_skip | exact Heq].
    + unfold try_catch, bind at 1.
      destruct (makeApiRequest_run devUrl s) as (evs & res & Heq & Hrun).
      rewrite Heq. destruct res as [data | e].
      * exists [(devUrl, evs)], (Promoted devUrl data).
        split; [now apply fallback_success |].
        unfold fallback_result, events_of. simpl. rewrite app_nil_r. reflexivity.
      * destruct e as [m |];
          [| exfalso; eapply request_run_throws_error; eauto].
        unfold message_of, bind at 1, ret.
        destruct (IH lastMessage (attempted ++ [Some devUrl]) (replay evs s))
          as (blocks & fin & Hfb & Heq').
        rewrite API_BASE_URL_replay in Hfb.
        exists ((devUrl, evs) :: blocks), fin.
        split; [eapply fallback_failure; eauto |].
        rewrite Heq'. unfold fallback_result, events_of. simpl.
        rewrite replay_app, length_app. simpl.
        replace (length attempted + 1 + length blocks)%nat
          with (length attempted + S (length blocks))%nat by lia.
        reflexivity.
Qed.

End Fallback.

(** [apiCall]: [makeApiRequest] on the current host, then, if it threw,
    the fallback loop over all configured hosts. *)
Lemma apiCall_run (w : World) (endpoint : string) (methodOrOptions : MethodOrOptions)
    (bodyData : option Data) (s : State) :
  let base := JsString.template (API_BASE_URL s) in
  let given := or_default methodOrOptions in
  exists evs res,
    request_run w base endpoint given bodyData s evs res
    /\ makeApiRequest w base endpoint given bodyData s = (res, replay evs s)
    /\ match res with
       | Ok data => apiCall w endpoint methodOrOptions bodyData s = (Ok data, replay evs s)
       | Throw e =>
           exists m blocks fin,
             e = JsError m
             /\ fallback_run w endpoint given bodyData (API_BASE_URL s) (replay evs s)
                  DEVELOPMENT_API_URLS blocks fin
             /\ apiCall w endpoint methodOrOptions bodyData s
                = fallback_result m 1 blocks fin (replay evs s)
       end.
Proof.
  cbv zeta.
  destruct (makeApiRequest_run w endpoint (or_default methodOrOptions) bodyData
              (JsString.template (API_BASE_URL s)) s)
    as (evs & res & Heq & Hrun).
  exists evs, res. split; [exact Hrun |]. split; [exact Heq |].
  destruct res as [data | e].
  { unfold apiCall, bind at 1, get_state, try_catch. rewrite Heq. reflexivity. }
  destruct e as [m |]; [| exfalso; eapply request_run_throws_error; eauto].
  destruct (fallbacks_run w endpoint (or_default methodOrOptions) bodyData
              DEVELOPMENT_API_URLS m [API_BASE_URL s] (replay evs s))
    as (blocks & fin & Hfb & Heq').
  rewrite API_BASE_URL_replay in Hfb.
  exists m, blocks, fin. split; [reflexivity |]. split; [exact Hfb |].
  unfold apiCall, bind at 1, get_state, try_catch.
  rewrite Heq. unfold message_of, bind at 1, ret. exact Heq'.
Qed.

(** The relation determines what the loop function computes. *)
Lemma retry_run_sound (w : World) (baseUrl url : string) (options : FetchOptions)
    n attempt evs res :
  retry_run w baseUrl url options n attempt evs res ->
  forall (fuel : nat) (lastError : Thrown) (s : State),
    issued s = n ->
    attempt <= MAX_RETRIES ->
    MAX_RETRIES - attempt < Z.of_nat fuel ->
    retry_loop w baseUrl url options fuel attempt lastError s = (res, replay evs s).
Proof.
  induction 1 as [n a d Hv | n a Hv | n a m Hv Hg | n a m evs res Hv Hg Hrun IH];
    intros fuel lastError s Hn Hle Hfuel; subst n;
    (destruct fuel as [| fuel]; [lia |]).
  - now apply retry_loop_success.
  - now apply retry_loop_unauthorized.
  - apply retry_loop_stop; [exact Hv | exact Hle |].
    apply orb_true_iff in Hg as [Hg | Hg]; [now left | right; lia].
  - apply orb_false_iff in Hg as [Hg Hne]. apply Z.eqb_neq in Hne.
    rewrite (retry_loop_again w baseUrl url options fuel a lastError s m Hv) by (lia || assumption).
    rewrite IH; [reflexivity | reflexivity | lia | lia].
Qed.

Lemma request_run_sound (w : World) (baseUrl endpoint : string)
    (methodOrOptions : MethodOrOptions) (bodyData : option Data) (s : State) evs res :
  request_run w baseUrl endpoint methodOrOptions bodyData s evs res ->
  makeApiRequest w baseUrl endpoint methodOrOptions bodyData s = (res, replay evs s).
Proof.
  destruct 1 as [m Hb | options evs res Hb Hrun].
  - now apply makeApiRequest_unbuilt.
  - rewrite (makeApiRequest_built w endpoint _ _ baseUrl s options Hb).
    eapply retry_run_sound; eauto; unfold MAX_RETRIES; simpl; lia.
Qed.

(** ** A host that fails every attempt without giving the loop a reason to stop *)

Section ThreeFailures.

Context (w : World) (baseUrl endpoint : string) (methodOrOptions : MethodOrOptions)
  (bodyData : option Data) (s : State) (options : FetchOptions).

Let url := baseUrl +:+ endpoint.
Let request (n : nat) : Event := EFetch url options TIMEOUT_MS (fetch w n url).

Lemma makeApiRequest_three_failures (m1 m2 m3 : string) :
  built w methodOrOptions bodyData s = Ok options ->
  verdict w baseUrl (fetch w (issued s) url) = Failure m1 ->
  gives_up m1 = false ->
  verdict w baseUrl (fetch w (S (issued s)) url) = Failure m2 ->
  gives_up m2 = false ->
  verdict w baseUrl (fetch w (S (S (issued s))) url) = Failure m3 ->
  makeApiRequest w baseUrl endpoint methodOrOptions bodyData s
  = (Throw (JsError m3),
     replay [request (issued s); ESleep 1000;
             request (S (issued s)); ESleep 2000;
             request (S (S (issued s)))] s).
Proof.
  intros Hb Hv1 Hg1 Hv2 Hg2 Hv3.
  rewrite (makeApiRequest_built w endpoint _ _ baseUrl s options Hb). fold url.
  change (Z.to_nat MAX_RETRIES) with 3%nat.
  erewrite retry_loop_again; [| exact Hv1 | reflexivity | exact Hg1].
  erewrite retry_loop_again; [| exact Hv2 | reflexivity | exact Hg2].
  erewrite retry_loop_stop; [| exact Hv3 | discriminate | right; reflexivity].
  reflexivity.
Qed.

End ThreeFailures.

(** ** Verdicts on particular answers *)

Lemma is_json_reply_parsed (w : World) (r : Response) :
  is_json_reply w r = true ->
  html_reply r = false /\ exists data, parsed_body w r = inl data.
Proof.
  unfold is_json_reply. intros H. apply andb_true_iff in H as [Hh Hp].
  split; [now apply negb_true_iff in Hh |].
  destruct (parsed_body w r) as [data | m]; [eauto | discriminate].
Qed.

Lemma verdict_500 (w : World) (baseUrl : string) (r : Response) :
  status r = 500 -> is_json_reply w r = true ->
  verdict w baseUrl (Responded r) = Failure "Server internal error".
Proof.
  intros Hst Hj. apply is_json_reply_parsed in Hj as (Hh & data & Hp).
  unfold verdict, ok. rewrite Hh, Hp, Hst. reflexivity.
Qed.

Lemma verdict_404 (w : World) (baseUrl : string) (r : Response) :
  status r = 404 -> is_json_reply w r = true ->
  verdict w baseUrl (Responded r) = Failure "API endpoint not found".
Proof.
  intros Hst Hj. apply is_json_reply_parsed in Hj as (Hh & data & Hp).
  unfold verdict, ok. rewrite Hh, Hp, Hst. reflexivity.
Qed.

Lemma verdict_html (w : World) (baseUrl : string) (r : Response) :
  html_reply r = true ->
  verdict w baseUrl (Responded r) = Failure (html_message baseUrl).
Proof. intros Hh. unfold verdict. rewrite Hh. reflexivity. Qed.

Lemma verdict_parse_failure (w : World) (baseUrl : string) (r : Response) (m : string) :
  html_reply r = false -> parsed_body w r = inr m ->
  verdict w baseUrl (Responded r) = Failure ("Invalid JSON response: " +:+ m).
Proof. intros Hh Hp. unfold verdict. rewrite Hh, Hp. reflexivity. Qed.

Lemma parsed_body_text (w : World) (r : Response) (text : string) :
  body r = BodyText text ->
  parsed_body w r
  = if JsString.blank text then inl (JObject []) else JSON_parse w text.
Proof. intros H. unfold parsed_body. rewrite H. reflexivity. Qed.

Lemma verdict_blank_ok (w : World) (baseUrl : string) (r : Response) (text : string) :
  html_reply r = false -> body r = BodyText text -> JsString.blank text = true ->
  ok r = true ->
  verdict w baseUrl (Responded r) = Success (JObject []).
Proof.
  intros Hh Hb Hbl Hok. unfold verdict.
  rewrite Hh, (parsed_body_text w r text Hb), Hbl, Hok. reflexivity.
Qed.

(** A run of the retry loop starts with a request. *)
Lemma run_first_request (w : World) (baseUrl url : string) (options : FetchOptions)
    n attempt evs res :
  retry_run w baseUrl url options n attempt evs res ->
  exists rest, evs = EFetch url options TIMEOUT_MS (fetch w n url) :: rest.
Proof. destruct 1; eauto. Qed.

(** ** The first attempt of [makeApiRequest] *)

Section FirstAttempt.

Context (w : World) (baseUrl endpoint : string) (methodOrOptions : MethodOrOptions)
  (bodyData : option Data) (s : State) (options : FetchOptions).

Let url := baseUrl +:+ endpoint.
Let first := EFetch url options TIMEOUT_MS (fetch w (issued s) url).

Hypothesis Hbuilt : built w methodOrOptions bodyData s = Ok options.

(** The first answer decides when it is a success. *)
Lemma makeApiRequest_first_success (data : JSON) :
  verdict w baseUrl (fetch w (issued s) url) = Success data ->
  makeApiRequest w baseUrl endpoint methodOrOptions bodyData s
  = (Ok data, after_fetch url options TIMEOUT_MS (fetch w (issued s) url) s).
Proof.
  intros Hv. rewrite (makeApiRequest_built w endpoint _ _ baseUrl s options Hbuilt).
  fold url. change (Z.to_nat MAX_RETRIES) with 3%nat.
  erewrite retry_loop_success; [reflexivity | exact Hv | discriminate].
Qed.

(** The first answer decides when its failure gives the loop a reason to stop. *)
Lemma makeApiRequest_first_stop (m : string) :
  verdict w baseUrl (fetch w (issued s) url) = Failure m ->
  gives_up m = true ->
  makeApiRequest w baseUrl endpoint methodOrOptions bodyData s
  = (Throw (JsError m), after_fetch url options TIMEOUT_MS (fetch w (issued s) url) s).
Proof.
  intros Hv Hg. rewrite (makeApiRequest_built w endpoint _ _ baseUrl s options Hbuilt).
  fold url. change (Z.to_nat MAX_RETRIES) with 3%nat.
  erewrite retry_loop_stop; [reflexivity | exact Hv | discriminate | now left].
Qed.

Lemma makeApiRequest_first_unauthorized :
  verdict w baseUrl (fetch w (issued s) url) = Unauthorized ->
  makeApiRequest w baseUrl endpoint methodOrOptions bodyData s
  = (Throw (JsError "Authentication failed"), replay [first; ERemoveItem "user"] s).
Proof.
  intros Hv. rewrite (makeApiRequest_built w endpoint _ _ baseUrl s options Hbuilt).
  fold url. change (Z.to_nat MAX_RETRIES) with 3%nat.
  erewrite retry_loop_unauthorized; [reflexivity | exact Hv | discriminate].
Qed.

(** A first failure that gives no reason to stop is followed by a pause
    of 1000 ms and a second request. *)
Lemma makeApiRequest_first_retry (m : string) :
  verdict w baseUrl (fetch w (issued s) url) = Failure m ->
  gives_up m = false ->
  exists evs res,
    makeApiRequest w baseUrl endpoint methodOrOptions bodyData s
    = (res, replay (first :: ESleep 1000
                      :: EFetch url options TIMEOUT_MS (fetch w (S (issued s)) url)
                      :: evs) s).
Proof.
  intros Hv Hg. rewrite (makeApiRequest_built w endpoint _ _ baseUrl s options Hbuilt).
  fold url. change (Z.to_nat MAX_RETRIES) with 3%nat.
  erewrite retry_loop_again; [| exact Hv | reflexivity | exact Hg].
  destruct (retry_loop_run w baseUrl url options 2 (1 + 1) (JsError m)
              (after_sleep (1 * 1000)
                 (after_fetch url options TIMEOUT_MS (fetch w (issued s) url) s)))
    as (evs & res & Heq & Hrun); [discriminate | reflexivity |].
  destruct (run_first_request _ _ _ _ _ _ _ _ Hrun) as (rest & ->).
  exists rest, res. rewrite Heq. reflexivity.
Qed.

End FirstAttempt.

Lemma gives_up_html_message (baseUrl : string) :
  In baseUrl DEVELOPMENT_API_URLS -> gives_up (html_message baseUrl) = false.
Proof.
  intros [<- | [<- | [<- | []]]]; reflexivity.
Qed.

(** ** Traces: requests, pauses and removals *)

Lemma pauses_app (evs1 evs2 : list Event) :
  pauses (evs1 ++ evs2) = pauses evs1 ++ pauses evs2.
Proof.
  induction evs1 as [| [u b t o | ms | key] evs1 IH]; simpl; congruence.
Qed.

Lemma removals_app (evs1 evs2 : list Event) :
  removals (evs1 ++ evs2) = removals evs1 ++ removals evs2.
Proof.
  induction evs1 as [| [u b t o | ms | key] evs1 IH]; simpl; congruence.
Qed.

Lemma total_pause_app (evs1 evs2 : list Event) :
  total_pause (evs1 ++ evs2) = total_pause evs1 + total_pause evs2.
Proof.
  unfold total_pause. rewrite pauses_app.
  induction (pauses evs1) as [| ms l IH]; simpl; lia.
Qed.

Lemma pauses_In (evs : list Event) (ms : Z) :
  In (ESleep ms) evs -> In ms (pauses evs).
Proof.
  induction evs as [| [u b t o | ms' | key] evs IH]; simpl; intros Hin.
  - exact Hin.
  - destruct Hin as [[=] | Hin]; auto.
  - destruct Hin as [[= ->] | Hin]; auto.
  - destruct Hin as [[=] | Hin]; auto.
Qed.

Lemma pauses_take (k : nat) (ms : Z) :
  In ms (take k [1000; 2000]) -> ms = 1000 \/ ms = 2000.
Proof. destruct k as [| [| [| k]]]; simpl; intuition auto. Qed.

Lemma total_pause_take (k : nat) :
  0 <= foldr Z.add 0 (take k [1000; 2000]) <= 3000.
Proof. destruct k as [| [| [| k]]]; simpl; lia. Qed.

(** The store after a trace that removes nothing but the user record. *)
Lemma storage_replay (evs : list Event) (s : State) :
  Forall (fun key => key = "user") (removals evs) ->
  AsyncStorage (replay evs s)
  = match removals evs with
    | [] => AsyncStorage s
    | _ => delete "user" (AsyncStorage s)
    end.
Proof.
  revert s. induction evs as [| [u b t o | ms | key] evs IH]; intros s H; simpl in H.
  - reflexivity.
  - change (replay (EFetch u b t o :: evs) s) with (replay evs (after_fetch u b t o s)).
    now rewrite IH.
  - change (replay (ESleep ms :: evs) s) with (replay evs (after_sleep ms s)).
    now rewrite IH.
  - apply Forall_cons in H as [-> H].
    change (replay (ERemoveItem "user" :: evs) s)
      with (replay evs (after_remove "user" s)).
    rewrite (IH _ H). simpl.
    destruct (removals evs); [reflexivity | apply delete_delete_eq].
Qed.

Lemma storage_after_removal (pre post : list Event) (s : State) :
  AsyncStorage (replay (pre ++ ERemoveItem "user" :: post) s) !! "user" = None.
Proof.
  rewrite replay_app. change (ERemoveItem "user" :: post) with ([ERemoveItem "user"] ++ post).
  rewrite replay_app. apply storage_replay_None. simpl. apply lookup_delete_eq.
Qed.

(** ** The shape of a run of the retry loop *)

Section RunShape.

Context (w : World) (baseUrl url : string) (options : FetchOptions).

(** A run makes [k] requests to its URL, pauses between consecutive
    requests and nowhere else, for the attempt number times 1000 ms. *)
Lemma run_shape n attempt evs res :
  retry_run w baseUrl url options n attempt evs res ->
  attempt <= MAX_RETRIES ->
  exists k : nat,
    requests evs = replicate (S k) url
    /\ pauses evs = backoff attempt k
    /\ Z.of_nat k <= MAX_RETRIES - attempt.
Proof.
  induction 1 as [n a d Hv | n a Hv | n a m Hv Hg | n a m evs res Hv Hg Hrun IH];
    intros Hle.
  1-3: exists 0%nat; repeat split; lia.
  apply orb_false_iff in Hg as [_ Hne]. apply Z.eqb_neq in Hne.
  destruct IH as (k & Hreq & Hp & Hk); [lia |].
  exists (S k). simpl. rewrite Hreq, Hp. repeat split. lia.
Qed.

(** The user record is removed only in answer to a 401. *)
Lemma run_removals n attempt evs res :
  retry_run w baseUrl url options n attempt evs res ->
  removals evs = []
  \/ (removals evs = ["user"]
      /\ exists r, In (EFetch url options TIMEOUT_MS (Responded r)) evs /\ status r = 401).
Proof.
  induction 1 as [n a d Hv | n a Hv | n a m Hv Hg | n a m evs res Hv Hg Hrun IH].
  - now left.
  - right. split; [reflexivity |].
    apply verdict_unauthorized in Hv. unfold unauthorized_reply in Hv.
    destruct (fetch w n url) as [r | |]; try discriminate.
    apply andb_true_iff in Hv as [_ Hst]. apply Z.eqb_eq in Hst.
    exists r. split; [now left | exact Hst].
  - now left.
  - destruct IH as [IH | (IH & r & Hin & Hst)]; [now left |].
    right. split; [exact IH |]. exists r. split; [now right; right | exact Hst].
Qed.

(** Every request of a run is the request the run was started with, to
    the URL of the run and with the timeout [TIMEOUT_MS]. *)
Lemma run_options n attempt evs res u b t o :
  retry_run w baseUrl url options n attempt evs res ->
  In (EFetch u b t o) evs -> u = url /\ b = options /\ t = TIMEOUT_MS.
Proof.
  induction 1 as [n a d Hv | n a Hv | n a m Hv Hg | n a m evs res Hv Hg Hrun IH];
    simpl; intros Hin.
  - destruct Hin as [[= <- <- <- _] | []]. auto.
  - destruct Hin as [[= <- <- <- _] | [[=] | []]]. auto.
  - destruct Hin as [[= <- <- <- _] | []]. auto.
  - destruct Hin as [[= <- <- <- _] | [[=] | Hin]]; [auto | now apply IH].
Qed.

(** A removal is the last thing a run does. *)
Lemma run_removal_last n attempt evs res pre post key :
  retry_run w baseUrl url options n attempt evs res ->
  evs = pre ++ ERemoveItem key :: post -> post = [].
Proof.
  intros Hrun. revert pre.
  induction Hrun as [n a d Hv | n a Hv | n a m Hv Hg | n a m evs res Hv Hg Hrun IH];
    intros pre Hevs.
  - destruct pre as [| e [| e' pre]]; discriminate.
  - destruct pre as [| e [| e' [| e'' pre]]]; try discriminate.
    now injection Hevs.
  - destruct pre as [| e [| e' pre]]; discriminate.
  - destruct pre as [| e [| e' pre]]; try discriminate.
    injection Hevs as _ _ Hevs. eapply IH; eauto.
Qed.

End RunShape.

(** A run that starts as the first attempt. *)
Lemma run_budget (w : World) (baseUrl url : string) (options : FetchOptions)
    n evs res :
  retry_run w baseUrl url options n 1 evs res ->
  exists k : nat,
    (k <= 2)%nat
    /\ requests evs = replicate (S k) url
    /\ pauses evs = take k [1000; 2000].
Proof.
  intros Hrun.
  destruct (run_shape _ _ _ _ _ _ _ _ Hrun) as (k & Hreq & Hp & Hk); [discriminate |].
  unfold MAX_RETRIES in Hk.
  exists k. split; [lia |]. split; [exact Hreq |].
  destruct k as [| [| [| k]]]; try exact Hp. lia.
Qed.

(** ** Where the pauses are *)

Lemma between_attempts_app (evs1 evs2 : list Event) :
  between_attempts evs1 -> between_attempts evs2 -> between_attempts (evs1 ++ evs2).
Proof.
  intros H1 H2 pre post ms Heq.
  apply app_eq_inv in Heq as [(k & -> & Hk) | (k & -> & ->)].
  - destruct k as [| e k].
    + simpl in Hk.
      destruct (H2 [] post ms) as (pre' & url & b & t & o & o' & post' & Hpre & _);
        [now rewrite Hk |].
      destruct pre'; discriminate.
    + injection Hk as <- ->.
      destruct (H1 pre k ms eq_refl) as (pre' & url & b & t & o & o' & post' & -> & ->).
      exists pre', url, b, t, o, o', (post' ++ evs2). split; reflexivity.
  - destruct (H2 k post ms eq_refl) as (pre' & url & b & t & o & o' & post' & -> & ->).
    exists (evs1 ++ pre'), url, b, t, o, o', post'. rewrite app_assoc. split; reflexivity.
Qed.

Lemma between_attempts_nil : between_attempts [].
Proof. intros [| e pre] post ms Heq; discriminate. Qed.

Lemma between_attempts_run (w : World) (baseUrl url : string) (options : FetchOptions)
    n attempt evs res :
  retry_run w baseUrl url options n attempt evs res -> between_attempts evs.
Proof.
  induction 1 as [n a d Hv | n a Hv | n a m Hv Hg | n a m evs res Hv Hg Hrun IH];
    intros pre post ms Heq.
  - destruct pre as [| e [| e' pre]]; discriminate.
  - destruct pre as [| e [| e' [| e'' pre]]]; discriminate.
  - destruct pre as [| e [| e' pre]]; discriminate.
  - destruct pre as [| e [| e' pre]]; [discriminate | |].
    + injection Heq as <- _ <-.
      destruct (run_first_request _ _ _ _ _ _ _ _ Hrun) as (tail & ->).
      exists [], url, options, TIMEOUT_MS, (fetch w n url), (fetch w (S n) url), tail.
      split; reflexivity.
    + injection Heq as <- <- Heq.
      destruct (IH pre post ms Heq) as (pre' & u & b & t & o & o' & post' & -> & ->).
      exists (EFetch url options TIMEOUT_MS (fetch w n url) :: ESleep (a * 1000) :: pre'),
        u, b, t, o, o', post'.
      split; reflexivity.
Qed.

(** ** Facts about runs of [makeApiRequest] *)

Section RequestRuns.

Context (w : World) (baseUrl endpoint : string) (methodOrOptions : MethodOrOptions)
  (bodyData : option Data) (s : State).

Local Abbreviation run := (request_run w baseUrl endpoint methodOrOptions bodyData s).
Local Abbreviation url := (baseUrl +:+ endpoint).

(** At most three requests, all to the one URL, with the pauses of the
    backoff between them; none at all exactly when the request cannot be
    built. *)
Lemma request_run_budget evs res :
  run evs res ->
  exists k : nat,
    (k <= 3)%nat
    /\ requests evs = replicate k url
    /\ pauses evs = take (pred k) [1000; 2000]
    /\ if buildable w methodOrOptions bodyData s then (1 <= k)%nat else evs = [].
Proof.
  unfold buildable.
  destruct 1 as [m Hb | options evs res Hb Hrun]; rewrite Hb.
  - exists 0%nat. repeat split. lia.
  - destruct (run_budget _ _ _ _ _ _ _ Hrun) as (k & Hk & Hreq & Hp).
    exists (S k). repeat split; [lia | exact Hreq | exact Hp | lia].
Qed.

(** A run that returns ends with the request that was answered well. *)
Lemma request_run_ok_last evs data :
  run evs (Ok data) ->
  exists pre options r,
    evs = pre ++ [EFetch url options TIMEOUT_MS (Responded r)]
    /\ ok r = true /\ parsed_body w r = inl data.
Proof.
  inversion 1 as [m Hb | options evs' res' Hb Hrun]; subst.
  destruct (run_ok_last _ _ _ _ _ _ _ _ Hrun) as (pre & r & -> & Hok & Hp). eauto 8.
Qed.

(** A 401 that gets as far as the status test ends the run: the user
    record is removed next and nothing follows. *)
Lemma request_run_unauthorized_last evs res pre post u b t o :
  run evs res ->
  evs = pre ++ EFetch u b t o :: post ->
  unauthorized_reply w o = true ->
  post = [ERemoveItem "user"] /\ res = Throw (JsError "Authentication failed").
Proof.
  destruct 1 as [m Hb | options evs res Hb Hrun]; intros Hevs Hun.
  - destruct pre; discriminate.
  - eapply run_unauthorized_last; eauto.
Qed.

Lemma request_run_unauthorized_storage evs res s0 u b t o :
  run evs res ->
  In (EFetch u b t o) evs ->
  unauthorized_reply w o = true ->
  AsyncStorage (replay evs s0) !! "user" = None.
Proof.
  destruct 1 as [m Hb | options evs res Hb Hrun]; intros Hin Hun.
  - destruct Hin.
  - eapply run_unauthorized_storage; eauto.
Qed.

(** The user record is removed only in answer to a 401. *)
Lemma request_run_removals evs res :
  run evs res ->
  removals evs = []
  \/ (removals evs = ["user"]
      /\ exists b r, In (EFetch url b TIMEOUT_MS (Responded r)) evs /\ status r = 401).
Proof.
  destruct 1 as [m Hb | options evs res Hb Hrun]; [now left |].
  destruct (run_removals _ _ _ _ _ _ _ _ Hrun) as [H | (H & r & Hin & Hst)]; eauto 8.
Qed.

(** Every request of a run is the request built in the state the run
    started in, to the URL of the run and with the timeout [TIMEOUT_MS]. *)
Lemma request_run_options evs res u b t o :
  run evs res ->
  In (EFetch u b t o) evs ->
  u = url /\ built w methodOrOptions bodyData s = Ok b /\ t = TIMEOUT_MS.
Proof.
  destruct 1 as [m Hb | options evs res Hb Hrun]; intros Hin; [destruct Hin |].
  destruct (run_options _ _ _ _ _ _ _ _ _ _ _ _ Hrun Hin) as (-> & -> & ->). auto.
Qed.

Lemma request_run_removal_last evs res pre post key :
  run evs res ->
  evs = pre ++ ERemoveItem key :: post -> post = [].
Proof.
  destruct 1 as [m Hb | options evs res Hb Hrun]; intros Hevs.
  - destruct pre; discriminate.
  - eapply run_removal_last; eauto.
Qed.

(** A run whose request can be built starts with that request. *)
Lemma request_run_first options evs res :
  built w methodOrOptions bodyData s = Ok options ->
  run evs res ->
  exists rest, evs = EFetch url options TIMEOUT_MS (fetch w (issued s) url) :: rest.
Proof.
  intros Hb. destruct 1 as [m Hb' | options' evs res Hb' Hrun]; [congruence |].
  rewrite Hb in Hb'. injection Hb' as <-.
  eapply run_first_request; eauto.
Qed.

Lemma request_run_between evs res : run evs res -> between_attempts evs.
Proof.
  destruct 1 as [m Hb | options evs res Hb Hrun]; [apply between_attempts_nil |].
  eapply between_attempts_run; eauto.
Qed.

Lemma request_run_pauses evs res ms :
  run evs res -> In ms (pauses evs) -> ms = 1000 \/ ms = 2000.
Proof.
  intros Hrun Hin.
  destruct (request_run_budget _ _ Hrun) as (k & _ & _ & Hp & _).
  rewrite Hp in Hin. eapply pauses_take; eauto.
Qed.

(** The store after a run: as it was, or without the user record. *)
Lemma request_run_storage evs res :
  run evs res ->
  Forall (fun key => key = "user") (removals evs)
  /\ (AsyncStorage (replay evs s) = AsyncStorage s
      \/ AsyncStorage (replay evs s) !! "user" = None).
Proof.
  intros Hrun.
  assert (Hall : Forall (fun key => key = "user") (removals evs)).
  { destruct (request_run_removals _ _ Hrun) as [-> | [-> _]]; repeat constructor. }
  split; [exact Hall |]. rewrite (storage_replay evs s Hall).
  destruct (removals evs); [now left | right; apply lookup_delete_eq].
Qed.

(** A request that can be built before a run can be built after it, and
    one that cannot, cannot. *)
Lemma request_run_buildable evs res :
  run evs res ->
  buildable w methodOrOptions bodyData (replay evs s)
  = buildable w methodOrOptions bodyData s.
Proof.
  intros Hrun. destruct (request_run_storage _ _ Hrun) as [_ [Hst | Hst]].
  - unfold buildable. now rewrite (built_store _ _ _ _ _ Hst).
  - unfold buildable at 2.
    destruct (built w methodOrOptions bodyData s) as [options |] eqn:Hb.
    + destruct (built_without_user _ _ _ _ _ _ Hb Hst) as (options' & Hb').
      unfold buildable. now rewrite Hb'.
    + destruct Hrun as [m Hb' | options evs res Hb' Hrun]; [| congruence].
      unfold buildable. cbn [replay fold_left]. now rewrite Hb.
Qed.

End RequestRuns.

(** ** Facts about runs of the fallback loop *)

Lemma trace_promote (devUrl : string) (s : State) : trace (promote devUrl s) = trace s.
Proof. reflexivity. Qed.

Lemma trace_fallback_result (m : string) (k : nat) (blocks : list (string * list Event))
    (fin : FallbackEnd) (s : State) :
  trace (snd (fallback_result m k blocks fin s)) = trace s ++ events_of blocks.
Proof. destruct fin; simpl; apply trace_replay. Qed.

Lemma AsyncStorage_fallback_result (m : string) (k : nat)
    (blocks : list (string * list Event)) (fin : FallbackEnd) (s : State) :
  AsyncStorage (snd (fallback_result m k blocks fin s))
  = AsyncStorage (replay (events_of blocks) s).
Proof. destruct fin; reflexivity. Qed.

Section FallbackFacts.

Context (w : World) (endpoint : string) (methodOrOptions : MethodOrOptions)
  (bodyData : option Data) (base : option string).

Local Abbreviation loop := (fallback_run w endpoint methodOrOptions bodyData base).

(** The hosts the loop is to try: the configured ones but the one just tried. *)
Local Abbreviation others urls := (List.filter (fun u => negb (same_url u base)) urls).

(** The loop takes the other hosts in order and calls [makeApiRequest]
    once on each, until a call returns. *)
Lemma fallback_run_per_host s urls blocks fin :
  loop s urls blocks fin ->
  per_host_runs w endpoint methodOrOptions bodyData s blocks fin
  /\ exists rest,
       others urls = map fst blocks ++ rest
       /\ match fin with
          | Exhausted => rest = []
          | Promoted _ _ => blocks <> []
          end.
Proof.
  induction 1 as [s | s devUrl rest blocks fin Hsame Hrun IH
                  | s devUrl rest evs data Hsame Hrun
                  | s devUrl rest evs m blocks fin Hsame Hrun Hfb IH].
  - split; [reflexivity |]. exists []. auto.
  - destruct IH as (Hper & rest' & Ho & Hf).
    split; [exact Hper |]. exists rest'. simpl. rewrite Hsame. simpl. auto.
  - split.
    + exists (Ok data). split; [now apply request_run_sound | auto].
    + exists (others rest). simpl. rewrite Hsame. simpl. split; [reflexivity | discriminate].
  - destruct IH as (Hper & rest' & Ho & Hf). split.
    + exists (Throw (JsError m)). split; [now apply request_run_sound | exact Hper].
    + exists rest'. simpl. rewrite Hsame. simpl. rewrite Ho.
      split; [reflexivity |]. destruct fin; [discriminate | exact Hf].
Qed.

(** Each call makes at most [MAX_RETRIES] requests, all to its host: at
    least one if the request can be built, and nothing at all if not. *)
Lemma fallback_run_blocks s urls blocks fin :
  loop s urls blocks fin ->
  Forall (fun b => exists k : nat,
            (k <= 3)%nat
            /\ requests (snd b) = replicate k (fst b +:+ endpoint)
            /\ if buildable w methodOrOptions bodyData s then (1 <= k)%nat
               else snd b = []) blocks.
Proof.
  induction 1 as [s | s devUrl rest blocks fin Hsame Hrun IH
                  | s devUrl rest evs data Hsame Hrun
                  | s devUrl rest evs m blocks fin Hsame Hrun Hfb IH].
  - constructor.
  - exact IH.
  - constructor; [| constructor].
    destruct (request_run_budget _ _ _ _ _ _ _ _ Hrun) as (k & Hk & Hreq & _ & Hb).
    exists k. auto.
  - constructor.
    + destruct (request_run_budget _ _ _ _ _ _ _ _ Hrun) as (k & Hk & Hreq & _ & Hb).
      exists k. auto.
    + rewrite (request_run_buildable _ _ _ _ _ _ _ _ Hrun) in IH. exact IH.
Qed.

(** Once a 401 that got as far as the status test was met in the fallback
    loop, the user record is gone when the loop ends. *)
Lemma fallback_run_unauthorized_storage s urls blocks fin u b t o :
  loop s urls blocks fin ->
  In (EFetch u b t o) (events_of blocks) ->
  unauthorized_reply w o = true ->
  AsyncStorage (replay (events_of blocks) s) !! "user" = None.
Proof.
  induction 1 as [s | s devUrl rest blocks fin Hsame Hrun IH
                  | s devUrl rest evs data Hsame Hrun
                  | s devUrl rest evs m blocks fin Hsame Hrun Hfb IH];
    intros Hin Hun.
  - destruct Hin.
  - now apply IH.
  - unfold events_of in *. simpl in *. rewrite app_nil_r in *.
    eapply request_run_unauthorized_storage; eauto.
  - unfold events_of in *. simpl in *. rewrite replay_app.
    apply in_app_or in Hin as [Hin | Hin].
    + apply storage_replay_None. eapply request_run_unauthorized_storage; eauto.
    + now apply IH.
Qed.

(** The host the fallback loop promotes is a configured one, other than
    the one tried first, and the last thing the loop did was to get a good
    answer from it. *)
Lemma fallback_run_promoted s urls blocks fin devUrl data :
  loop s urls blocks fin ->
  fin = Promoted devUrl data ->
  In devUrl urls /\ same_url devUrl base = false
  /\ exists pre b r,
       events_of blocks = pre ++ [EFetch (devUrl +:+ endpoint) b TIMEOUT_MS (Responded r)]
       /\ ok r = true /\ parsed_body w r = inl data.
Proof.
  induction 1 as [s | s d rest blocks fin Hsame Hrun IH
                  | s d rest evs v Hsame Hrun
                  | s d rest evs m blocks fin Hsame Hrun Hfb IH];
    intros Hfin.
  - discriminate.
  - destruct (IH Hfin) as (Hin & Hs & Hlast). split; [now right | auto].
  - injection Hfin as -> ->.
    destruct (request_run_ok_last _ _ _ _ _ _ _ _ Hrun) as (pre & b & r & -> & Hok & Hp).
    split; [now left |]. split; [exact Hsame |].
    exists pre, b, r. unfold events_of. simpl. rewrite app_nil_r. auto.
  - destruct (IH Hfin) as (Hin & Hs & pre & b & r & Hev & Hok & Hp).
    split; [now right |]. split; [exact Hs |].
    exists (evs ++ pre), b, r. unfold events_of in *. simpl. rewrite Hev, app_assoc. auto.
Qed.

End FallbackFacts.

(** ** [indexOf] and [array_get] *)

Lemma index_from_spec (x : string) (arr : list string) :
  In x arr ->
  forall i, i <= index_from i x arr < i + Z.of_nat (length arr)
            /\ arr !! Z.to_nat (index_from i x arr - i) = Some x.
Proof.
  induction arr as [| y rest IH]; intros Hin i; [destruct Hin |].
  simpl index_from. destruct (String.eqb y x) eqn:Heq.
  - apply String.eqb_eq in Heq as ->. rewrite Z.sub_diag. simpl length.
    split; [lia | reflexivity].
  - destruct Hin as [-> | Hin]; [rewrite String.eqb_refl in Heq; discriminate |].
    destruct (IH Hin (i + 1)) as [Hb Hl]. simpl length. split; [lia |].
    replace (index_from (i + 1) x rest - i) with (Z.succ (index_from (i + 1) x rest - (i + 1)))
      by lia.
    rewrite Z2Nat.inj_succ by lia. exact Hl.
Qed.

Lemma indexOf_bounds (x : string) (arr : list string) :
  In x arr -> 0 <= indexOf arr x < Z.of_nat (length arr).
Proof. intros Hin. apply (index_from_spec x arr Hin 0). Qed.

Lemma array_get_indexOf (x : string) (arr : list string) :
  In x arr -> array_get arr (indexOf arr x) = Some x.
Proof.
  intros Hin. destruct (index_from_spec x arr Hin 0) as [Hb Hl].
  unfold array_get, indexOf.
  destruct (index_from 0 x arr <? 0) eqn:Hneg; [apply Z.ltb_lt in Hneg; lia |].
  rewrite Z.sub_0_r in Hl. exact Hl.
Qed.

(** ** The host pointer *)

Section Pointer.

Context (w : World).

Lemma probe_from_index (urls : list string) :
  forall (i : Z) (s : State),
    0 <= i ->
    i + Z.of_nat (length urls) <= Z.of_nat (length DEVELOPMENT_API_URLS) ->
    host_invariant s ->
    host_invariant (snd (probe_from w i urls s)).
Proof.
  induction urls as [| testUrl rest IH]; intros i s Hi Hlen Hinv; [exact Hinv |].
  change (length (testUrl :: rest)) with (S (length rest)) in Hlen.
  simpl probe_from.
  unfold bind at 1, try_catch, bind at 1, fetch_with_timeout.
  destruct (fetch w (issued s) (testUrl +:+ "/debug/test")) as [r | m |].
  - destruct (ok r).
    + destruct Hinv as [Hne _]. split; [exact Hne |].
      cbn [set_current modify bind ret snd currentApiIndex]. lia.
    + cbn [ret message_of bind]. apply IH; [lia | lia | exact Hinv].
  - cbn [ret message_of bind]. apply IH; [lia | lia | exact Hinv].
  - cbn [ret message_of bind]. apply IH; [lia | lia | exact Hinv].
Qed.

Lemma switchToNextApiUrl_index (s : State) :
  host_invariant s -> host_invariant (snd (switchToNextApiUrl s)).
Proof.
  intros [Hne Hb]. unfold switchToNextApiUrl, bind, get_state.
  destruct (currentApiIndex s <? Z.of_nat (length DEVELOPMENT_API_URLS) - 1) eqn:Hlt.
  - apply Z.ltb_lt in Hlt. split; [exact Hne |].
    cbn [set_current modify bind ret snd currentApiIndex]. lia.
  - split; assumption.
Qed.

End Pointer.

Lemma same_url_false (a : string) (b : option string) :
  same_url a b = false -> b <> Some a.
Proof.
  intros H ->. simpl in H. rewrite String.eqb_refl in H. discriminate.
Qed.

Section Calls.

Context (w : World) (endpoint : string) (methodOrOptions : MethodOrOptions)
  (bodyData : option Data) (s : State).

(** A call whose request can be built starts with a request to the
    current host. *)
Lemma apiCall_first_request (options : FetchOptions) :
  let url := JsString.template (API_BASE_URL s) +:+ endpoint in
  built w (or_default methodOrOptions) bodyData s = Ok options ->
  exists evs,
    trace (snd (apiCall w endpoint methodOrOptions bodyData s))
    = trace s ++ EFetch url options TIMEOUT_MS (fetch w (issued s) url) :: evs.
Proof.
  intros url Hb.
  destruct (apiCall_run w endpoint methodOrOptions bodyData s)
    as (evs0 & res & Hrun & _ & Hcall).
  destruct (request_run_first _ _ _ _ _ _ _ _ _ Hb Hrun) as (rest & ->).
  destruct res as [data | e].
  - rewrite Hcall. exists rest. apply trace_replay.
  - destruct Hcall as (m & blocks & fin & _ & _ & ->).
    exists (rest ++ events_of blocks).
    rewrite trace_fallback_result, trace_replay, <- app_assoc. reflexivity.
Qed.

Lemma apiCall_index :
  host_invariant s ->
  host_invariant (snd (apiCall w endpoint methodOrOptions bodyData s)).
Proof.
  intros [Hne Hb].
  destruct (apiCall_run w endpoint methodOrOptions bodyData s)
    as (evs0 & res & _ & _ & Hcall).
  destruct res as [data | e].
  - rewrite Hcall. split; [exact Hne |]. simpl. now rewrite currentApiIndex_replay.
  - destruct Hcall as (m & blocks & fin & _ & Hfb & ->).
    split; [exact Hne |]. destruct fin as [devUrl data |]; simpl.
    + destruct (fallback_run_promoted _ _ _ _ _ _ _ _ _ _ _ Hfb eq_refl) as (Hin & _).
      now apply indexOf_bounds.
    + now rewrite !currentApiIndex_replay.
Qed.

(** A call throws errors, never [undefined]. *)
Lemma apiCall_throws_error (e : Thrown) :
  fst (apiCall w endpoint methodOrOptions bodyData s) = Throw e -> exists m, e = JsError m.
Proof.
  intros Hcall.
  destruct (apiCall_run w endpoint methodOrOptions bodyData s)
    as (evs0 & res & _ & _ & Hres).
  destruct res as [data | e0]; [rewrite Hres in Hcall; discriminate |].
  destruct Hres as (m & blocks & fin & _ & _ & Hres).
  rewrite Hres in Hcall. destruct fin; [discriminate |].
  injection Hcall as <-. eauto.
Qed.

End Calls.

(** ** The health check *)

Lemma checkServerHealth_health_of (w : World) (s : State) :
  let url := JsString.template (API_BASE_URL s) +:+ "/debug/test" in
  checkServerHealth w s
  = (Ok (health_of w (fetch w (issued s) url)),
     after_fetch url debug_test_options 8000 (fetch w (issued s) url) s).
Proof.
  cbv zeta. unfold checkServerHealth, try_catch, bind, get_state, fetch_with_timeout,
    health_of, after_fetch.
  destruct (fetch w (issued s) _) as [r | m |]; try reflexivity.
  destruct (ok r); [| reflexivity].
  unfold response_json, bind, response_text, json_parse.
  destruct (body r) as [text | m]; [| reflexivity].
  cbn [ret]. destruct (JSON_parse w text) as [data | m]; reflexivity.
Qed.

(** ** The two halves of the host pointer agree *)

Lemma probe_from_coherent (w : World) (urls : list string) :
  forall (i : Z) (s : State),
    0 <= i ->
    (forall (k : nat) (testUrl : string),
        urls !! k = Some testUrl ->
        array_get DEVELOPMENT_API_URLS (i + Z.of_nat k) = Some testUrl) ->
    pointer_coherent s ->
    pointer_coherent (snd (probe_from w i urls s)).
Proof.
  induction urls as [| testUrl rest IH]; intros i s Hi Hurls Hco; [exact Hco |].
  assert (Hrest : forall (k : nat) (u : string),
             rest !! k = Some u ->
             array_get DEVELOPMENT_API_URLS (i + 1 + Z.of_nat k) = Some u).
  { intros k u Hk. replace (i + 1 + Z.of_nat k) with (i + Z.of_nat (S k)) by lia.
    apply Hurls. exact Hk. }
  simpl probe_from.
  unfold bind at 1, try_catch, bind at 1, fetch_with_timeout.
  destruct (fetch w (issued s) (testUrl +:+ "/debug/test")) as [r | m |].
  - destruct (ok r).
    + cbn [set_current modify bind ret snd]. split; [| now exists testUrl].
      cbn [API_BASE_URL currentApiIndex]. symmetry.
      replace i with (i + Z.of_nat 0) by lia. now apply Hurls.
    + cbn [ret message_of bind]. apply IH; [lia | exact Hrest | exact Hco].
  - cbn [ret message_of bind]. apply IH; [lia | exact Hrest | exact Hco].
  - cbn [ret message_of bind]. apply IH; [lia | exact Hrest | exact Hco].
Qed.

(** The pointer is coherent when the module is loaded and stays so under
    every operation that assigns it. *)
Lemma pointer_stays_coherent (w : World) (endpoint : string)
    (methodOrOptions : MethodOrOptions) (bodyData : option Data) (s : State) :
  host_invariant s ->
  pointer_coherent s ->
  pointer_coherent (snd (testMultipleIPs w s))
  /\ pointer_coherent (snd (apiCall w endpoint methodOrOptions bodyData s))
  /\ pointer_coherent (snd (switchToNextApiUrl s)).
Proof.
  intros [_ Hb] Hco. split; [| split].
  - apply probe_from_coherent; [lia | | exact Hco].
    intros k u Hk. unfold array_get. rewrite Z.add_0_l.
    destruct (Z.of_nat k <? 0) eqn:Hneg; [apply Z.ltb_lt in Hneg; lia |].
    now rewrite Nat2Z.id.
  - destruct (apiCall_run w endpoint methodOrOptions bodyData s)
      as (evs0 & res & _ & _ & Hcall).
    destruct res as [data | e].
    + rewrite Hcall. unfold pointer_coherent. cbn [snd].
      now rewrite API_BASE_URL_replay, currentApiIndex_replay.
    + destruct Hcall as (m & blocks & fin & _ & Hfb & ->).
      destruct fin as [devUrl data |]; cbn [fallback_result snd].
      * destruct (fallback_run_promoted _ _ _ _ _ _ _ _ _ _ _ Hfb eq_refl) as (Hin & _).
        split; [| now exists devUrl].
        cbn [promote API_BASE_URL currentApiIndex]. symmetry.
        now apply array_get_indexOf.
      * unfold pointer_coherent.
        now rewrite !API_BASE_URL_replay, !currentApiIndex_replay.
  - unfold switchToNextApiUrl, bind, get_state.
    destruct (currentApiIndex s <? Z.of_nat (length DEVELOPMENT_API_URLS) - 1) eqn:Hlt;
      [| exact Hco].
    apply Z.ltb_lt in Hlt. cbn [set_current modify bind ret snd].
    split; [reflexivity |]. cbn [API_BASE_URL].
    unfold array_get.
    destruct (currentApiIndex s + 1 <? 0) eqn:Hneg; [apply Z.ltb_lt in Hneg; lia |].
    apply lookup_lt_is_Some_2. lia.
Qed.

Lemma initial_state_coherent (store : gmap string string) :
  pointer_coherent (initial_state store).
Proof. split; [reflexivity | now eexists]. Qed.

(** * The specification, claim by claim *)

(** ** C6: a host that always answers 500 *)




(** ** C3: bodies that are not JSON *)

(** C3, as stated, fails.  The first answer of the host has a body that
    [JSON.parse] rejects; the loop pauses and asks again, twice, where the
    claim has it stop after the first answer. *)
Lemma parse_failure_counterexample :
  JSON_parse Scenario.malformed "<" = inr (Scenario.unexpected "<" "<")
  /\ fst (makeApiRequest Scenario.malformed Scenario.host1 "/listing/get"
            (IsString "GET") None Scenario.signed_out)
     = Throw (JsError ("Invalid JSON response: " +:+ Scenario.unexpected "<" "<"))
  /\ trace (snd (makeApiRequest Scenario.malformed Scenario.host1 "/listing/get"
                   (IsString "GET") None Scenario.signed_out))
     = [EFetch "http://192.168.100.46:3000/api/listing/get" (Scenario.get None) 10000
          (Scenario.reply 200 Scenario.json_type "<");
        ESleep 1000;
        EFetch "http://192.168.100.46:3000/api/listing/get" (Scenario.get None) 10000
          (Scenario.reply 200 Scenario.json_type "<");
        ESleep 2000;
        EFetch "http://192.168.100.46:3000/api/listing/get" (Scenario.get None) 10000
          (Scenario.reply 200 Scenario.json_type "<")].
Proof. repeat split; vm_compute; reflexivity. Qed.

(** C3, amended.  Let the request be one that can be built.  A body that
    fails to parse is retried like any other failure: against a host
    whose [n]-th answer has a body [JSON.parse] rejects with the message
    [message n], none of these messages holding "Authentication failed"
    or "not found", [makeApiRequest] makes three requests with pauses of
    1000 ms and 2000 ms and throws "Invalid JSON response: " followed by
    the parser's message for the third answer.  A blank body is not parsed
    at all: it stands for the empty object, so a 2xx answer with a blank
    body is returned as [{}] after one request.  And when the parser's
    message for the first answer does hold one of the two texts, the loop
    stops after that one request. *)
Theorem parse_failure_is_retried (w : World) (baseUrl endpoint : string)
    (methodOrOptions : MethodOrOptions) (bodyData : option Data) (s : State)
    (options : FetchOptions) (message : nat -> string) :
  let url := baseUrl +:+ endpoint in
  let request n := EFetch url options TIMEOUT_MS (fetch w n url) in
  built w methodOrOptions bodyData s = Ok options ->
  ((forall n, exists r text,
       fetch w n url = Responded r /\ html_reply r = false
       /\ body r = BodyText text /\ JsString.blank text = false
       /\ JSON_parse w text = inr (message n)
       /\ gives_up ("Invalid JSON response: " +:+ message n) = false) ->
   exists s',
     makeApiRequest w baseUrl endpoint methodOrOptions bodyData s
     = (Throw (JsError ("Invalid JSON response: " +:+ message (S (S (issued s))))), s')
     /\ trace s' = trace s ++ [request (issued s); ESleep 1000;
                               request (S (issued s)); ESleep 2000;
                               request (S (S (issued s)))])
  /\ (forall r text,
        fetch w (issued s) url = Responded r -> html_reply r = false ->
        body r = BodyText text -> JsString.blank text = true -> ok r = true ->
        exists s',
          makeApiRequest w baseUrl endpoint methodOrOptions bodyData s
          = (Ok (JObject []), s')
          /\ trace s' = trace s ++ [request (issued s)])
  /\ (forall r text m,
        fetch w (issued s) url = Responded r -> html_reply r = false ->
        body r = BodyText text -> JsString.blank text = false ->
        JSON_parse w text = inr m ->
        gives_up ("Invalid JSON response: " +:+ m) = true ->
        exists s',
          makeApiRequest w baseUrl endpoint methodOrOptions bodyData s
          = (Throw (JsError ("Invalid JSON response: " +:+ m)), s')
          /\ trace s' = trace s ++ [request (issued s)]).
Proof.
  intros url request Hb. split; [| split].
  - intros H.
    assert (Hv : forall n,
               verdict w baseUrl (fetch w n url)
               = Failure ("Invalid JSON response: " +:+ message n)
               /\ gives_up ("Invalid JSON response: " +:+ message n) = false).
    { intros n. destruct (H n) as (r & text & -> & Hh & Hbody & Hbl & Hp & Hg).
      split; [| exact Hg].
      apply verdict_parse_failure; [exact Hh |].
      rewrite (parsed_body_text w r text Hbody), Hbl. exact Hp. }
    destruct (Hv (issued s)) as (Hv1 & Hg1).
    destruct (Hv (S (issued s))) as (Hv2 & Hg2).
    destruct (Hv (S (S (issued s)))) as (Hv3 & _).
    eexists. split.
    + eapply makeApiRequest_three_failures; eauto.
    + apply trace_replay.
  - intros r text Hf Hh Hbody Hbl Hok.
    eexists. split.
    + apply (makeApiRequest_first_success w baseUrl endpoint methodOrOptions bodyData s
               options Hb).
      fold url. rewrite Hf. eapply verdict_blank_ok; eauto.
    + reflexivity.
  - intros r text m Hf Hh Hbody Hbl Hp Hg.
    eexists. split.
    + apply (makeApiRequest_first_stop w baseUrl endpoint methodOrOptions bodyData s
               options Hb); [| exact Hg].
      fold url. rewrite Hf. apply verdict_parse_failure; [exact Hh |].
      rewrite (parsed_body_text w r text Hbody), Hbl. exact Hp.
    + reflexivity.
Qed.

Lemma parse_failure_is_retried_witness :
  (exists s',
     makeApiRequest Scenario.malformed Scenario.host1 "/listing/get" (IsString "GET") None
       Scenario.signed_out
     = (Throw (JsError ("Invalid JSON response: " +:+ Scenario.unexpected "<" "<")), s')
     /\ trace s'
        = [EFetch "http://192.168.100.46:3000/api/listing/get" (Scenario.get None) 10000
             (Scenario.reply 200 Scenario.json_type "<");
           ESleep 1000;
           EFetch "http://192.168.100.46:3000/api/listing/get" (Scenario.get None) 10000
             (Scenario.reply 200 Scenario.json_type "<");
           ESleep 2000;
           EFetch "http://192.168.100.46:3000/api/listing/get" (Scenario.get None) 10000
             (Scenario.reply 200 Scenario.json_type "<")])
  /\ (exists s',
        makeApiRequest Scenario.no_content Scenario.host1 "/auth/signout" (IsString "GET")
          None Scenario.signed_out
        = (Ok (JObject []), s')
        /\ trace s'
           = [EFetch "http://192.168.100.46:3000/api/auth/signout" (Scenario.get None) 10000
                (Scenario.reply 204 None EmptyString)])
  /\ exists s',
       makeApiRequest Scenario.error_500_plain_text Scenario.host1 "/listing/get"
         (IsString "GET") None Scenario.signed_out
       = (Throw (JsError ("Invalid JSON response: "
                          +:+ Scenario.unexpected "o" "not found")), s')
       /\ trace s'
          = [EFetch "http://192.168.100.46:3000/api/listing/get" (Scenario.get None) 10000
               (Scenario.reply 500 Scenario.text_type "not found")].
Proof.
  split; [| split].
  - apply (proj1 (parse_failure_is_retried Scenario.malformed Scenario.host1
                    "/listing/get" (IsString "GET") None Scenario.signed_out
                    (Scenario.get None) (fun _ => Scenario.unexpected "<" "<") eq_refl)).
    intros n. exists {| status := 200; content_type := Scenario.json_type;
                        body := BodyText "<" |}, "<".
    repeat split; reflexivity.
  - apply (proj1 (proj2 (parse_failure_is_retried Scenario.no_content Scenario.host1
                           "/auth/signout" (IsString "GET") None Scenario.signed_out
                           (Scenario.get None) (fun _ => EmptyString) eq_refl))
             {| status := 204; content_type := None; body := BodyText EmptyString |}
             EmptyString); reflexivity.
  - apply (proj2 (proj2 (parse_failure_is_retried Scenario.error_500_plain_text
                           Scenario.host1 "/listing/get" (IsString "GET") None
                           Scenario.signed_out (Scenario.get None)
                           (fun _ => EmptyString) eq_refl))
             {| status := 500; content_type := Scenario.text_type;
                body := BodyText "not found" |}
             "not found" (Scenario.unexpected "o" "not found")); reflexivity.
Defined.

(** ** C4: HTML error pages *)

(** C4, as stated, fails.  The host answers with an HTML page; the loop
    pauses and asks again, twice, where the claim has it stop after the
    first answer. *)
Lemma html_page_counterexample :
  fst (makeApiRequest Scenario.html_page Scenario.host1 "/listing/get" (IsString "GET")
         None Scenario.signed_out)
  = Throw (JsError "❌ Server returned HTML error page. Check if API server is running at http://192.168.100.46:3000/api")
  /\ trace (snd (makeApiRequest Scenario.html_page Scenario.host1 "/listing/get"
                   (IsString "GET") None Scenario.signed_out))
     = [EFetch "http://192.168.100.46:3000/api/listing/get" (Scenario.get None) 10000
          (Scenario.reply 502 Scenario.html_type "<html></html>");
        ESleep 1000;
        EFetch "http://192.168.100.46:3000/api/listing/get" (Scenario.get None) 10000
          (Scenario.reply 502 Scenario.html_type "<html></html>");
        ESleep 2000;
        EFetch "http://192.168.100.46:3000/api/listing/get" (Scenario.get None) 10000
          (Scenario.reply 502 Scenario.html_type "<html></html>")].
Proof. repeat split; vm_compute; reflexivity. Qed.

(** C4, amended.  An HTML answer is retried like any other failure:
    against a configured host whose every answer has a content type
    holding "text/html", [makeApiRequest], with a request that can be
    built, makes three requests with pauses of 1000 ms and 2000 ms and
    then throws the HTML-error-page message. *)
Theorem html_reply_is_retried (w : World) (baseUrl endpoint : string)
    (methodOrOptions : MethodOrOptions) (bodyData : option Data) (s : State)
    (options : FetchOptions) :
  let url := baseUrl +:+ endpoint in
  let request n := EFetch url options TIMEOUT_MS (fetch w n url) in
  built w methodOrOptions bodyData s = Ok options ->
  In baseUrl DEVELOPMENT_API_URLS ->
  (forall n, exists r, fetch w n url = Responded r /\ html_reply r = true) ->
  exists s',
    makeApiRequest w baseUrl endpoint methodOrOptions bodyData s
    = (Throw (JsError ("❌ Server returned HTML error page. Check if API server is running at "
                       +:+ baseUrl)), s')
    /\ trace s' = trace s ++ [request (issued s); ESleep 1000;
                              request (S (issued s)); ESleep 2000;
                              request (S (S (issued s)))].
Proof.
  intros url request Hb Hin H.
  assert (Hv : forall n, verdict w baseUrl (fetch w n url) = Failure (html_message baseUrl)).
  { intros n. destruct (H n) as (r & -> & Hh). now apply verdict_html. }
  pose proof (gives_up_html_message baseUrl Hin) as Hg.
  eexists. split.
  - apply (makeApiRequest_three_failures w baseUrl endpoint methodOrOptions bodyData s
             options (html_message baseUrl) (html_message baseUrl)); auto.
  - apply trace_replay.
Qed.

Lemma html_reply_is_retried_witness :
  exists s',
    makeApiRequest Scenario.html_page Scenario.host2 "/listing/get" (IsString "GET") None
      Scenario.signed_out
    = (Throw (JsError ("❌ Server returned HTML error page. Check if API server is running at "
                       +:+ Scenario.host2)), s')
    /\ trace s'
       = [EFetch "http://192.168.100.1:3000/api/listing/get" (Scenario.get None) 10000
            (Scenario.reply 502 Scenario.html_type "<html></html>");
          ESleep 1000;
          EFetch "http://192.168.100.1:3000/api/listing/get" (Scenario.get None) 10000
            (Scenario.reply 502 Scenario.html_type "<html></html>");
          ESleep 2000;
          EFetch "http://192.168.100.1:3000/api/listing/get" (Scenario.get None) 10000
            (Scenario.reply 502 Scenario.html_type "<html></html>")].
Proof.
  apply (html_reply_is_retried Scenario.html_page Scenario.host2 "/listing/get"
           (IsString "GET") None Scenario.signed_out (Scenario.get None)).
  - reflexivity.
  - right. left. reflexivity.
  - intros n. eexists. split; reflexivity.
Defined.

(** ** C1: the fallback loop *)

(** C1, as stated, fails.  Every host answers 500.  After the current host
    has used its three attempts, each of the two other hosts is asked three
    times as well, where the claim has one request per alternate host. *)
Lemma fallback_counterexample :
  fst (apiCall Scenario.all_500 "/listing/get" IsUndefined None Scenario.signed_out)
  = Throw (JsError "API call failed: Server internal error. Tried 3 endpoints.")
  /\ requests (trace (snd (apiCall Scenario.all_500 "/listing/get" IsUndefined None
                             Scenario.signed_out)))
     = [ "http://192.168.100.46:3000/api/listing/get";
         "http://192.168.100.46:3000/api/listing/get";
         "http://192.168.100.46:3000/api/listing/get";
         "http://192.168.100.1:3000/api/listing/get";
         "http://192.168.100.1:3000/api/listing/get";
         "http://192.168.100.1:3000/api/listing/get";
         "http://localhost:3000/api/listing/get";
         "http://localhost:3000/api/listing/get";
         "http://localhost:3000/api/listing/get" ].
Proof. split; vm_compute; reflexivity. Qed.

(** C1, amended.  When the call of [makeApiRequest] on the current host
    fails, [apiCall] goes through the other configured hosts (the one just
    tried left out) in their configured order and calls [makeApiRequest]
    on each in turn, the same procedure with the same arguments as on the
    current host, retries included, until a call returns: the events of
    the fallback are, host by host, exactly the events of that call in the
    state the previous one left.  Each such call makes at most
    [MAX_RETRIES] requests, all to its host: at least one if the request
    can be built, and none if building it throws.  The result of the call
    that returned is the result of [apiCall]; when [apiCall] throws,
    every other host has been tried. *)
Theorem fallback_runs_retry_loop_per_host (w : World) (endpoint : string)
    (methodOrOptions : MethodOrOptions) (bodyData : option Data) (s : State)
    (e : Thrown) :
  let given := or_default methodOrOptions in
  let first :=
    makeApiRequest w (JsString.template (API_BASE_URL s)) endpoint given bodyData s in
  let call := apiCall w endpoint methodOrOptions bodyData s in
  fst first = Throw e ->
  exists (blocks : list (string * list Event)) (rest : list string) (fin : FallbackEnd),
    other_hosts (API_BASE_URL s) = map fst blocks ++ rest
    /\ trace (snd call) = trace (snd first) ++ events_of blocks
    /\ per_host_runs w endpoint given bodyData (snd first) blocks fin
    /\ Forall (fun b => exists k : nat,
                 (k <= Z.to_nat MAX_RETRIES)%nat
                 /\ requests (snd b) = replicate k (fst b +:+ endpoint)
                 /\ if buildable w given bodyData s then (1 <= k)%nat
                    else snd b = []) blocks
    /\ match fin with
       | Promoted devUrl data => fst call = Ok data
       | Exhausted => rest = [] /\ exists e', fst call = Throw e'
       end.
Proof.
  intros given first call Hfirst.
  destruct (apiCall_run w endpoint methodOrOptions bodyData s)
    as (evs & res & Hrun & Heq & Hcall).
  fold given in Hrun, Heq, Hcall. fold first in Heq.
  rewrite Heq in Hfirst |- *. cbn [fst snd] in *. subst res.
  destruct Hcall as (m & blocks & fin & -> & Hfb & Hcall).
  destruct (fallback_run_per_host _ _ _ _ _ _ _ _ _ Hfb) as (Hper & rest & Ho & Hfin).
  pose proof (fallback_run_blocks _ _ _ _ _ _ _ _ _ Hfb) as Hblocks.
  rewrite (request_run_buildable _ _ _ _ _ _ _ _ Hrun) in Hblocks.
  exists blocks, rest, fin. unfold call. rewrite Hcall.
  split; [exact Ho |]. split; [apply trace_fallback_result |].
  split; [exact Hper |]. split; [exact Hblocks |].
  destruct fin as [devUrl data |]; cbn [fallback_result fst]; eauto.
Qed.

Lemma fallback_runs_retry_loop_per_host_witness :
  exists (blocks : list (string * list Event)) (rest : list string) (fin : FallbackEnd),
    other_hosts (API_BASE_URL Scenario.signed_in) = map fst blocks ++ rest
    /\ trace (snd (apiCall Scenario.all_500 "/listing/get" IsUndefined None
                     Scenario.signed_in))
       = trace (snd (makeApiRequest Scenario.all_500
                       (JsString.template (API_BASE_URL Scenario.signed_in))
                       "/listing/get" (or_default IsUndefined) None Scenario.signed_in))
         ++ events_of blocks
    /\ per_host_runs Scenario.all_500 "/listing/get" (or_default IsUndefined) None
         (snd (makeApiRequest Scenario.all_500
                 (JsString.template (API_BASE_URL Scenario.signed_in))
                 "/listing/get" (or_default IsUndefined) None Scenario.signed_in))
         blocks fin
    /\ Forall (fun b => exists k : nat,
                 (k <= Z.to_nat MAX_RETRIES)%nat
                 /\ requests (snd b) = replicate k (fst b +:+ "/listing/get")
                 /\ if buildable Scenario.all_500 (or_default IsUndefined) None
                         Scenario.signed_in
                    then (1 <= k)%nat else snd b = []) blocks
    /\ match fin with
       | Promoted devUrl data =>
           fst (apiCall Scenario.all_500 "/listing/get" IsUndefined None Scenario.signed_in)
           = Ok data
       | Exhausted =>
           rest = []
           /\ exists e',
                fst (apiCall Scenario.all_500 "/listing/get" IsUndefined None
                       Scenario.signed_in) = Throw e'
       end.
Proof.
  apply (fallback_runs_retry_loop_per_host Scenario.all_500 "/listing/get" IsUndefined None
           Scenario.signed_in (JsError "Server internal error")).
  vm_compute. reflexivity.
Defined.

(** The fallback of that call, host by host: each of the two other hosts
    gets the three requests and the two pauses of a full run of
    [makeApiRequest]. *)
Example fallback_blocks :
  let get := Scenario.get (Some "Bearer t0k3n") in
  let answer := Scenario.reply 500 Scenario.json_type "{}" in
  let block host :=
    (host, [EFetch (host +:+ "/listing/get") get 10000 answer; ESleep 1000;
            EFetch (host +:+ "/listing/get") get 10000 answer; ESleep 2000;
            EFetch (host +:+ "/listing/get") get 10000 answer]) in
  let first :=
    makeApiRequest Scenario.all_500 Scenario.host1 "/listing/get" (or_default IsUndefined)
      None Scenario.signed_in in
  trace (snd (apiCall Scenario.all_500 "/listing/get" IsUndefined None Scenario.signed_in))
  = trace (snd first) ++ events_of [block Scenario.host2; block Scenario.host3]
  /\ makeApiRequest Scenario.all_500 Scenario.host2 "/listing/get" (or_default IsUndefined)
       None (snd first)
     = (Throw (JsError "Server internal error"),
        replay (snd (block Scenario.host2)) (snd first)).
Proof. split; vm_compute; reflexivity. Qed.

(** A call whose request cannot be built: the stored token does not
    convert to a string, [makeApiRequest] throws on every host before it
    sends anything, and the call fails without a single request. *)
Example fallback_without_requests :
  apiCall Scenario.all_500 "/listing/get" IsUndefined None Scenario.signed_in_oddly
  = (Throw (JsError "API call failed: Cannot convert object to primitive value. Tried 3 endpoints."),
     Scenario.signed_in_oddly).
Proof. vm_compute. reflexivity. Qed.

(** ** C2: a 401 *)

(** C2, as stated, fails.  A user is signed in; the current host answers
    401, the next one 200.  The user record is removed, but the call goes
    on to the next host (now without the token) and returns its answer:
    it neither fails nor stops falling back. *)
Lemma unauthorized_counterexample :
  fst (apiCall Scenario.unauthorized_then_ok "/listing/get" IsUndefined None
         Scenario.signed_in)
  = Ok (JObject [])
  /\ trace (snd (apiCall Scenario.unauthorized_then_ok "/listing/get" IsUndefined None
                   Scenario.signed_in))
     = [EFetch "http://192.168.100.46:3000/api/listing/get"
          (Scenario.get (Some "Bearer t0k3n")) 10000
          (Scenario.reply 401 Scenario.json_type "{}");
        ERemoveItem "user";
        EFetch "http://192.168.100.1:3000/api/listing/get" (Scenario.get None) 10000
          (Scenario.reply 200 Scenario.json_type "{}")]
  /\ API_BASE_URL (snd (apiCall Scenario.unauthorized_then_ok "/listing/get" IsUndefined
                          None Scenario.signed_in))
     = Some "http://192.168.100.1:3000/api".
Proof. repeat split; vm_compute; reflexivity. Qed.

(** A 401 that comes as an HTML page does not get as far as the status
    test: the user record stays and the request is retried. *)
Example unauthorized_html_keeps_user :
  let w := Scenario.world (fun _ => Scenario.reply 401 Scenario.html_type "<html></html>") in
  let s' := snd (makeApiRequest w Scenario.host1 "/listing/get" (IsString "GET") None
                   Scenario.signed_in) in
  AsyncStorage s' !! "user" = Some Scenario.user_record
  /\ requests (trace s')
     = [ "http://192.168.100.46:3000/api/listing/get";
         "http://192.168.100.46:3000/api/listing/get";
         "http://192.168.100.46:3000/api/listing/get" ].
Proof. split; vm_compute; reflexivity. Qed.

(** C2, amended.  Take a 401 answer that gets as far as the status test
    (not an HTML page, with a body that is blank or parses).  In a run of
    [makeApiRequest], whichever attempt receives it, the removal of the
    user record is the one effect that follows: no further attempt is made
    against that host, the run throws "Authentication failed" and the
    record is gone.  In a call of [apiCall], whichever request receives
    it, the user record is gone when the call ends.  (The call itself goes
    on to the remaining hosts.) *)
Theorem unauthorized_removes_user_and_stops_retries (w : World) (endpoint : string)
    (methodOrOptions : MethodOrOptions) (bodyData : option Data)
    (s : State) (u : string) (b : FetchOptions) (t : Z) (r : Response) :
  status r = 401 ->
  is_json_reply w r = true ->
  (forall baseUrl pre post,
      trace (snd (makeApiRequest w baseUrl endpoint methodOrOptions bodyData s))
      = trace s ++ pre ++ EFetch u b t (Responded r) :: post ->
      post = [ERemoveItem "user"]
      /\ fst (makeApiRequest w baseUrl endpoint methodOrOptions bodyData s)
         = Throw (JsError "Authentication failed")
      /\ AsyncStorage (snd (makeApiRequest w baseUrl endpoint methodOrOptions bodyData s))
         !! "user" = None)
  /\ (forall evs,
        trace (snd (apiCall w endpoint methodOrOptions bodyData s)) = trace s ++ evs ->
        In (EFetch u b t (Responded r)) evs ->
        AsyncStorage (snd (apiCall w endpoint methodOrOptions bodyData s)) !! "user" = None).
Proof.
  intros Hst Hj.
  assert (Hun : unauthorized_reply w (Responded r) = true).
  { simpl. rewrite Hj, Hst. reflexivity. }
  split.
  - intros baseUrl pre post Htr.
    destruct (makeApiRequest_run w endpoint methodOrOptions bodyData baseUrl s)
      as (evs & res & Heq & Hrun).
    rewrite Heq in *. cbn [fst snd] in *. rewrite trace_replay in Htr.
    apply app_inv_head in Htr.
    destruct (request_run_unauthorized_last _ _ _ _ _ _ _ _ _ _ _ _ _ _ Hrun Htr Hun)
      as [Hpost Hres].
    repeat split; try assumption.
    eapply request_run_unauthorized_storage; eauto.
    rewrite Htr. apply in_or_app. right. now left.
  - intros evs Htr Hin.
    destruct (apiCall_run w endpoint methodOrOptions bodyData s)
      as (evs0 & res & Hrun & _ & Hcall).
    destruct res as [data | e].
    + rewrite Hcall in *. cbn [fst snd] in *. rewrite trace_replay in Htr.
      apply app_inv_head in Htr. subst evs0.
      eapply request_run_unauthorized_storage; eauto.
    + destruct Hcall as (m & blocks & fin & -> & Hfb & Hcall).
      rewrite Hcall in *.
      rewrite trace_fallback_result, trace_replay, <- app_assoc in Htr.
      apply app_inv_head in Htr. subst evs.
      rewrite AsyncStorage_fallback_result.
      apply in_app_or in Hin as [Hin | Hin].
      * apply storage_replay_None. eapply request_run_unauthorized_storage; eauto.
      * eapply fallback_run_unauthorized_storage; eauto.
Qed.

Lemma unauthorized_removes_user_and_stops_retries_witness :
  (fst (makeApiRequest Scenario.unauthorized_then_ok Scenario.host1 "/listing/get"
          (IsString "GET") None Scenario.signed_in)
   = Throw (JsError "Authentication failed")
   /\ AsyncStorage (snd (makeApiRequest Scenario.unauthorized_then_ok Scenario.host1
                           "/listing/get" (IsString "GET") None Scenario.signed_in))
      !! "user" = None)
  /\ AsyncStorage (snd (apiCall Scenario.unauthorized_then_ok "/listing/get"
                          (IsString "GET") None Scenario.signed_in)) !! "user" = None.
Proof.
  pose (r := {| status := 401; content_type := Scenario.json_type; body := BodyText "{}" |}).
  destruct (unauthorized_removes_user_and_stops_retries
              Scenario.unauthorized_then_ok "/listing/get" (IsString "GET") None
              Scenario.signed_in
              "http://192.168.100.46:3000/api/listing/get"
              (Scenario.get (Some "Bearer t0k3n")) 10000 r
              eq_refl eq_refl) as [Hrun Hcall].
  split.
  - apply (Hrun Scenario.host1 [] [ERemoveItem "user"]). vm_compute. reflexivity.
  - apply (Hcall [EFetch "http://192.168.100.46:3000/api/listing/get"
                    (Scenario.get (Some "Bearer t0k3n")) 10000 (Responded r);
                  ERemoveItem "user";
                  EFetch "http://192.168.100.1:3000/api/listing/get" (Scenario.get None)
                    10000 (Scenario.reply 200 Scenario.json_type "{}")]).
    + vm_compute. reflexivity.
    + left. reflexivity.
Defined.

(** ** C7: the host pointer stays in bounds *)

Lemma initial_state_invariant (store : gmap string string) :
  host_invariant (initial_state store).
Proof. split; [discriminate | simpl; lia]. Qed.

(** C7.  The host list is not empty, and whenever [currentApiIndex] is an
    index into it, it still is after each of the operations that assign
    it: the host-discovery probe [testMultipleIPs], a call of [apiCall]
    (which assigns it on a successful fallback) and [switchToNextApiUrl]. *)
Theorem host_index_stays_in_bounds (w : World) (endpoint : string)
    (methodOrOptions : MethodOrOptions) (bodyData : option Data) (s : State) :
  host_invariant s ->
  host_invariant (snd (testMultipleIPs w s))
  /\ host_invariant (snd (apiCall w endpoint methodOrOptions bodyData s))
  /\ host_invariant (snd (switchToNextApiUrl s)).
Proof.
  intros Hinv. split; [| split].
  - apply probe_from_index; [lia | simpl; lia | exact Hinv].
  - apply (apiCall_index w endpoint methodOrOptions bodyData s Hinv).
  - apply (switchToNextApiUrl_index s Hinv).
Qed.

Lemma host_index_stays_in_bounds_witness :
  host_invariant (snd (testMultipleIPs Scenario.first_down Scenario.signed_out))
  /\ host_invariant (snd (apiCall Scenario.first_down "/listing/get" IsUndefined None
                            Scenario.signed_out))
  /\ host_invariant (snd (switchToNextApiUrl Scenario.signed_out)).
Proof.
  apply (host_index_stays_in_bounds Scenario.first_down "/listing/get" IsUndefined None
           Scenario.signed_out).
  split; [discriminate | simpl; lia].
Defined.

(** What the three operations do to the pointer in that world: the probe
    and the call move it to the second host, the switch as well. *)
Example host_index_after_operations :
  currentApiIndex (snd (testMultipleIPs Scenario.first_down Scenario.signed_out)) = 1
  /\ currentApiIndex (snd (apiCall Scenario.first_down "/listing/get" IsUndefined None
                             Scenario.signed_out)) = 1
  /\ currentApiIndex (snd (switchToNextApiUrl Scenario.signed_out)) = 1
  /\ fst (switchToNextApiUrl
            (snd (switchToNextApiUrl (snd (switchToNextApiUrl Scenario.signed_out)))))
     = Ok None.
Proof. repeat split; vm_compute; reflexivity. Qed.

(** ** C8: a successful fallback moves the host pointer *)

(** C8.  If the call against the current host fails and the call as a
    whole returns, then some other configured host gave the good answer
    the call ended with; after the call [API_BASE_URL] is that host and
    [currentApiIndex] is its place in the host list, so that the next
    call, whatever request it builds, sends its first request to it. *)
Theorem successful_fallback_promotes_host (w : World) (endpoint : string)
    (methodOrOptions : MethodOrOptions) (bodyData : option Data) (s : State)
    (e : Thrown) (data : JSON) :
  let first :=
    makeApiRequest w (JsString.template (API_BASE_URL s)) endpoint
      (or_default methodOrOptions) bodyData s in
  let s' := snd (apiCall w endpoint methodOrOptions bodyData s) in
  fst first = Throw e ->
  fst (apiCall w endpoint methodOrOptions bodyData s) = Ok data ->
  exists devUrl b r,
    In devUrl DEVELOPMENT_API_URLS
    /\ API_BASE_URL s <> Some devUrl
    /\ last (trace s') = Some (EFetch (devUrl +:+ endpoint) b TIMEOUT_MS (Responded r))
    /\ ok r = true
    /\ API_BASE_URL s' = Some devUrl
    /\ array_get DEVELOPMENT_API_URLS (currentApiIndex s') = Some devUrl
    /\ forall w' endpoint' methodOrOptions' bodyData' options',
         built w' (or_default methodOrOptions') bodyData' s' = Ok options' ->
         exists evs,
           trace (snd (apiCall w' endpoint' methodOrOptions' bodyData' s'))
           = trace s' ++ EFetch (devUrl +:+ endpoint') options' TIMEOUT_MS
                           (fetch w' (issued s') (devUrl +:+ endpoint')) :: evs.
Proof.
  intros first s' Hfirst Hcall.
  destruct (apiCall_run w endpoint methodOrOptions bodyData s)
    as (evs0 & res & _ & Heq & Hrun).
  fold first in Heq. rewrite Heq in Hfirst. cbn [fst] in Hfirst. subst res.
  destruct Hrun as (m & blocks & fin & _ & Hfb & Hres).
  unfold s'. rewrite Hres in Hcall |- *. clear s'.
  destruct fin as [devUrl data' |]; [| discriminate].
  destruct (fallback_run_promoted _ _ _ _ _ _ _ _ _ _ _ Hfb eq_refl)
    as (Hin & Hsame & pre & b & r & Hev & Hok & _).
  exists devUrl, b, r. cbn [fallback_result snd].
  split; [exact Hin |]. split; [now apply same_url_false |].
  split; [rewrite trace_promote, trace_replay, Hev, app_assoc; apply last_snoc |].
  split; [exact Hok |]. split; [reflexivity |].
  split; [now apply array_get_indexOf |].
  intros w' endpoint' methodOrOptions' bodyData' options' Hb.
  apply (apiCall_first_request w' endpoint' methodOrOptions' bodyData'
           (promote devUrl (replay (events_of blocks) (replay evs0 s))) options' Hb).
Qed.

Lemma successful_fallback_promotes_host_witness :
  exists devUrl b r,
    In devUrl DEVELOPMENT_API_URLS
    /\ API_BASE_URL Scenario.signed_out <> Some devUrl
    /\ last (trace (snd (apiCall Scenario.first_down "/listing/get" IsUndefined None
                           Scenario.signed_out)))
       = Some (EFetch (devUrl +:+ "/listing/get") b TIMEOUT_MS (Responded r))
    /\ ok r = true
    /\ API_BASE_URL (snd (apiCall Scenario.first_down "/listing/get" IsUndefined None
                            Scenario.signed_out))
       = Some devUrl
    /\ array_get DEVELOPMENT_API_URLS
         (currentApiIndex (snd (apiCall Scenario.first_down "/listing/get" IsUndefined None
                                  Scenario.signed_out)))
       = Some devUrl
    /\ forall w' endpoint' methodOrOptions' bodyData' options',
         built w' (or_default methodOrOptions') bodyData'
           (snd (apiCall Scenario.first_down "/listing/get" IsUndefined None
                   Scenario.signed_out))
         = Ok options' ->
         exists evs,
           trace (snd (apiCall w' endpoint' methodOrOptions' bodyData'
                         (snd (apiCall Scenario.first_down "/listing/get" IsUndefined None
                                 Scenario.signed_out))))
           = trace (snd (apiCall Scenario.first_down "/listing/get" IsUndefined None
                           Scenario.signed_out))
             ++ EFetch (devUrl +:+ endpoint') options' TIMEOUT_MS
                  (fetch w' (issued (snd (apiCall Scenario.first_down "/listing/get"
                                            IsUndefined None Scenario.signed_out)))
                     (devUrl +:+ endpoint')) :: evs.
Proof.
  apply (successful_fallback_promotes_host Scenario.first_down "/listing/get" IsUndefined
           None Scenario.signed_out (JsError "Request timeout") (JObject []));
    vm_compute; reflexivity.
Defined.

(** The same call, evaluated: the first host times out three times, the
    second answers, and the pointer is on the second host afterwards; the
    next call goes to the second host at once. *)
Example fallback_promotes_second_host :
  let s' := snd (apiCall Scenario.first_down "/listing/get" IsUndefined None
                   Scenario.signed_out) in
  fst (apiCall Scenario.first_down "/listing/get" IsUndefined None Scenario.signed_out)
  = Ok (JObject [])
  /\ requests (trace s')
     = [ "http://192.168.100.46:3000/api/listing/get";
         "http://192.168.100.46:3000/api/listing/get";
         "http://192.168.100.46:3000/api/listing/get";
         "http://192.168.100.1:3000/api/listing/get" ]
  /\ API_BASE_URL s' = Some "http://192.168.100.1:3000/api"
  /\ currentApiIndex s' = 1
  /\ requests (trace (snd (apiCall Scenario.first_down "/auth/signout" (IsString "GET") None
                             s')))
     = requests (trace s') ++ [ "http://192.168.100.1:3000/api/auth/signout" ].
Proof. repeat split; vm_compute; reflexivity. Qed.

(** ** C9: the health check *)

(** C9, as stated, fails.  The host answers the health check with
    204 No Content: a 2xx answer, yet [response.json()] rejects the empty
    body and the result is [healthy: false] with an error and no status. *)
Lemma health_check_counterexample :
  fetch Scenario.no_content 0 "http://192.168.100.46:3000/api/debug/test"
  = Scenario.reply 204 None EmptyString
  /\ ok {| status := 204; content_type := None; body := BodyText EmptyString |} = true
  /\ fst (checkServerHealth Scenario.no_content Scenario.signed_out)
     = Ok {| healthy := false; health_status := None; health_data := None;
             health_error := Some "Unexpected end of JSON input" |}.
Proof. repeat split; vm_compute; reflexivity. Qed.

(** C9, amended.  [checkServerHealth] never throws; it makes one request
    to [/debug/test] on the current host and resolves to
    [healthy: true] with the status and the payload on a 2xx answer whose
    body parses as JSON; to [healthy: false] with the status on an answer
    that is not 2xx; and to [healthy: false] with an error description
    when the host is unreachable or the request times out, and also when
    the body of a 2xx answer cannot be read or parsed. *)
Theorem checkServerHealth_never_throws (w : World) (s : State) :
  let url := JsString.template (API_BASE_URL s) +:+ "/debug/test" in
  let unhealthy message :=
    {| healthy := false; health_status := None; health_data := None;
       health_error := Some message |} in
  fst (checkServerHealth w s)
  = Ok match fetch w (issued s) url with
       | Responded r =>
           if ok r then
             match body r with
             | BodyText text =>
                 match JSON_parse w text with
                 | inl data =>
                     {| healthy := true; health_status := Some (status r);
                        health_data := Some data; health_error := None |}
                 | inr message => unhealthy message
                 end
             | BodyError message => unhealthy message
             end
           else
             {| healthy := false; health_status := Some (status r);
                health_data := None; health_error := None |}
       | Rejected message => unhealthy message
       | TimedOut => unhealthy "Request timeout"
       end
  /\ trace (snd (checkServerHealth w s))
     = trace s ++ [EFetch url debug_test_options 8000 (fetch w (issued s) url)].
Proof.
  cbv zeta. rewrite checkServerHealth_health_of. split; reflexivity.
Qed.

(** ** C10: what stops the retry loop early *)

(** C10, as stated, fails in its consequence.  The host answers 500 with
    the message "not found".  The message field matches the test of the
    loop, but a 500 is thrown as "Server internal error" whatever the body
    says, and the request is retried twice. *)
Lemma message_not_found_counterexample :
  JSON_parse Scenario.error_500_not_found Scenario.not_found_body
  = inl (JObject [("message", JString "not found")])
  /\ gives_up "not found" = true
  /\ fst (makeApiRequest Scenario.error_500_not_found Scenario.host1 "/listing/get"
            (IsString "GET") None Scenario.signed_out)
     = Throw (JsError "Server internal error")
  /\ trace (snd (makeApiRequest Scenario.error_500_not_found Scenario.host1 "/listing/get"
                   (IsString "GET") None Scenario.signed_out))
     = [EFetch "http://192.168.100.46:3000/api/listing/get" (Scenario.get None) 10000
          (Scenario.reply 500 Scenario.json_type Scenario.not_found_body);
        ESleep 1000;
        EFetch "http://192.168.100.46:3000/api/listing/get" (Scenario.get None) 10000
          (Scenario.reply 500 Scenario.json_type Scenario.not_found_body);
        ESleep 2000;
        EFetch "http://192.168.100.46:3000/api/listing/get" (Scenario.get None) 10000
          (Scenario.reply 500 Scenario.json_type Scenario.not_found_body)].
Proof. repeat split; vm_compute; reflexivity. Qed.

(** A value that prints as a text holding "not found" is truthy. *)
Lemma printed_not_found_truthy (v : JSON) (text : string) :
  Js.to_string v = Some text ->
  JsString.includes text "not found" = true ->
  Js.truthy v = true.
Proof.
  destruct v as [| [|] | t | t | items | props]; simpl; try (intros; reflexivity).
  - intros [= <-]. discriminate.
  - intros [= <-]. discriminate.
  - intros [= <-] H. destruct (String.eqb t "0") eqn:E; [| reflexivity].
    apply String.eqb_eq in E. subst t. discriminate.
  - intros [= <-] H. destruct (String.eqb t "") eqn:E; [| reflexivity].
    apply String.eqb_eq in E. subst t. discriminate.
Qed.

(** The message of the error thrown for a status that has no text of its
    own, when the body has a truthy [message]. *)
Lemma errorMessage_message (data field : JSON) (st : Z) :
  Js.get data "message" = Some field -> Js.truthy field = true ->
  errorMessage data st = field.
Proof.
  intros Hm Ht. unfold errorMessage, Js.or. rewrite Hm, Ht.
  unfold Js.or_else. rewrite Ht. reflexivity.
Qed.

(** C10, amended.  Whether the loop goes on is decided by substring
    matching on the message of what the attempt threw: when an attempt
    before the last throws an error with message [m], the loop ends right
    there, throwing that error, exactly when [m] holds "Authentication
    failed" or "not found".  Consequently an answer that is not 2xx and
    not a 500, that gets as far as the status test (not an HTML page, with
    a body that parses) and whose [message] field, a string or any other
    value, prints as a text holding "not found", is not retried: one
    request is made; unless the status is 401 or 404, the error thrown
    carries that text.  A 500 that gets as far as the status test is
    thrown as "Server internal error" whatever its body says, and is
    retried: a pause of 1000 ms and a second request follow. *)
Theorem retry_decided_by_message (w : World) (baseUrl endpoint : string)
    (methodOrOptions : MethodOrOptions) (bodyData : option Data) (s : State)
    (options : FetchOptions) :
  let url := baseUrl +:+ endpoint in
  let request n := EFetch url options TIMEOUT_MS (fetch w n url) in
  built w methodOrOptions bodyData s = Ok options ->
  (forall options0 fuel attempt lastError s0 m s1,
      attempt < MAX_RETRIES ->
      attempt_once w baseUrl url options0 s0 = (Throw (JsError m), s1) ->
      (retry_loop w baseUrl url options0 (S fuel) attempt lastError s0
       = (Throw (JsError m), s1)
       <-> gives_up m = true))
  /\ (forall r text data field message,
        fetch w (issued s) url = Responded r ->
        html_reply r = false ->
        body r = BodyText text -> JsString.blank text = false ->
        JSON_parse w text = inl data ->
        Js.get data "message" = Some field ->
        Js.to_string field = Some message ->
        JsString.includes message "not found" = true ->
        ok r = false -> status r <> 500 ->
        exists e s',
          makeApiRequest w baseUrl endpoint methodOrOptions bodyData s = (Throw e, s')
          /\ issued s' = S (issued s)
          /\ requests (trace s') = requests (trace s) ++ [url]
          /\ pauses (trace s') = pauses (trace s)
          /\ (status r <> 401 -> status r <> 404 -> e = JsError message))
  /\ (forall r,
        fetch w (issued s) url = Responded r ->
        status r = 500 -> is_json_reply w r = true ->
        fst (attempt_once w baseUrl url options s) = Throw (JsError "Server internal error")
        /\ exists evs res,
             makeApiRequest w baseUrl endpoint methodOrOptions bodyData s
             = (res, replay (request (issued s) :: ESleep 1000
                               :: request (S (issued s)) :: evs) s)).
Proof.
  intros url request Hb. split; [| split].
  - intros options0 fuel attempt lastError s0 m s1 Hlt Hatt.
    rewrite attempt_once_verdict in Hatt.
    destruct (verdict w baseUrl (fetch w (issued s0) url)) as [d | | m'] eqn:Hv.
    + discriminate.
    + injection Hatt as <- <-.
      rewrite (retry_loop_unauthorized w baseUrl url options0 fuel attempt lastError s0 Hv)
        by lia.
      split; reflexivity.
    + injection Hatt as <- <-. split.
      * intros Hreq. destruct (gives_up m') eqn:Hg; [reflexivity | exfalso].
        rewrite (retry_loop_again w baseUrl url options0 fuel attempt lastError s0 m'
                   Hv Hlt Hg) in Hreq.
        destruct (retry_loop_replay w baseUrl url options0 fuel (attempt + 1) (JsError m')
                    (after_sleep (attempt * 1000)
                       (after_fetch url options0 TIMEOUT_MS (fetch w (issued s0) url) s0)))
          as (evs & Heq).
        rewrite Hreq in Heq. cbn [snd] in Heq.
        apply (f_equal trace) in Heq. rewrite trace_replay in Heq.
        cbn [trace after_sleep] in Heq. rewrite <- app_assoc in Heq.
        rewrite <- (app_nil_r (trace (after_fetch _ _ _ _ _))) in Heq at 1.
        apply app_inv_head in Heq. discriminate.
      * intros Hg. apply retry_loop_stop; [exact Hv | lia | now left].
  - intros r text data field message Hf Hh Hbody Hbl Hp Hm Hs Hinc Hok H500.
    assert (Hpb : parsed_body w r = inl data).
    { rewrite (parsed_body_text w r text Hbody), Hbl. exact Hp. }
    assert (Hem : thrown_message (errorMessage data (status r)) = message).
    { rewrite (errorMessage_message data field (status r) Hm
                 (printed_not_found_truthy field message Hs Hinc)).
      unfold thrown_message. now rewrite Hs. }
    destruct (Z.eq_dec (status r) 401) as [H401 | H401].
    + eexists _, _. split.
      * apply (makeApiRequest_first_unauthorized w baseUrl endpoint methodOrOptions
                 bodyData s options Hb).
        fold url. rewrite Hf. unfold verdict. rewrite Hh, Hpb, Hok, H401. reflexivity.
      * split; [reflexivity |].
        rewrite trace_replay, requests_app, pauses_app. simpl.
        rewrite app_nil_r. repeat split. congruence.
    + apply Z.eqb_neq in H401. destruct (Z.eq_dec (status r) 404) as [H404 | H404].
      * eexists _, _. split.
        -- apply (makeApiRequest_first_stop w baseUrl endpoint methodOrOptions bodyData s
                    options Hb) with (m := "API endpoint not found"); [| reflexivity].
           fold url. rewrite Hf. unfold verdict. rewrite Hh, Hpb, Hok, H401, H404.
           reflexivity.
        -- split; [reflexivity |].
           cbn [trace after_fetch]. rewrite requests_app, pauses_app. simpl.
           rewrite app_nil_r. repeat split. congruence.
      * apply Z.eqb_neq in H404. apply Z.eqb_neq in H500.
        eexists _, _. split.
        -- apply (makeApiRequest_first_stop w baseUrl endpoint methodOrOptions bodyData s
                    options Hb) with (m := message).
           ++ fold url. rewrite Hf. unfold verdict.
              rewrite Hh, Hpb, Hok, H401, H404, H500, Hem. reflexivity.
           ++ unfold gives_up. rewrite Hinc. apply orb_true_r.
        -- split; [reflexivity |].
           cbn [trace after_fetch]. rewrite requests_app, pauses_app. simpl.
           rewrite app_nil_r. repeat split.
  - intros r Hf Hst Hj.
    assert (Hv : verdict w baseUrl (fetch w (issued s) url) = Failure "Server internal error").
    { rewrite Hf. now apply verdict_500. }
    split.
    + rewrite attempt_once_verdict. cbv zeta. rewrite Hv. reflexivity.
    + apply (makeApiRequest_first_retry w baseUrl endpoint methodOrOptions bodyData s
               options Hb "Server internal error" Hv eq_refl).
Qed.

Lemma retry_decided_by_message_witness :
  (retry_loop Scenario.error_400_not_found Scenario.host1
     (Scenario.host1 +:+ "/listing/get") (Scenario.get None) 2 2 (JsError "Request timeout")
     Scenario.signed_out
   = (Throw (JsError "not found"),
      snd (attempt_once Scenario.error_400_not_found Scenario.host1
             (Scenario.host1 +:+ "/listing/get") (Scenario.get None) Scenario.signed_out))
   <-> gives_up "not found" = true)
  /\ (exists e s',
        makeApiRequest Scenario.error_400_not_found Scenario.host1 "/listing/get"
          (IsString "GET") None Scenario.signed_out = (Throw e, s')
        /\ issued s' = 1%nat
        /\ requests (trace s')
           = requests (trace Scenario.signed_out)
             ++ [Scenario.host1 +:+ "/listing/get"]
        /\ pauses (trace s') = pauses (trace Scenario.signed_out)
        /\ (status Scenario.bad_request <> 401 -> status Scenario.bad_request <> 404 ->
            e = JsError "not found"))
  /\ fst (attempt_once Scenario.error_500_not_found Scenario.host1
            (Scenario.host1 +:+ "/listing/get") (Scenario.get None) Scenario.signed_out)
     = Throw (JsError "Server internal error")
  /\ exists evs res,
       makeApiRequest Scenario.error_500_not_found Scenario.host1 "/listing/get"
         (IsString "GET") None Scenario.signed_out
       = (res,
          replay (EFetch (Scenario.host1 +:+ "/listing/get") (Scenario.get None) TIMEOUT_MS
                    (fetch Scenario.error_500_not_found
                       (issued Scenario.signed_out) (Scenario.host1 +:+ "/listing/get"))
                  :: ESleep 1000
                  :: EFetch (Scenario.host1 +:+ "/listing/get") (Scenario.get None)
                       TIMEOUT_MS
                       (fetch Scenario.error_500_not_found
                          (S (issued Scenario.signed_out))
                          (Scenario.host1 +:+ "/listing/get"))
                  :: evs) Scenario.signed_out).
Proof.
  destruct (retry_decided_by_message Scenario.error_400_not_found Scenario.host1
              "/listing/get" (IsString "GET") None Scenario.signed_out (Scenario.get None)
              eq_refl) as (Hstop & Hmessage & _).
  destruct (retry_decided_by_message Scenario.error_500_not_found Scenario.host1
              "/listing/get" (IsString "GET") None Scenario.signed_out (Scenario.get None)
              eq_refl) as (_ & _ & Hretry).
  split; [| split].
  - apply Hstop; [reflexivity |]. vm_compute. reflexivity.
  - apply (Hmessage Scenario.bad_request Scenario.not_found_body
             (JObject [("message", JString "not found")]) (JString "not found")
             "not found");
      try reflexivity; discriminate.
  - apply (Hretry {| status := 500; content_type := Scenario.json_type;
                     body := BodyText Scenario.not_found_body |}); reflexivity.
Defined.

(** A failure whose message does not match is retried; a message that is
    a list holding "not found" stops the loop as the string does; and a
    400 with that message, served as an HTML page, is retried. *)
Example other_message_is_retried :
  let listed := Scenario.world (fun _ => Scenario.reply 400 Scenario.json_type
                                           Scenario.not_found_list_body) in
  let page := Scenario.world (fun _ => Scenario.reply 400 Scenario.html_type
                                         Scenario.not_found_body) in
  gives_up "Request timeout" = false
  /\ requests (trace (snd (makeApiRequest (Scenario.world (fun _ => TimedOut)) Scenario.host1
                             "/listing/get" (IsString "GET") None Scenario.signed_out)))
     = [ "http://192.168.100.46:3000/api/listing/get";
         "http://192.168.100.46:3000/api/listing/get";
         "http://192.168.100.46:3000/api/listing/get" ]
  /\ fst (makeApiRequest listed Scenario.host1 "/listing/get" (IsString "GET") None
            Scenario.signed_out)
     = Throw (JsError "not found")
  /\ requests (trace (snd (makeApiRequest listed Scenario.host1 "/listing/get"
                             (IsString "GET") None Scenario.signed_out)))
     = [ "http://192.168.100.46:3000/api/listing/get" ]
  /\ requests (trace (snd (makeApiRequest page Scenario.host1 "/listing/get"
                             (IsString "GET") None Scenario.signed_out)))
     = [ "http://192.168.100.46:3000/api/listing/get";
         "http://192.168.100.46:3000/api/listing/get";
         "http://192.168.100.46:3000/api/listing/get" ].
Proof. repeat split; vm_compute; reflexivity. Qed.

(** ** C5: the aggregate error *)

(** When every host has failed, the error [apiCall] throws is built from
    the message of the failure of the host tried first and from the number
    of hosts tried. *)
Lemma aggregate_error_of_first_failure (w : World) (endpoint : string)
    (methodOrOptions : MethodOrOptions) (bodyData : option Data) (s : State)
    (e : Thrown) :
  fst (apiCall w endpoint methodOrOptions bodyData s) = Throw e ->
  exists m,
    fst (makeApiRequest w (JsString.template (API_BASE_URL s)) endpoint
           (or_default methodOrOptions) bodyData s)
    = Throw (JsError m)
    /\ e = JsError
             ("API call failed: " +:+ m +:+ ". Tried "
              +:+ JsString.of_nat
                    (1 + length (List.filter
                                   (fun u => negb (same_url u (API_BASE_URL s)))
                                   DEVELOPMENT_API_URLS))
              +:+ " endpoints.").
Proof.
  intros Hcall.
  destruct (apiCall_run w endpoint methodOrOptions bodyData s)
    as (evs0 & res & _ & Heq & Hrun).
  destruct res as [data | e0]; [rewrite Hrun in Hcall; discriminate |].
  destruct Hrun as (m & blocks & fin & -> & Hfb & Hres).
  rewrite Hres in Hcall.
  destruct fin as [devUrl data |]; [discriminate |].
  injection Hcall as <-.
  exists m. rewrite Heq. split; [reflexivity |].
  enough (Hlen : length blocks
                 = length (List.filter (fun u => negb (same_url u (API_BASE_URL s)))
                             DEVELOPMENT_API_URLS))
    by (unfold aggregate_message; rewrite Hlen; reflexivity).
  clear Hres Heq.
  remember Exhausted as fin eqn:Hfin.
  induction Hfb as [s0 | s0 devUrl rest blocks fin Hsame Hrun IH
                    | s0 devUrl rest evs data Hsame Hrun
                    | s0 devUrl rest evs m' blocks fin Hsame Hrun Hfb IH];
    simpl; try rewrite Hsame; simpl; auto; discriminate.
Qed.

(** C5, on the failing input.  The current host answers 404, the two
    others 500.  All three fail; the last failure, that of the third host,
    says "Server internal error", but the aggregate error names the
    failure of the first host, "API endpoint not found". *)
Theorem aggregate_error_names_first_failure :
  fst (apiCall Scenario.not_found_then_500 "/listing/get" IsUndefined None
         Scenario.signed_out)
  = Throw (JsError "API call failed: API endpoint not found. Tried 3 endpoints.")
  /\ requests (trace (snd (apiCall Scenario.not_found_then_500 "/listing/get" IsUndefined
                             None Scenario.signed_out)))
     = [ "http://192.168.100.46:3000/api/listing/get";
         "http://192.168.100.1:3000/api/listing/get";
         "http://192.168.100.1:3000/api/listing/get";
         "http://192.168.100.1:3000/api/listing/get";
         "http://localhost:3000/api/listing/get";
         "http://localhost:3000/api/listing/get";
         "http://localhost:3000/api/listing/get" ]
  /\ fst (makeApiRequest Scenario.not_found_then_500 Scenario.host3 "/listing/get"
            (or_default IsUndefined) None Scenario.signed_out)
     = Throw (JsError "Server internal error").
Proof. repeat split; vm_compute; reflexivity. Qed.

(** * Further properties of the code *)

(** ** The schedule of [makeApiRequest] *)


(** ** The budget of a call *)

Section FallbackBudget.

Context (w : World) (endpoint : string) (methodOrOptions : MethodOrOptions)
  (bodyData : option Data) (base : option string).

Lemma fallback_run_budget s urls blocks fin :
  fallback_run w endpoint methodOrOptions bodyData base s urls blocks fin ->
  (length (requests (events_of blocks))
   <= 3 * length (List.filter (fun u => negb (same_url u base)) urls))%nat
  /\ 0 <= total_pause (events_of blocks)
     <= 3000 * Z.of_nat (length (List.filter (fun u => negb (same_url u base)) urls)).
Proof.
  induction 1 as [s | s devUrl rest blocks fin Hsame Hrun IH
                  | s devUrl rest evs data Hsame Hrun
                  | s devUrl rest evs m blocks fin Hsame Hrun Hfb IH].
  - simpl. unfold total_pause. simpl. lia.
  - simpl. rewrite Hsame. simpl. exact IH.
  - destruct (request_run_budget _ _ _ _ _ _ _ _ Hrun) as (k & Hk & Hreq & Hp & _).
    simpl. rewrite Hsame. unfold events_of. simpl. rewrite app_nil_r.
    unfold total_pause. rewrite Hreq, Hp, length_replicate.
    pose proof (total_pause_take (pred k)). split; lia.
  - destruct (request_run_budget _ _ _ _ _ _ _ _ Hrun) as (k & Hk & Hreq & Hp & _).
    simpl. rewrite Hsame. unfold events_of in *. simpl.
    rewrite requests_app, total_pause_app, length_app, Hreq, length_replicate.
    unfold total_pause at 1 3. rewrite Hp.
    pose proof (total_pause_take (pred k)). split; lia.
Qed.

(** When the request cannot be built the loop does nothing but go through
    the hosts. *)
Lemma fallback_run_unbuildable s urls blocks fin :
  fallback_run w endpoint methodOrOptions bodyData base s urls blocks fin ->
  buildable w methodOrOptions bodyData s = false ->
  fin = Exhausted /\ events_of blocks = []
  /\ length blocks = length (List.filter (fun u => negb (same_url u base)) urls).
Proof.
  induction 1 as [s | s devUrl rest blocks fin Hsame Hrun IH
                  | s devUrl rest evs data Hsame Hrun
                  | s devUrl rest evs m blocks fin Hsame Hrun Hfb IH];
    intros Hb.
  - auto.
  - simpl. rewrite Hsame. simpl. auto.
  - exfalso. unfold buildable in Hb.
    inversion Hrun as [m Hb' | options evs' res' Hb' Hrun']; subst.
    rewrite Hb' in Hb. discriminate.
  - assert (Hevs : evs = []).
    { destruct (request_run_budget _ _ _ _ _ _ _ _ Hrun) as (k & _ & _ & _ & Hk).
      now rewrite Hb in Hk. }
    subst evs. destruct (IH Hb) as (-> & Hev & Hlen).
    simpl. rewrite Hsame. simpl. unfold events_of in *. simpl. auto.
Qed.

End FallbackBudget.

Lemma other_hosts_configured (u : string) :
  In u DEVELOPMENT_API_URLS -> length (other_hosts (Some u)) = 2%nat.
Proof. intros [<- | [<- | [<- | []]]]; reflexivity. Qed.

(** A call whose request cannot be built fails without having done
    anything: every host is gone through, each time with the error of the
    building, and the aggregate error names the first of them. *)
Lemma apiCall_unbuilt (w : World) (endpoint : string) (methodOrOptions : MethodOrOptions)
    (bodyData : option Data) (s : State) (e : Thrown) :
  built w (or_default methodOrOptions) bodyData s = Throw e ->
  exists m,
    e = JsError m
    /\ apiCall w endpoint methodOrOptions bodyData s
       = (Throw (JsError (aggregate_message m
                            (1 + length (other_hosts (API_BASE_URL s))))), s).
Proof.
  intros Hb.
  destruct (apiCall_run w endpoint methodOrOptions bodyData s)
    as (evs0 & res & Hrun & _ & Hcall).
  destruct Hrun as [m Hb' | options evs res Hb' Hrun]; [| congruence].
  destruct Hcall as (m' & blocks & fin & [= <-] & Hfb & Hcall).
  cbn [replay fold_left] in Hfb, Hcall.
  destruct (fallback_run_unbuildable _ _ _ _ _ _ _ _ _ Hfb) as (-> & Hev & Hlen).
  { unfold buildable. now rewrite Hb. }
  exists m. split; [congruence |].
  rewrite Hcall. unfold fallback_result. rewrite Hev, Hlen. reflexivity.
Qed.

(** When the current host is a configured one, a call issues at most nine
    requests (three per configured host) and spends at most 9000 ms in
    backoff pauses.  It issues at least one request if the request can be
    built; if building it throws, the call does nothing and fails with
    "API call failed: " followed by the message of that error and
    ". Tried 3 endpoints.". *)
Theorem call_budget (w : World) (endpoint : string) (methodOrOptions : MethodOrOptions)
    (bodyData : option Data) (s : State) (u : string) :
  let call := apiCall w endpoint methodOrOptions bodyData s in
  API_BASE_URL s = Some u ->
  In u DEVELOPMENT_API_URLS ->
  exists evs,
    trace (snd call) = trace s ++ evs
    /\ (length (requests evs) <= 9)%nat
    /\ 0 <= total_pause evs <= 9000
    /\ match built w (or_default methodOrOptions) bodyData s with
       | Ok _ => (1 <= length (requests evs))%nat
       | Throw e =>
           exists m,
             e = JsError m
             /\ call = (Throw (JsError ("API call failed: " +:+ m
                                        +:+ ". Tried 3 endpoints.")), s)
       end.
Proof.
  intros call Hbase Hin.
  destruct (built w (or_default methodOrOptions) bodyData s) as [options | e] eqn:Hb.
  - destruct (apiCall_run w endpoint methodOrOptions bodyData s)
      as (evs0 & res & Hrun & _ & Hcall).
    destruct (request_run_budget _ _ _ _ _ _ _ _ Hrun) as (k & Hk & Hreq & Hp & Hk1).
    unfold buildable in Hk1. rewrite Hb in Hk1.
    pose proof (total_pause_take (pred k)) as Hk3.
    destruct res as [data | e].
    + exists evs0. unfold call. rewrite Hcall. cbn [snd]. rewrite trace_replay.
      split; [reflexivity |]. unfold total_pause. rewrite Hreq, Hp, length_replicate.
      repeat split; lia.
    + destruct Hcall as (m & blocks & fin & _ & Hfb & Hcall).
      destruct (fallback_run_budget _ _ _ _ _ _ _ _ _ Hfb) as [Hn Ht].
      rewrite Hbase in Hn, Ht. fold (other_hosts (Some u)) in Hn, Ht.
      rewrite (other_hosts_configured u Hin) in Hn, Ht.
      exists (evs0 ++ events_of blocks). unfold call. rewrite Hcall.
      rewrite trace_fallback_result, trace_replay, <- app_assoc.
      split; [reflexivity |].
      rewrite requests_app, total_pause_app, length_app, Hreq, length_replicate.
      unfold total_pause at 1 3. rewrite Hp. repeat split; lia.
  - destruct (apiCall_unbuilt w endpoint methodOrOptions bodyData s e Hb) as (m & -> & Hcall).
    rewrite Hbase, (other_hosts_configured u Hin) in Hcall.
    exists []. unfold call. rewrite Hcall. cbn [snd]. rewrite app_nil_r.
    split; [reflexivity |]. split; [simpl; lia |].
    split; [unfold total_pause; simpl; lia |].
    exists m. split; reflexivity.
Qed.

Lemma call_budget_witness :
  exists evs,
    trace (snd (apiCall Scenario.all_500 "/listing/get" IsUndefined None
                  Scenario.signed_out))
    = trace Scenario.signed_out ++ evs
    /\ (length (requests evs) <= 9)%nat
    /\ 0 <= total_pause evs <= 9000
    /\ match built Scenario.all_500 (or_default IsUndefined) None Scenario.signed_out with
       | Ok _ => (1 <= length (requests evs))%nat
       | Throw e =>
           exists m,
             e = JsError m
             /\ apiCall Scenario.all_500 "/listing/get" IsUndefined None Scenario.signed_out
                = (Throw (JsError ("API call failed: " +:+ m
                                   +:+ ". Tried 3 endpoints.")), Scenario.signed_out)
       end.
Proof.
  apply (call_budget Scenario.all_500 "/listing/get" IsUndefined None Scenario.signed_out
           Scenario.host1).
  - reflexivity.
  - left. reflexivity.
Defined.

(** The budget is reached: with every host answering 500 a call makes nine
    requests and pauses for 9000 ms.  And a call with data [JSON.stringify]
    throws on makes none. *)
Example call_budget_reached :
  length (requests (trace (snd (apiCall Scenario.all_500 "/listing/get" IsUndefined None
                                  Scenario.signed_out)))) = 9%nat
  /\ total_pause (trace (snd (apiCall Scenario.all_500 "/listing/get" IsUndefined None
                                Scenario.signed_out))) = 9000
  /\ apiCall Scenario.all_500 "/listing/create" (IsString "POST") Scenario.bigint
       Scenario.signed_out
     = (Throw (JsError "API call failed: Do not know how to serialize a BigInt. Tried 3 endpoints."),
        Scenario.signed_out).
Proof. repeat split; vm_compute; reflexivity. Qed.

(** ** The first answer *)

(** When the current host answers the first request with a 2xx whose body
    is blank or parses, the call returns the parsed body at once: one
    request, no pause, and the host pointer and the store as they were. *)
Theorem good_answer_returned_at_once (w : World) (endpoint : string)
    (methodOrOptions : MethodOrOptions) (bodyData : option Data) (s : State)
    (options : FetchOptions) (r : Response) (data : JSON) :
  let url := JsString.template (API_BASE_URL s) +:+ endpoint in
  let call := apiCall w endpoint methodOrOptions bodyData s in
  built w (or_default methodOrOptions) bodyData s = Ok options ->
  fetch w (issued s) url = Responded r ->
  ok r = true ->
  html_reply r = false ->
  parsed_body w r = inl data ->
  fst call = Ok data
  /\ trace (snd call) = trace s ++ [EFetch url options TIMEOUT_MS (Responded r)]
  /\ API_BASE_URL (snd call) = API_BASE_URL s
  /\ currentApiIndex (snd call) = currentApiIndex s
  /\ AsyncStorage (snd call) = AsyncStorage s.
Proof.
  intros url call Hb Hf Hok Hh Hp.
  assert (Hv : verdict w (JsString.template (API_BASE_URL s)) (fetch w (issued s) url)
               = Success data).
  { rewrite Hf. unfold verdict. rewrite Hh, Hp, Hok. reflexivity. }
  assert (Heq : call = (Ok data, after_fetch url options TIMEOUT_MS (Responded r) s)).
  { unfold call, apiCall, bind at 1, get_state, try_catch.
    rewrite (makeApiRequest_first_success w _ endpoint _ bodyData s options Hb data Hv).
    fold url. rewrite Hf. reflexivity. }
  rewrite Heq. repeat split.
Qed.

Lemma good_answer_returned_at_once_witness :
  let s := snd (apiCall Scenario.first_down "/listing/get" IsUndefined None
                  Scenario.signed_in) in
  let call := apiCall Scenario.first_down "/listing/get" IsUndefined None s in
  fst call = Ok (JObject [])
  /\ trace (snd call)
     = trace s
       ++ [EFetch "http://192.168.100.1:3000/api/listing/get"
             (Scenario.get (Some "Bearer t0k3n")) 10000
             (Scenario.reply 200 Scenario.json_type "{}")]
  /\ API_BASE_URL (snd call) = Some "http://192.168.100.1:3000/api"
  /\ currentApiIndex (snd call) = 1
  /\ AsyncStorage (snd call) = AsyncStorage s.
Proof.
  intros s call.
  apply (good_answer_returned_at_once Scenario.first_down "/listing/get" IsUndefined None
           s (Scenario.get (Some "Bearer t0k3n"))
           {| status := 200; content_type := Scenario.json_type; body := BodyText "{}" |}
           (JObject []));
    vm_compute; reflexivity.
Defined.

(** ** Failures that are retried *)

(** A host that cannot be reached is asked three times.  When every
    request to it times out or is rejected with a transport error whose
    message holds neither "Authentication failed" nor "not found",
    [makeApiRequest], with a request that can be built, makes three
    requests with pauses of 1000 ms and 2000 ms and throws the error of
    the last one. *)
Theorem unreachable_host_three_attempts (w : World) (baseUrl endpoint : string)
    (methodOrOptions : MethodOrOptions) (bodyData : option Data) (s : State)
    (options : FetchOptions) :
  let url := baseUrl +:+ endpoint in
  let request n := EFetch url options TIMEOUT_MS (fetch w n url) in
  built w methodOrOptions bodyData s = Ok options ->
  (forall n, fetch w n url = TimedOut
             \/ exists m, fetch w n url = Rejected m /\ gives_up m = false) ->
  exists s',
    makeApiRequest w baseUrl endpoint methodOrOptions bodyData s
    = (Throw (JsError match fetch w (S (S (issued s))) url with
                      | Rejected m => m
                      | _ => "Request timeout"
                      end), s')
    /\ trace s' = trace s ++ [request (issued s); ESleep 1000;
                              request (S (issued s)); ESleep 2000;
                              request (S (S (issued s)))].
Proof.
  intros url request Hb H.
  assert (Hv : forall n, exists m,
             verdict w baseUrl (fetch w n url) = Failure m /\ gives_up m = false
             /\ m = match fetch w n url with Rejected m => m | _ => "Request timeout" end).
  { intros n. destruct (H n) as [-> | (m & -> & Hg)].
    - exists "Request timeout". repeat split.
    - exists m. repeat split. exact Hg. }
  destruct (Hv (issued s)) as (m1 & Hv1 & Hg1 & _).
  destruct (Hv (S (issued s))) as (m2 & Hv2 & Hg2 & _).
  destruct (Hv (S (S (issued s)))) as (m3 & Hv3 & _ & <-).
  eexists. split.
  - eapply makeApiRequest_three_failures; eauto.
  - apply trace_replay.
Qed.

Lemma unreachable_host_three_attempts_witness :
  exists s',
    makeApiRequest Scenario.first_down Scenario.host1 "/listing/get" (IsString "GET") None
      Scenario.signed_out
    = (Throw (JsError "Request timeout"), s')
    /\ trace s'
       = [EFetch "http://192.168.100.46:3000/api/listing/get" (Scenario.get None) 10000
            TimedOut;
          ESleep 1000;
          EFetch "http://192.168.100.46:3000/api/listing/get" (Scenario.get None) 10000
            TimedOut;
          ESleep 2000;
          EFetch "http://192.168.100.46:3000/api/listing/get" (Scenario.get None) 10000
            TimedOut].
Proof.
  apply (unreachable_host_three_attempts Scenario.first_down Scenario.host1
           "/listing/get" (IsString "GET") None Scenario.signed_out (Scenario.get None)).
  - reflexivity.
  - intros n. left. reflexivity.
Defined.

(** A failure that is retried and followed by a good answer costs one
    pause.  When the first attempt against the current host throws an
    error the loop does not stop on, and the attempt made after the pause
    of 1000 ms returns, the call returns what that attempt returned; two
    requests were made, and the host pointer is as it was. *)
Theorem transient_failure_recovers (w : World) (endpoint : string)
    (methodOrOptions : MethodOrOptions) (bodyData : option Data) (s s1 s2 : State)
    (options : FetchOptions) (m : string) (data : JSON) :
  let baseUrl := JsString.template (API_BASE_URL s) in
  let url := baseUrl +:+ endpoint in
  built w (or_default methodOrOptions) bodyData s = Ok options ->
  attempt_once w baseUrl url options s = (Throw (JsError m), s1) ->
  gives_up m = false ->
  attempt_once w baseUrl url options (snd (sleep 1000 s1)) = (Ok data, s2) ->
  apiCall w endpoint methodOrOptions bodyData s = (Ok data, s2)
  /\ trace s2
     = trace s ++ [EFetch url options TIMEOUT_MS (fetch w (issued s) url);
                   ESleep 1000;
                   EFetch url options TIMEOUT_MS (fetch w (S (issued s)) url)]
  /\ API_BASE_URL s2 = API_BASE_URL s
  /\ currentApiIndex s2 = currentApiIndex s.
Proof.
  intros baseUrl url Hb H1 Hg H2.
  rewrite attempt_once_verdict in H1.
  destruct (verdict w baseUrl (fetch w (issued s) url)) as [d | | m'] eqn:Hv1;
    try discriminate.
  { injection H1 as <- _. discriminate. }
  injection H1 as <- <-.
  rewrite attempt_once_verdict in H2.
  change (issued (snd (sleep 1000
                         (after_fetch url options TIMEOUT_MS
                            (fetch w (issued s) url) s))))
    with (S (issued s)) in H2.
  destruct (verdict w baseUrl (fetch w (S (issued s)) url)) as [d | | m''] eqn:Hv2;
    try discriminate.
  injection H2 as <- <-.
  split.
  - unfold apiCall, bind at 1, get_state, try_catch.
    rewrite (makeApiRequest_built w endpoint _ _ _ s options Hb).
    fold baseUrl. fold url.
    change (Z.to_nat MAX_RETRIES) with 3%nat.
    erewrite retry_loop_again; [| exact Hv1 | reflexivity | exact Hg].
    erewrite retry_loop_success; [reflexivity | exact Hv2 | discriminate].
  - cbn. rewrite <- !app_assoc. repeat split.
Qed.

Lemma transient_failure_recovers_witness :
  let w := {| fetch := fun n _ => match n with
                                  | O => TimedOut
                                  | _ => Scenario.reply 200 Scenario.json_type "{}"
                                  end;
              JSON_parse := Scenario.parse |} in
  let url := Scenario.host1 +:+ "/listing/get" in
  let get := Scenario.get None in
  apiCall w "/listing/get" IsUndefined None Scenario.signed_out
  = (Ok (JObject []),
     snd (attempt_once w Scenario.host1 url get
            (snd (sleep 1000
                    (snd (attempt_once w Scenario.host1 url get Scenario.signed_out))))))
  /\ requests (trace (snd (apiCall w "/listing/get" IsUndefined None Scenario.signed_out)))
     = [ "http://192.168.100.46:3000/api/listing/get";
         "http://192.168.100.46:3000/api/listing/get" ]
  /\ pauses (trace (snd (apiCall w "/listing/get" IsUndefined None Scenario.signed_out)))
     = [1000].
Proof.
  intros w url get.
  destruct (transient_failure_recovers w "/listing/get" IsUndefined None
              Scenario.signed_out
              (snd (attempt_once w Scenario.host1 url get Scenario.signed_out))
              (snd (attempt_once w Scenario.host1 url get
                      (snd (sleep 1000
                              (snd (attempt_once w Scenario.host1 url get
                                      Scenario.signed_out))))))
              get "Request timeout" (JObject []))
    as (Hcall & Htrace & _); try (vm_compute; reflexivity).
  split; [exact Hcall |]. rewrite Hcall. cbn [snd]. rewrite Htrace.
  split; reflexivity.
Defined.

(** ** The store *)

(** With no user record in the store the client adds no [Authorization]
    header of its own. *)
Lemma built_no_user (w : World) (methodOrOptions : MethodOrOptions)
    (bodyData : option Data) (s : State) (options : FetchOptions) :
  AsyncStorage s !! "user" = None ->
  built w methodOrOptions bodyData s = Ok options ->
  fetch_headers options !! "Authorization"
  = passed_headers methodOrOptions !! "Authorization".
Proof.
  intros Hnone. rewrite built_eq, (stored_token_no_user w _ Hnone). cbn [authorization].
  destruct methodOrOptions as [method | o | |]; cbn [read_arguments]; try discriminate.
  - destruct (request_body method bodyData); [| discriminate].
    intros [= <-]. reflexivity.
  - destruct (request_body _ _); [| discriminate].
    intros [= <-]. cbn [fetch_headers passed_headers].
    rewrite lookup_union_l; reflexivity.
Qed.

(** Traces compose. *)
Lemma tokenless_app (passed : gmap string string) (s : State) (evs1 evs2 : list Event) :
  tokenless passed s evs1 -> tokenless passed (replay evs1 s) evs2 ->
  tokenless passed s (evs1 ++ evs2).
Proof.
  intros [H1 H1'] [H2 H2']. split.
  - intros Hs u b t o Hin. apply in_app_or in Hin as [Hin | Hin].
    + eapply H1; eauto.
    + eapply H2; eauto. now apply storage_replay_None.
  - intros pre post u b t o Heq Hin.
    apply app_eq_inv in Heq as [(k & -> & Hk) | (k & -> & ->)].
    + destruct k as [| e k].
      * simpl in Hk. rewrite app_nil_r in *. eapply (H2' []); eauto.
      * injection Hk as <- ->.
        apply in_app_or in Hin as [Hin | Hin].
        -- eapply H1'; eauto.
        -- eapply H2; eauto. apply storage_after_removal.
    + eapply H2'; eauto.
Qed.

Lemma tokenless_run (w : World) (baseUrl endpoint : string)
    (methodOrOptions : MethodOrOptions) (bodyData : option Data) (s : State) evs res :
  request_run w baseUrl endpoint methodOrOptions bodyData s evs res ->
  tokenless (passed_headers methodOrOptions) s evs.
Proof.
  intros Hrun. split.
  - intros Hs u b t o Hin.
    apply (built_no_user w methodOrOptions bodyData s b Hs).
    now destruct (request_run_options _ _ _ _ _ _ _ _ _ _ _ _ Hrun Hin) as (_ & ? & _).
  - intros pre post u b t o Heq Hin.
    rewrite (request_run_removal_last _ _ _ _ _ _ _ _ _ _ _ Hrun Heq) in Hin.
    destruct Hin.
Qed.

Section FallbackStore.

Context (w : World) (endpoint : string) (methodOrOptions : MethodOrOptions)
  (bodyData : option Data) (base : option string).

Lemma tokenless_fallback s urls blocks fin :
  fallback_run w endpoint methodOrOptions bodyData base s urls blocks fin ->
  tokenless (passed_headers methodOrOptions) s (events_of blocks).
Proof.
  induction 1 as [s | s devUrl rest blocks fin Hsame Hrun IH
                  | s devUrl rest evs data Hsame Hrun
                  | s devUrl rest evs m blocks fin Hsame Hrun Hfb IH].
  - split; [intros _ u b t o [] |].
    intros [| e pre] post u b t o Heq; discriminate.
  - exact IH.
  - unfold events_of. simpl. rewrite app_nil_r. eapply tokenless_run; eauto.
  - unfold events_of in *. simpl. apply tokenless_app; [| exact IH].
    eapply tokenless_run; eauto.
Qed.

(** The fallback loop removes nothing but the user record, and that only
    in answer to a 401. *)
Lemma fallback_run_removals s urls blocks fin :
  fallback_run w endpoint methodOrOptions bodyData base s urls blocks fin ->
  Forall (fun key => key = "user") (removals (events_of blocks))
  /\ (removals (events_of blocks) <> [] ->
      exists u b t r,
        In (EFetch u b t (Responded r)) (events_of blocks) /\ status r = 401).
Proof.
  induction 1 as [s | s devUrl rest blocks fin Hsame Hrun IH
                  | s devUrl rest evs data Hsame Hrun
                  | s devUrl rest evs m blocks fin Hsame Hrun Hfb IH].
  - split; [constructor | intros H; now destruct H].
  - exact IH.
  - unfold events_of. simpl. rewrite app_nil_r.
    destruct (request_run_removals _ _ _ _ _ _ _ _ Hrun)
      as [-> | (-> & b & r & Hin & Hst)].
    + split; [constructor | intros H; now destruct H].
    + split; [repeat constructor | intros _; eauto 8].
  - unfold events_of in *. simpl. rewrite removals_app.
    destruct IH as [IHall IHsome].
    destruct (request_run_removals _ _ _ _ _ _ _ _ Hrun)
      as [-> | (-> & b & r & Hin & Hst)].
    + split; [exact IHall |]. intros Hne.
      destruct (IHsome Hne) as (u & b & t & r & Hin & Hst).
      exists u, b, t, r. split; [apply in_or_app; now right | exact Hst].
    + split; [constructor; [reflexivity | exact IHall] |]. intros _.
      do 4 eexists. split; [apply in_or_app; left; exact Hin | exact Hst].
Qed.

End FallbackStore.

(** The events of a call: those of [makeApiRequest] on the current host,
    followed, if that threw, by those of the fallback loop. *)
Lemma apiCall_events (w : World) (endpoint : string) (methodOrOptions : MethodOrOptions)
    (bodyData : option Data) (s : State) :
  let call := apiCall w endpoint methodOrOptions bodyData s in
  exists evs,
    trace (snd call) = trace s ++ evs
    /\ AsyncStorage (snd call) = AsyncStorage (replay evs s)
    /\ tokenless (passed_headers (or_default methodOrOptions)) s evs
    /\ Forall (fun key => key = "user") (removals evs)
    /\ (removals evs <> [] ->
        exists u b t r, In (EFetch u b t (Responded r)) evs /\ status r = 401).
Proof.
  intros call. unfold call.
  destruct (apiCall_run w endpoint methodOrOptions bodyData s)
    as (evs0 & res & Hrun & _ & Hcall).
  pose proof (tokenless_run _ _ _ _ _ _ _ _ Hrun) as Htok.
  pose proof (request_run_removals _ _ _ _ _ _ _ _ Hrun) as Hrem.
  destruct res as [data | e].
  - exists evs0. rewrite Hcall. cbn [snd]. rewrite trace_replay.
    split; [reflexivity |]. split; [reflexivity |]. split; [exact Htok |].
    destruct Hrem as [-> | (-> & b & r & Hin & Hst)].
    + split; [constructor | intros H; now destruct H].
    + split; [repeat constructor | intros _; eauto 8].
  - destruct Hcall as (m & blocks & fin & _ & Hfb & ->).
    destruct (fallback_run_removals _ _ _ _ _ _ _ _ _ Hfb) as [Hall Hsome].
    exists (evs0 ++ events_of blocks).
    rewrite trace_fallback_result, AsyncStorage_fallback_result, trace_replay,
      <- app_assoc, replay_app, removals_app.
    split; [reflexivity |]. split; [reflexivity |].
    split; [apply tokenless_app; [exact Htok | eapply tokenless_fallback; eauto] |].
    destruct Hrem as [-> | (-> & b & r & Hin & Hst)].
    + split; [exact Hall |]. intros Hne.
      destruct (Hsome Hne) as (u & b & t & r & Hin & Hst).
      exists u, b, t, r. split; [apply in_or_app; now right | exact Hst].
    + split; [constructor; [reflexivity | exact Hall] |]. intros _.
      do 4 eexists. split; [apply in_or_app; left; exact Hin | exact Hst].
Qed.

(** A call never writes to the store and removes nothing from it but the
    user record: every other key keeps its value, and the store after the
    call is either the store before it, or the store before it without the
    user record, and then some request of the call was answered 401. *)
Theorem call_removes_only_user_on_401 (w : World) (endpoint : string)
    (methodOrOptions : MethodOrOptions) (bodyData : option Data) (s : State) :
  let call := apiCall w endpoint methodOrOptions bodyData s in
  exists evs,
    trace (snd call) = trace s ++ evs
    /\ (forall key, key <> "user" ->
          AsyncStorage (snd call) !! key = AsyncStorage s !! key)
    /\ (AsyncStorage (snd call) = AsyncStorage s
        \/ (AsyncStorage (snd call) = delete "user" (AsyncStorage s)
            /\ exists u b t r, In (EFetch u b t (Responded r)) evs /\ status r = 401)).
Proof.
  intros call.
  destruct (apiCall_events w endpoint methodOrOptions bodyData s)
    as (evs & Htr & Hst & _ & Hall & Hsome).
  exists evs. split; [exact Htr |]. unfold call.
  rewrite Hst, (storage_replay evs s Hall).
  destruct (removals evs) as [| key keys].
  - split; [reflexivity | now left].
  - split.
    + intros key' Hne. now apply lookup_delete_ne.
    + right. split; [reflexivity |]. apply Hsome. discriminate.
Qed.

(** Once the user record is gone, requests go out without a token.  In
    the trace of a call every request that follows the removal of the user
    record has the [Authorization] header the caller passed in its options
    and no other, hence none if the caller passed none; and so has every
    request of a call that starts with no user record in the store. *)
Theorem no_token_once_user_is_removed (w : World) (endpoint : string)
    (methodOrOptions : MethodOrOptions) (bodyData : option Data) (s : State) :
  let passed := passed_headers (or_default methodOrOptions) in
  exists evs,
    trace (snd (apiCall w endpoint methodOrOptions bodyData s)) = trace s ++ evs
    /\ (forall pre post u b t o,
           evs = pre ++ ERemoveItem "user" :: post ->
           In (EFetch u b t o) post ->
           fetch_headers b !! "Authorization" = passed !! "Authorization")
    /\ (AsyncStorage s !! "user" = None ->
        forall u b t o,
          In (EFetch u b t o) evs ->
          fetch_headers b !! "Authorization" = passed !! "Authorization").
Proof.
  intros passed.
  destruct (apiCall_events w endpoint methodOrOptions bodyData s)
    as (evs & Htr & _ & [Hnone Hafter] & _).
  exists evs. auto.
Qed.

(** In the run of the 401 scenario: the request before the removal carries
    the token, the one after it does not.  With an [Authorization] header
    passed by the caller, both carry that header. *)
Example token_dropped_after_401 :
  let own := IsOptions {| options_method := None; options_body := None;
                          options_data := None;
                          options_headers := Some {[ "Authorization" := "Basic abc" ]} |} in
  trace (snd (apiCall Scenario.unauthorized_then_ok "/listing/get" IsUndefined None
                Scenario.signed_in))
  = [EFetch "http://192.168.100.46:3000/api/listing/get"
       (Scenario.get (Some "Bearer t0k3n")) 10000
       (Scenario.reply 401 Scenario.json_type "{}")]
    ++ ERemoveItem "user"
    :: [EFetch "http://192.168.100.1:3000/api/listing/get" (Scenario.get None) 10000
          (Scenario.reply 200 Scenario.json_type "{}")]
  /\ trace (snd (apiCall Scenario.unauthorized_then_ok "/listing/get" own None
                   Scenario.signed_in))
     = [EFetch "http://192.168.100.46:3000/api/listing/get"
          (Scenario.get (Some "Basic abc")) 10000
          (Scenario.reply 401 Scenario.json_type "{}")]
       ++ ERemoveItem "user"
       :: [EFetch "http://192.168.100.1:3000/api/listing/get"
             (Scenario.get (Some "Basic abc")) 10000
             (Scenario.reply 200 Scenario.json_type "{}")].
Proof. split; vm_compute; reflexivity. Qed.

(** ** What the fallback loop asks *)

Section FallbackRequests.

Context (w : World) (endpoint : string) (methodOrOptions : MethodOrOptions)
  (bodyData : option Data) (base : option string).

(** The loop starts with a request to the first of the other hosts. *)
Lemma fallback_run_first s urls blocks fin d rest options :
  fallback_run w endpoint methodOrOptions bodyData base s urls blocks fin ->
  built w methodOrOptions bodyData s = Ok options ->
  List.filter (fun u => negb (same_url u base)) urls = d :: rest ->
  exists tail,
    events_of blocks
    = EFetch (d +:+ endpoint) options TIMEOUT_MS
        (fetch w (issued s) (d +:+ endpoint)) :: tail.
Proof.
  induction 1 as [s | s devUrl urls blocks fin Hsame Hrun IH
                  | s devUrl urls evs data Hsame Hrun
                  | s devUrl urls evs m blocks fin Hsame Hrun Hfb IH];
    simpl; try rewrite Hsame; simpl; intros Hb Hf.
  - discriminate.
  - now apply IH.
  - injection Hf as <- _.
    destruct (request_run_first _ _ _ _ _ _ _ _ _ Hb Hrun) as (tail & ->).
    unfold events_of. simpl. eauto.
  - injection Hf as <- _.
    destruct (request_run_first _ _ _ _ _ _ _ _ _ Hb Hrun) as (tail & ->).
    unfold events_of. simpl. eauto.
Qed.

(** A loop that runs out of hosts has asked each of the other hosts, if
    the request can be built. *)
Lemma fallback_run_exhausted s urls blocks fin d :
  fallback_run w endpoint methodOrOptions bodyData base s urls blocks fin ->
  buildable w methodOrOptions bodyData s = true ->
  fin = Exhausted ->
  In d (List.filter (fun u => negb (same_url u base)) urls) ->
  In (d +:+ endpoint) (requests (events_of blocks)).
Proof.
  induction 1 as [s | s devUrl urls blocks fin Hsame Hrun IH
                  | s devUrl urls evs data Hsame Hrun
                  | s devUrl urls evs m blocks fin Hsame Hrun Hfb IH];
    simpl; try rewrite Hsame; simpl; intros Hb Hfin Hin.
  - destruct Hin.
  - now apply IH.
  - discriminate.
  - unfold events_of in *. simpl. rewrite requests_app. apply in_or_app.
    destruct Hin as [<- | Hin].
    + left.
      destruct (request_run_budget _ _ _ _ _ _ _ _ Hrun) as (k & _ & -> & _ & Hk).
      rewrite Hb in Hk. destruct k; [lia | now left].
    + right. apply IH; [| exact Hfin | exact Hin].
      now rewrite (request_run_buildable _ _ _ _ _ _ _ _ Hrun).
Qed.

End FallbackRequests.

(** A 404 is not retried.  When the current host answers the first request
    with a 404 that gets as far as the status test, [makeApiRequest] throws
    "API endpoint not found" after that one request, and the next request
    of the call, made without a pause, goes to the first of the other
    hosts. *)
Theorem not_found_moves_on_at_once (w : World) (endpoint : string)
    (methodOrOptions : MethodOrOptions) (bodyData : option Data) (s : State)
    (options : FetchOptions) (r : Response) (d : string) (rest : list string) :
  let given := or_default methodOrOptions in
  let baseUrl := JsString.template (API_BASE_URL s) in
  let url := baseUrl +:+ endpoint in
  built w given bodyData s = Ok options ->
  fetch w (issued s) url = Responded r ->
  status r = 404 ->
  is_json_reply w r = true ->
  other_hosts (API_BASE_URL s) = d :: rest ->
  (exists s1,
      makeApiRequest w baseUrl endpoint given bodyData s
      = (Throw (JsError "API endpoint not found"), s1)
      /\ trace s1 = trace s ++ [EFetch url options TIMEOUT_MS (Responded r)])
  /\ exists evs,
       trace (snd (apiCall w endpoint methodOrOptions bodyData s))
       = trace s ++ EFetch url options TIMEOUT_MS (Responded r)
                 :: EFetch (d +:+ endpoint) options TIMEOUT_MS
                      (fetch w (S (issued s)) (d +:+ endpoint))
                 :: evs.
Proof.
  intros given baseUrl url Hb Hf Hst Hj Hothers.
  assert (Hv : verdict w baseUrl (fetch w (issued s) url) = Failure "API endpoint not found").
  { rewrite Hf. now apply verdict_404. }
  pose proof (makeApiRequest_first_stop w baseUrl endpoint given bodyData s options Hb
                _ Hv eq_refl) as Hreq.
  fold url in Hreq. rewrite Hf in Hreq.
  split.
  - eexists. split; [exact Hreq | reflexivity].
  - unfold apiCall, bind at 1, get_state, try_catch. fold given. fold baseUrl.
    rewrite Hreq. unfold message_of, bind at 1, ret.
    destruct (fallbacks_run w endpoint given bodyData DEVELOPMENT_API_URLS
                "API endpoint not found" [API_BASE_URL s]
                (after_fetch url options TIMEOUT_MS (Responded r) s))
      as (blocks & fin & Hfb & ->).
    assert (Hb' : built w given bodyData (after_fetch url options TIMEOUT_MS (Responded r) s)
                  = Ok options) by (rewrite <- Hb; now apply built_store).
    destruct (fallback_run_first w endpoint given bodyData _ _ _ _ _ d rest options
                Hfb Hb' Hothers) as (tail & Hev).
    exists tail. rewrite trace_fallback_result, Hev. cbn [trace after_fetch].
    rewrite <- app_assoc. reflexivity.
Qed.

Lemma not_found_moves_on_at_once_witness :
  (exists s1,
      makeApiRequest Scenario.not_found_then_500 Scenario.host1 "/listing/get"
        (or_default IsUndefined) None Scenario.signed_out
      = (Throw (JsError "API endpoint not found"), s1)
      /\ trace s1
         = [EFetch "http://192.168.100.46:3000/api/listing/get" (Scenario.get None) 10000
              (Scenario.reply 404 Scenario.json_type "{}")])
  /\ exists evs,
       trace (snd (apiCall Scenario.not_found_then_500 "/listing/get" IsUndefined None
                     Scenario.signed_out))
       = EFetch "http://192.168.100.46:3000/api/listing/get" (Scenario.get None) 10000
           (Scenario.reply 404 Scenario.json_type "{}")
         :: EFetch "http://192.168.100.1:3000/api/listing/get" (Scenario.get None) 10000
              (Scenario.reply 500 Scenario.json_type "{}")
         :: evs.
Proof.
  apply (not_found_moves_on_at_once Scenario.not_found_then_500 "/listing/get" IsUndefined
           None Scenario.signed_out (Scenario.get None)
           {| status := 404; content_type := Scenario.json_type; body := BodyText "{}" |}
           Scenario.host2 [Scenario.host3]);
    reflexivity.
Defined.

(** A call that fails has left the host pointer where it was and has
    either asked every configured host, or, when building the request
    throws, asked none and done nothing. *)
Theorem failed_call_asked_every_host (w : World) (endpoint : string)
    (methodOrOptions : MethodOrOptions) (bodyData : option Data) (s : State)
    (e : Thrown) :
  let call := apiCall w endpoint methodOrOptions bodyData s in
  fst call = Throw e ->
  API_BASE_URL (snd call) = API_BASE_URL s
  /\ currentApiIndex (snd call) = currentApiIndex s
  /\ exists evs,
       trace (snd call) = trace s ++ evs
       /\ match built w (or_default methodOrOptions) bodyData s with
          | Ok _ => forall d, In d DEVELOPMENT_API_URLS -> In (d +:+ endpoint) (requests evs)
          | Throw _ => evs = [] /\ snd call = s
          end.
Proof.
  intros call Hcall. unfold call in *.
  destruct (built w (or_default methodOrOptions) bodyData s) as [options | e0] eqn:Hb.
  - destruct (apiCall_run w endpoint methodOrOptions bodyData s)
      as (evs0 & res & Hrun & _ & Hres).
    destruct res as [data | e1]; [rewrite Hres in Hcall; discriminate |].
    destruct Hres as (m & blocks & fin & _ & Hfb & Hres).
    rewrite Hres in Hcall |- *.
    destruct fin as [devUrl data |]; [discriminate |].
    cbn [fallback_result snd].
    rewrite !API_BASE_URL_replay, !currentApiIndex_replay.
    split; [reflexivity |]. split; [reflexivity |].
    exists (evs0 ++ events_of blocks).
    rewrite !trace_replay, <- app_assoc. split; [reflexivity |].
    intros d Hin. rewrite requests_app. apply in_or_app.
    destruct (same_url d (API_BASE_URL s)) eqn:Hsame.
    + left. destruct (request_run_first _ _ _ _ _ _ _ _ _ Hb Hrun) as (tail & ->).
      unfold same_url in Hsame. destruct (API_BASE_URL s) as [u |]; [| discriminate].
      apply String.eqb_eq in Hsame as ->. now left.
    + right. eapply fallback_run_exhausted; eauto.
      * rewrite (request_run_buildable _ _ _ _ _ _ _ _ Hrun).
        unfold buildable. now rewrite Hb.
      * apply filter_In. split; [exact Hin | now rewrite Hsame].
  - destruct (apiCall_unbuilt w endpoint methodOrOptions bodyData s e0 Hb) as (m & _ & ->).
    cbn [snd]. split; [reflexivity |]. split; [reflexivity |].
    exists []. rewrite app_nil_r. auto.
Qed.

Lemma failed_call_asked_every_host_witness :
  let call := apiCall Scenario.all_500 "/listing/get" IsUndefined None Scenario.signed_out in
  API_BASE_URL (snd call) = API_BASE_URL Scenario.signed_out
  /\ currentApiIndex (snd call) = currentApiIndex Scenario.signed_out
  /\ exists evs,
       trace (snd call) = trace Scenario.signed_out ++ evs
       /\ match built Scenario.all_500 (or_default IsUndefined) None Scenario.signed_out with
          | Ok _ =>
              forall d, In d DEVELOPMENT_API_URLS -> In (d +:+ "/listing/get") (requests evs)
          | Throw _ => evs = [] /\ snd call = Scenario.signed_out
          end.
Proof.
  apply (failed_call_asked_every_host Scenario.all_500 "/listing/get" IsUndefined None
           Scenario.signed_out
           (JsError "API call failed: Server internal error. Tried 3 endpoints.")).
  vm_compute. reflexivity.
Defined.

(** ** The host-discovery probe *)

(** One step of the probe. *)
Lemma probe_from_cons (w : World) (i : Z) (testUrl : string) (rest : list string)
    (s : State) :
  let o := fetch w (issued s) (testUrl +:+ "/debug/test") in
  let s1 := after_fetch (testUrl +:+ "/debug/test") debug_test_options 3000 o s in
  probe_from w i (testUrl :: rest) s
  = if accepted o
    then (Ok (ProbeFound testUrl "development"), snd (set_current (Some testUrl) i s1))
    else probe_from w (i + 1) rest s1.
Proof.
  cbv zeta. simpl probe_from.
  unfold bind at 1, try_catch, bind at 1, fetch_with_timeout.
  fold (after_fetch (testUrl +:+ "/debug/test") debug_test_options 3000
          (fetch w (issued s) (testUrl +:+ "/debug/test")) s).
  destruct (fetch w (issued s) (testUrl +:+ "/debug/test")) as [r | m |];
    [| reflexivity ..].
  simpl accepted. destruct (ok r); reflexivity.
Qed.

Lemma probe_from_spec (w : World) (urls : list string) :
  forall (i : Z) (s : State),
    let probed u := u +:+ "/debug/test" in
    let s' := snd (probe_from w i urls s) in
    (exists (k : nat) (u : string),
        urls !! k = Some u
        /\ accepted (fetch w (issued s + k) (probed u)) = true
        /\ (forall (j : nat) (u' : string),
               (j < k)%nat -> urls !! j = Some u' ->
               accepted (fetch w (issued s + j) (probed u')) = false)
        /\ fst (probe_from w i urls s) = Ok (ProbeFound u "development")
        /\ API_BASE_URL s' = Some u
        /\ currentApiIndex s' = i + Z.of_nat k
        /\ trace s' = trace s ++ probe_events w (issued s) (take (S k) urls)
        /\ AsyncStorage s' = AsyncStorage s)
    \/ ((forall (j : nat) (u' : string),
            urls !! j = Some u' ->
            accepted (fetch w (issued s + j) (probed u')) = false)
        /\ fst (probe_from w i urls s) = Ok (ProbeNone "No API endpoints are reachable")
        /\ API_BASE_URL s' = API_BASE_URL s
        /\ currentApiIndex s' = currentApiIndex s
        /\ trace s' = trace s ++ probe_events w (issued s) urls
        /\ AsyncStorage s' = AsyncStorage s).
Proof.
  induction urls as [| testUrl rest IH]; intros i s probed.
  { right. simpl. rewrite app_nil_r. repeat split. intros j u' Hj. discriminate. }
  cbv zeta. rewrite probe_from_cons.
  destruct (accepted (fetch w (issued s) (testUrl +:+ "/debug/test"))) eqn:Hacc0.
  - left. exists 0%nat, testUrl. rewrite Nat.add_0_r.
    repeat split; try assumption; try reflexivity.
    + intros j u' Hj. lia.
    + cbn. lia.
  - destruct (IH (i + 1)
                (after_fetch (testUrl +:+ "/debug/test") debug_test_options 3000
                   (fetch w (issued s) (testUrl +:+ "/debug/test")) s))
      as [(k & u & Hk & Hacc & Hbefore & Hres & Hbase & Hidx & Htr & Hst)
         | (Hnone & Hres & Hbase & Hidx & Htr & Hst)];
      cbn [issued after_fetch] in *.
    + left. exists (S k), u.
      replace (issued s + S k)%nat with (S (issued s) + k)%nat by lia.
      split; [exact Hk |]. split; [exact Hacc |]. split.
      { intros [| j] u' Hj Hu'.
        - injection Hu' as <-. rewrite Nat.add_0_r. exact Hacc0.
        - replace (issued s + S j)%nat with (S (issued s) + j)%nat by lia.
          apply Hbefore; [lia | exact Hu']. }
      split; [exact Hres |]. split; [exact Hbase |]. split; [rewrite Hidx; lia |].
      split; [| exact Hst].
      rewrite Htr. cbn [trace after_fetch]. rewrite <- app_assoc. reflexivity.
    + right. split.
      { intros [| j] u' Hu'.
        - injection Hu' as <-. rewrite Nat.add_0_r. exact Hacc0.
        - replace (issued s + S j)%nat with (S (issued s) + j)%nat by lia.
          now apply Hnone. }
      split; [exact Hres |]. split; [exact Hbase |]. split; [exact Hidx |].
      split; [| exact Hst].
      rewrite Htr. cbn [trace after_fetch]. rewrite <- app_assoc. reflexivity.
Qed.

(** The probe asks the configured hosts in their order, each once, and
    stops at the first whose answer is 2xx: that host becomes the current
    one, at its place in the list.  When no host answers 2xx, all of them
    were asked and the pointer is as it was.  The probe never throws and
    never touches the store. *)
Theorem probe_selects_first_accepting_host (w : World) (s : State) :
  let probed u := u +:+ "/debug/test" in
  let s' := snd (testMultipleIPs w s) in
  (exists (k : nat) (u : string),
      DEVELOPMENT_API_URLS !! k = Some u
      /\ accepted (fetch w (issued s + k) (probed u)) = true
      /\ (forall (j : nat) (u' : string),
             (j < k)%nat -> DEVELOPMENT_API_URLS !! j = Some u' ->
             accepted (fetch w (issued s + j) (probed u')) = false)
      /\ fst (testMultipleIPs w s) = Ok (ProbeFound u "development")
      /\ API_BASE_URL s' = Some u
      /\ currentApiIndex s' = Z.of_nat k
      /\ trace s' = trace s ++ probe_events w (issued s) (take (S k) DEVELOPMENT_API_URLS)
      /\ AsyncStorage s' = AsyncStorage s)
  \/ ((forall (j : nat) (u' : string),
          DEVELOPMENT_API_URLS !! j = Some u' ->
          accepted (fetch w (issued s + j) (probed u')) = false)
      /\ fst (testMultipleIPs w s) = Ok (ProbeNone "No API endpoints are reachable")
      /\ API_BASE_URL s' = API_BASE_URL s
      /\ currentApiIndex s' = currentApiIndex s
      /\ trace s' = trace s ++ probe_events w (issued s) DEVELOPMENT_API_URLS
      /\ AsyncStorage s' = AsyncStorage s).
Proof. apply (probe_from_spec w DEVELOPMENT_API_URLS 0 s). Qed.

(** With the first host down the probe settles on the second after two
    requests; with every host down it asks all three and changes nothing. *)
Example probe_runs :
  fst (testMultipleIPs Scenario.first_down Scenario.signed_out)
  = Ok (ProbeFound "http://192.168.100.1:3000/api" "development")
  /\ requests (trace (snd (testMultipleIPs Scenario.first_down Scenario.signed_out)))
     = [ "http://192.168.100.46:3000/api/debug/test";
         "http://192.168.100.1:3000/api/debug/test" ]
  /\ fst (testMultipleIPs (Scenario.world (fun _ => TimedOut)) Scenario.signed_out)
     = Ok (ProbeNone "No API endpoints are reachable")
  /\ currentApiIndex (snd (testMultipleIPs (Scenario.world (fun _ => TimedOut))
                             Scenario.signed_out)) = 0.
Proof. repeat split; vm_compute; reflexivity. Qed.

(** After a probe that found a host, [getCurrentApiUrl] gives that host and
    the next call sends its first request to it, with the options it
    built; if building the request throws, the call sends nothing. *)
Theorem call_after_probe_goes_to_found_host (w w' : World) (endpoint : string)
    (methodOrOptions : MethodOrOptions) (bodyData : option Data)
    (s : State) (u type : string) :
  let s' := snd (testMultipleIPs w s) in
  fst (testMultipleIPs w s) = Ok (ProbeFound u type) ->
  fst (getCurrentApiUrl s') = Ok (Some u)
  /\ match built w' (or_default methodOrOptions) bodyData s' with
     | Ok options =>
         exists evs,
           trace (snd (apiCall w' endpoint methodOrOptions bodyData s'))
           = trace s' ++ EFetch (u +:+ endpoint) options TIMEOUT_MS
                           (fetch w' (issued s') (u +:+ endpoint)) :: evs
     | Throw _ => snd (apiCall w' endpoint methodOrOptions bodyData s') = s'
     end.
Proof.
  intros s' Hfound.
  assert (Hbase : API_BASE_URL s' = Some u).
  { destruct (probe_from_spec w DEVELOPMENT_API_URLS 0 s)
      as [(k & u0 & _ & _ & _ & Hres & Hbase & _) | (_ & Hres & _)];
      fold (testMultipleIPs w s) in Hres; rewrite Hres in Hfound; [| discriminate].
    injection Hfound as <- _. exact Hbase. }
  split.
  - unfold getCurrentApiUrl, bind, get_state, ret. cbn [fst]. now rewrite Hbase.
  - destruct (built w' (or_default methodOrOptions) bodyData s') as [options | e] eqn:Hb.
    + pose proof (apiCall_first_request w' endpoint methodOrOptions bodyData s' options)
        as Hfirst.
      cbv zeta in Hfirst. rewrite Hbase in Hfirst. now apply Hfirst.
    + destruct (apiCall_unbuilt w' endpoint methodOrOptions bodyData s' e Hb)
        as (m & _ & ->).
      reflexivity.
Qed.

Lemma call_after_probe_goes_to_found_host_witness :
  let s' := snd (testMultipleIPs Scenario.first_down Scenario.signed_in) in
  fst (getCurrentApiUrl s') = Ok (Some Scenario.host2)
  /\ match built Scenario.all_500 (or_default IsUndefined) None s' with
     | Ok options =>
         exists evs,
           trace (snd (apiCall Scenario.all_500 "/listing/get" IsUndefined None s'))
           = trace s' ++ EFetch (Scenario.host2 +:+ "/listing/get") options TIMEOUT_MS
                           (fetch Scenario.all_500 (issued s')
                              (Scenario.host2 +:+ "/listing/get")) :: evs
     | Throw _ => snd (apiCall Scenario.all_500 "/listing/get" IsUndefined None s') = s'
     end.
Proof.
  apply (call_after_probe_goes_to_found_host Scenario.first_down Scenario.all_500
           "/listing/get" IsUndefined None Scenario.signed_in Scenario.host2 "development").
  vm_compute. reflexivity.
Defined.

(** The call after that probe, evaluated: its requests go to the second
    host first. *)
Example call_after_probe :
  let s' := snd (testMultipleIPs Scenario.first_down Scenario.signed_in) in
  requests (trace (snd (apiCall Scenario.unauthorized_then_ok "/listing/get" IsUndefined
                          None s')))
  = requests (trace s') ++ [ "http://192.168.100.1:3000/api/listing/get" ].
Proof. vm_compute. reflexivity. Qed.

(** ** Switching to the next host *)

(** While the pointer is in bounds, [switchToNextApiUrl] has two
    outcomes.  On the last host it returns [null] and changes nothing.
    Otherwise it moves the pointer one place up and returns the host found
    there, which is a configured one (never [undefined]); the trace and
    the store stay as they were.  It never wraps around to the first
    host. *)
Theorem switch_moves_one_up_or_stays (s : State) :
  host_invariant s ->
  (currentApiIndex s = Z.of_nat (length DEVELOPMENT_API_URLS) - 1
   /\ switchToNextApiUrl s = (Ok None, s))
  \/ (currentApiIndex s < Z.of_nat (length DEVELOPMENT_API_URLS) - 1
      /\ exists u,
           In u DEVELOPMENT_API_URLS
           /\ array_get DEVELOPMENT_API_URLS (currentApiIndex s + 1) = Some u
           /\ fst (switchToNextApiUrl s) = Ok (Some (Some u))
           /\ API_BASE_URL (snd (switchToNextApiUrl s)) = Some u
           /\ currentApiIndex (snd (switchToNextApiUrl s)) = currentApiIndex s + 1
           /\ trace (snd (switchToNextApiUrl s)) = trace s
           /\ AsyncStorage (snd (switchToNextApiUrl s)) = AsyncStorage s).
Proof.
  intros [_ Hb]. unfold switchToNextApiUrl, bind, get_state.
  destruct (currentApiIndex s <? Z.of_nat (length DEVELOPMENT_API_URLS) - 1) eqn:Hlt.
  - right. apply Z.ltb_lt in Hlt. split; [exact Hlt |].
    assert (Hget : exists u, array_get DEVELOPMENT_API_URLS (currentApiIndex s + 1) = Some u).
    { unfold array_get.
      destruct (currentApiIndex s + 1 <? 0) eqn:Hneg; [apply Z.ltb_lt in Hneg; lia |].
      apply lookup_lt_is_Some_2. lia. }
    destruct Hget as (u & Hget). exists u. rewrite Hget.
    split; [| repeat split; exact Hget].
    unfold array_get in Hget.
    destruct (currentApiIndex s + 1 <? 0); [discriminate |].
    apply list_elem_of_lookup_2 in Hget. now apply list_elem_of_In.
  - left. apply Z.ltb_ge in Hlt. split; [lia | reflexivity].
Qed.

Lemma switch_moves_one_up_or_stays_witness :
  (currentApiIndex Scenario.signed_out = Z.of_nat (length DEVELOPMENT_API_URLS) - 1
   /\ switchToNextApiUrl Scenario.signed_out = (Ok None, Scenario.signed_out))
  \/ (currentApiIndex Scenario.signed_out < Z.of_nat (length DEVELOPMENT_API_URLS) - 1
      /\ exists u,
           In u DEVELOPMENT_API_URLS
           /\ array_get DEVELOPMENT_API_URLS (currentApiIndex Scenario.signed_out + 1)
              = Some u
           /\ fst (switchToNextApiUrl Scenario.signed_out) = Ok (Some (Some u))
           /\ API_BASE_URL (snd (switchToNextApiUrl Scenario.signed_out)) = Some u
           /\ currentApiIndex (snd (switchToNextApiUrl Scenario.signed_out))
              = currentApiIndex Scenario.signed_out + 1
           /\ trace (snd (switchToNextApiUrl Scenario.signed_out))
              = trace Scenario.signed_out
           /\ AsyncStorage (snd (switchToNextApiUrl Scenario.signed_out))
              = AsyncStorage Scenario.signed_out).
Proof.
  apply (switch_moves_one_up_or_stays Scenario.signed_out).
  split; [discriminate | simpl; lia].
Defined.

(** ** The connection test *)

(** [testApiConnection] never throws.  When the health check is not
    healthy it makes no further request and reports failure, with the
    health result as details (the error text is built from the [error] key
    of the health result, which is absent when the server answered with a
    status that is not 2xx).  When the health check is healthy it calls
    [/listing/stats] through [apiCall] and reports success with the data,
    or failure with the message of the error that call threw. *)
Theorem connection_test_never_throws (w : World) (s : State) :
  let call := apiCall w "/listing/stats" IsUndefined None (snd (checkServerHealth w s)) in
  exists (health : Health) (result : Connection),
    fst (checkServerHealth w s) = Ok health
    /\ fst (testApiConnection w s) = Ok result
    /\ if healthy health then
         snd (testApiConnection w s) = snd call
         /\ match fst call with
            | Ok data =>
                result = {| connection_success := true; connection_data := Some data;
                            connection_error := None; connection_details := None |}
            | Throw e =>
                exists m,
                  e = JsError m
                  /\ result = {| connection_success := false; connection_data := None;
                                 connection_error := Some m;
                                 connection_details := None |}
            end
       else
         snd (testApiConnection w s) = snd (checkServerHealth w s)
         /\ result
            = {| connection_success := false; connection_data := None;
                 connection_error :=
                   Some ("API server not reachable: "
                         +:+ JsString.template (health_error health));
                 connection_details := Some health |}.
Proof.
  intros call. unfold call. clear call.
  pose proof (checkServerHealth_health_of w s) as Hh. cbv zeta in Hh.
  set (h := health_of w _) in Hh. set (s1 := after_fetch _ _ _ _ _) in Hh.
  destruct (healthy h) eqn:Hhealthy.
  - destruct (apiCall w "/listing/stats" IsUndefined None s1) as [[data | e] s2] eqn:Hcall.
    + assert (Heq : testApiConnection w s
                    = (Ok {| connection_success := true; connection_data := Some data;
                             connection_error := None; connection_details := None |},
                       s2)).
      { unfold testApiConnection, try_catch, bind. rewrite Hh, Hhealthy. cbn [negb].
        rewrite Hcall. reflexivity. }
      eexists h, _. rewrite Hh, Heq. cbn [fst snd]. rewrite Hhealthy, Hcall.
      repeat split.
    + destruct (apiCall_throws_error w "/listing/stats" IsUndefined None s1 e) as (m & ->);
        [now rewrite Hcall |].
      assert (Heq : testApiConnection w s
                    = (Ok {| connection_success := false; connection_data := None;
                             connection_error := Some m; connection_details := None |},
                       s2)).
      { unfold testApiConnection, try_catch, bind. rewrite Hh, Hhealthy. cbn [negb].
        rewrite Hcall. reflexivity. }
      eexists h, _. rewrite Hh, Heq. cbn [fst snd]. rewrite Hhealthy, Hcall.
      repeat split. exists m. split; reflexivity.
  - assert (Heq : testApiConnection w s
                  = (Ok {| connection_success := false; connection_data := None;
                           connection_error :=
                             Some ("API server not reachable: "
                                   +:+ JsString.template (health_error h));
                           connection_details := Some h |}, s1)).
    { unfold testApiConnection, try_catch, bind. rewrite Hh, Hhealthy. reflexivity. }
    eexists h, _. rewrite Hh, Heq. cbn [fst snd]. rewrite Hhealthy. repeat split.
Qed.

(** The connection test against a server that answers the health check
    with a 500: one request, and an error text that reads "undefined"
    where the health result has no [error]. *)
Example connection_test_unhealthy :
  fst (testApiConnection Scenario.all_500 Scenario.signed_out)
  = Ok {| connection_success := false; connection_data := None;
          connection_error := Some "API server not reachable: undefined";
          connection_details :=
            Some {| healthy := false; health_status := Some 500;
                    health_data := None; health_error := None |} |}
  /\ requests (trace (snd (testApiConnection Scenario.all_500 Scenario.signed_out)))
     = [ "http://192.168.100.46:3000/api/debug/test" ].
Proof. split; vm_compute; reflexivity. Qed.

(** ** The request that is built *)

Lemma defaultHeaders_lookup (bearer : option string) :
  defaultHeaders bearer !! "Content-Type" = Some "application/json"
  /\ defaultHeaders bearer !! "Accept" = Some "application/json"
  /\ defaultHeaders bearer !! "User-Agent" = Some "EstateApp-Mobile/1.0"
  /\ defaultHeaders bearer !! "Authorization" = bearer.
Proof.
  unfold defaultHeaders. destruct bearer as [value |].
  - repeat split; simplify_map_eq; reflexivity.
  - repeat split; simplify_map_eq; reflexivity.
Qed.

Lemma read_arguments_headers (methodOrOptions : MethodOrOptions) (bodyData : option Data)
    method data headers :
  read_arguments methodOrOptions bodyData = Ok (method, data, headers) ->
  headers = passed_headers methodOrOptions.
Proof.
  destruct methodOrOptions; simpl; try discriminate; intros [= _ _ <-]; reflexivity.
Qed.

(** A request that was built, taken apart. *)
Lemma built_inv (w : World) (methodOrOptions : MethodOrOptions) (bodyData : option Data)
    (s : State) (request : FetchOptions) :
  built w methodOrOptions bodyData s = Ok request ->
  exists method data bearer,
    read_arguments methodOrOptions bodyData
    = Ok (method, data, passed_headers methodOrOptions)
    /\ authorization (stored_token w (AsyncStorage s)) = Ok bearer
    /\ request_body method data = Ok (fetch_body request)
    /\ fetch_method request = method
    /\ fetch_headers request = passed_headers methodOrOptions ∪ defaultHeaders bearer.
Proof.
  rewrite built_eq.
  destruct (read_arguments methodOrOptions bodyData) as [[[method data] headers] |] eqn:Ha;
    [| discriminate].
  apply read_arguments_headers in Ha as Hh. subst headers.
  destruct (authorization (stored_token w (AsyncStorage s))) as [bearer |]; [| discriminate].
  destruct (request_body method data) as [body |] eqn:Hbody; [| discriminate].
  intros [= <-]. exists method, data, bearer. auto.
Qed.

(** A header the caller passes is sent as passed, whatever the default;
    a header the caller does not pass has its default value, so that
    [Content-Type], [Accept] and [User-Agent] are always sent; and unless
    the caller passes one, the [Authorization] header is the bearer header
    of the stored token, absent when there is no token. *)
Theorem caller_headers_override_defaults (w : World) (methodOrOptions : MethodOrOptions)
    (bodyData : option Data) (s : State) (request : FetchOptions) :
  let sent := fetch_headers request in
  let passed := passed_headers methodOrOptions in
  built w methodOrOptions bodyData s = Ok request ->
  exists bearer,
    authorization (stored_token w (AsyncStorage s)) = Ok bearer
    /\ (forall key value, passed !! key = Some value -> sent !! key = Some value)
    /\ (forall key, passed !! key = None -> sent !! key = defaultHeaders bearer !! key)
    /\ is_Some (sent !! "Content-Type")
    /\ is_Some (sent !! "Accept")
    /\ is_Some (sent !! "User-Agent")
    /\ (passed !! "Authorization" = None -> sent !! "Authorization" = bearer).
Proof.
  cbv zeta. intros Hb.
  destruct (built_inv w methodOrOptions bodyData s request Hb)
    as (method & data & bearer & _ & Hauth & _ & _ & ->).
  exists bearer. split; [exact Hauth |].
  destruct (defaultHeaders_lookup bearer) as (Hct & Hacc & Hua & Hbearer).
  assert (Hsome : forall key value,
             defaultHeaders bearer !! key = Some value ->
             is_Some ((passed_headers methodOrOptions ∪ defaultHeaders bearer) !! key)).
  { intros key value Hd. rewrite lookup_union, Hd.
    destruct (passed_headers methodOrOptions !! key); eauto. }
  split; [intros key value Hp; apply lookup_union_Some_l; exact Hp |].
  split; [intros key Hp; now apply lookup_union_r |].
  split; [eapply Hsome; eauto |]. split; [eapply Hsome; eauto |].
  split; [eapply Hsome; eauto |].
  intros Hp. rewrite lookup_union_r by exact Hp. exact Hbearer.
Qed.

Lemma caller_headers_override_defaults_witness :
  let options := IsOptions {| options_method := Some "GET"; options_body := None;
                              options_data := None;
                              options_headers := Some {[ "Accept" := "text/plain" ]} |} in
  let sent : gmap string string :=
    {[ "Accept" := "text/plain";
       "Authorization" := "Bearer t0k3n";
       "Content-Type" := "application/json";
       "User-Agent" := "EstateApp-Mobile/1.0" ]} in
  let passed := passed_headers options in
  exists bearer,
    authorization (stored_token Scenario.all_500 (AsyncStorage Scenario.signed_in))
    = Ok bearer
    /\ (forall key value, passed !! key = Some value -> sent !! key = Some value)
    /\ (forall key, passed !! key = None -> sent !! key = defaultHeaders bearer !! key)
    /\ is_Some (sent !! "Content-Type")
    /\ is_Some (sent !! "Accept")
    /\ is_Some (sent !! "User-Agent")
    /\ (passed !! "Authorization" = None -> sent !! "Authorization" = bearer).
Proof.
  intros options sent passed.
  apply (caller_headers_override_defaults Scenario.all_500 options None Scenario.signed_in
           {| fetch_method := "GET"; fetch_headers := sent; fetch_body := None |}).
  vm_compute. reflexivity.
Defined.




(** Four requests as built: a POST with an object, the same call with the
    method in lower case, an options object whose [body] is a string and
    that overrides a header, and a call with [null] for the options. *)
Example requests_as_built :
  let credentials := Some (DataValue true (Text "{...}")) in
  let built_with methodOrOptions bodyData :=
    built Scenario.all_500 methodOrOptions bodyData Scenario.signed_in in
  built_with (IsString "POST") credentials
  = Ok {| fetch_method := "POST";
          fetch_headers := defaultHeaders (Some "Bearer t0k3n");
          fetch_body := Some "{...}" |}
  /\ built_with (IsString "post") credentials
     = Ok {| fetch_method := "post";
             fetch_headers := defaultHeaders (Some "Bearer t0k3n");
             fetch_body := None |}
  /\ built_with
       (IsOptions {| options_method := Some "PUT";
                     options_body := Some (DataString "a=1");
                     options_data := None;
                     options_headers := Some {[ "Content-Type" := "text/plain" ]} |})
       None
     = Ok {| fetch_method := "PUT";
             fetch_headers := {[ "Accept" := "application/json";
                                 "Authorization" := "Bearer t0k3n";
                                 "Content-Type" := "text/plain";
                                 "User-Agent" := "EstateApp-Mobile/1.0" ]};
             fetch_body := Some "a=1" |}
  /\ built_with IsNull None
     = Throw (JsError "Cannot read properties of null (reading 'method')").
Proof. repeat split; vm_compute; reflexivity. Qed.

(** ** The token *)

Lemma or_Some (a b : option JSON) (v : JSON) :
  Js.or a b = Some v -> Js.truthy v = true -> a = Some v \/ b = Some v.
Proof.
  unfold Js.or. destruct a as [x |]; [| tauto].
  destruct (Js.truthy x); tauto.
Qed.

(** The header [authorization] gives comes from a truthy value found in
    the user record. *)
Lemma authorization_stored (w : World) (store : gmap string string) (header : string) :
  authorization (stored_token w store) = Ok (Some header) ->
  exists text userData token printed,
    store !! "user" = Some text
    /\ JSON_parse w text = inl userData
    /\ Js.truthy token = true
    /\ Js.to_string token = Some printed
    /\ header = "Bearer " +:+ printed
    /\ (Js.get userData "token" = Some token
        \/ Js.get userData "access_token" = Some token
        \/ Js.get userData "accessToken" = Some token).
Proof.
  unfold stored_token.
  destruct (store !! "user") as [text |] eqn:Hstore; [| discriminate].
  destruct (String.eqb text EmptyString); [discriminate |].
  destruct (JSON_parse w text) as [userData | m] eqn:Hparse; [| discriminate].
  intros H.
  assert (Hor : exists token printed,
             Js.or (Js.or (Js.get userData "token") (Js.get userData "access_token"))
                   (Js.get userData "accessToken") = Some token
             /\ Js.truthy token = true
             /\ Js.to_string token = Some printed
             /\ header = "Bearer " +:+ printed).
  { destruct userData; try discriminate;
      unfold authorization in H;
      match type of H with
      | match ?x with _ => _ end = _ =>
          destruct x as [token |] eqn:Hx; [| discriminate];
          destruct (Js.truthy token) eqn:Ht; [| discriminate];
          destruct (Js.to_string token) as [printed |] eqn:Hs; [| discriminate];
          injection H as <-; exists token, printed; auto
      end. }
  destruct Hor as (token & printed & Hor & Ht & Hs & ->).
  exists text, userData, token, printed. repeat split; try assumption.
  destruct (or_Some _ _ _ Hor Ht) as [H12 | H3]; [| tauto].
  destruct (or_Some _ _ _ H12 Ht) as [H1 | H2]; tauto.
Qed.

(** A truthy [token] of the user record is the token. *)
Lemma stored_token_token (w : World) (store : gmap string string) text userData token :
  store !! "user" = Some text ->
  text <> EmptyString ->
  JSON_parse w text = inl userData ->
  Js.get userData "token" = Some token ->
  Js.truthy token = true ->
  stored_token w store = Some token.
Proof.
  intros Hstore Hne Hp Hget Ht. unfold stored_token. rewrite Hstore.
  destruct (String.eqb text EmptyString) eqn:Hempty;
    [apply String.eqb_eq in Hempty; contradiction |].
  rewrite Hp.
  destruct userData; try discriminate. simpl in Hget |- *.
  unfold Js.or at 2. rewrite Hget, Ht. unfold Js.or. rewrite Ht. reflexivity.
Qed.

(** Unless the caller passes an [Authorization] header of its own, the
    [Authorization] header of a request comes from the user record and
    from nowhere else.  When a header is sent, the store holds a user
    record whose text parses, and the header is "Bearer " followed by the
    text of a truthy value found under [token], [access_token] or
    [accessToken].  A truthy [token] of a record that is not the empty
    text has precedence: its text is what is sent, and when it has none
    (the conversion to a string throws) no request is built at all.  When
    there is no user record, or its text does not parse, no header is
    sent. *)
Theorem token_comes_from_user_record (w : World) (methodOrOptions : MethodOrOptions)
    (bodyData : option Data) (s : State) :
  passed_headers methodOrOptions !! "Authorization" = None ->
  (forall request header,
      built w methodOrOptions bodyData s = Ok request ->
      fetch_headers request !! "Authorization" = Some header ->
      exists text userData token printed,
        AsyncStorage s !! "user" = Some text
        /\ JSON_parse w text = inl userData
        /\ Js.truthy token = true
        /\ Js.to_string token = Some printed
        /\ header = "Bearer " +:+ printed
        /\ (Js.get userData "token" = Some token
            \/ Js.get userData "access_token" = Some token
            \/ Js.get userData "accessToken" = Some token))
  /\ (forall text userData token,
         AsyncStorage s !! "user" = Some text ->
         text <> EmptyString ->
         JSON_parse w text = inl userData ->
         Js.get userData "token" = Some token ->
         Js.truthy token = true ->
         match Js.to_string token with
         | Some printed =>
             forall request,
               built w methodOrOptions bodyData s = Ok request ->
               fetch_headers request !! "Authorization" = Some ("Bearer " +:+ printed)
         | None => exists e, built w methodOrOptions bodyData s = Throw e
         end)
  /\ (AsyncStorage s !! "user" = None
      \/ (exists text m, AsyncStorage s !! "user" = Some text
                         /\ JSON_parse w text = inr m) ->
      authorization (stored_token w (AsyncStorage s)) = Ok None
      /\ forall request,
           built w methodOrOptions bodyData s = Ok request ->
           fetch_headers request !! "Authorization" = None).
Proof.
  intros Hpassed. split; [| split].
  - intros request header Hb Hsent.
    destruct (built_inv w methodOrOptions bodyData s request Hb)
      as (method & data & bearer & _ & Hauth & _ & _ & Hheaders).
    rewrite Hheaders, (lookup_union_r _ _ _ Hpassed) in Hsent.
    destruct (defaultHeaders_lookup bearer) as (_ & _ & _ & Hbearer).
    rewrite Hbearer in Hsent. subst bearer.
    now apply authorization_stored.
  - intros text userData token Hstore Hne Hp Hget Ht.
    pose proof (stored_token_token w _ text userData token Hstore Hne Hp Hget Ht) as Htok.
    destruct (Js.to_string token) as [printed |] eqn:Hs.
    + intros request Hb.
      destruct (built_inv w methodOrOptions bodyData s request Hb)
        as (method & data & bearer & _ & Hauth & _ & _ & Hheaders).
      rewrite Htok in Hauth. unfold authorization in Hauth. rewrite Ht, Hs in Hauth.
      injection Hauth as <-.
      rewrite Hheaders, (lookup_union_r _ _ _ Hpassed).
      apply defaultHeaders_lookup.
    + rewrite built_eq, Htok. unfold authorization. rewrite Ht, Hs.
      destruct (read_arguments methodOrOptions bodyData) as [[[method data] headers] | e];
        eauto.
  - intros Hstore.
    assert (Htok : stored_token w (AsyncStorage s) = None).
    { unfold stored_token. destruct Hstore as [-> | (text & m & -> & ->)]; [reflexivity |].
      destruct (String.eqb text ""); reflexivity. }
    rewrite Htok. split; [reflexivity |]. intros request Hb.
    destruct (built_inv w methodOrOptions bodyData s request Hb)
      as (method & data & bearer & _ & Hauth & _ & _ & Hheaders).
    rewrite Hheaders, (lookup_union_r _ _ _ Hpassed).
    destruct (defaultHeaders_lookup bearer) as (_ & _ & _ & ->).
    rewrite Htok in Hauth. now injection Hauth.
Qed.

Lemma token_comes_from_user_record_witness :
  let request := Scenario.get (Some "Bearer t0k3n") in
  (exists text userData token printed,
      AsyncStorage Scenario.signed_in !! "user" = Some text
      /\ JSON_parse Scenario.all_500 text = inl userData
      /\ Js.truthy token = true
      /\ Js.to_string token = Some printed
      /\ "Bearer t0k3n" = "Bearer " +:+ printed
      /\ (Js.get userData "token" = Some token
          \/ Js.get userData "access_token" = Some token
          \/ Js.get userData "accessToken" = Some token))
  /\ (exists e,
         built Scenario.all_500 (IsString "GET") None Scenario.signed_in_oddly = Throw e)
  /\ authorization (stored_token Scenario.all_500 (AsyncStorage Scenario.signed_out))
     = Ok None
  /\ fetch_headers (Scenario.get None) !! "Authorization" = None.
Proof.
  intros request.
  destruct (token_comes_from_user_record Scenario.all_500 (IsString "GET") None
              Scenario.signed_in eq_refl) as (Hsent & _ & _).
  destruct (token_comes_from_user_record Scenario.all_500 (IsString "GET") None
              Scenario.signed_in_oddly eq_refl) as (_ & Hodd & _).
  destruct (token_comes_from_user_record Scenario.all_500 (IsString "GET") None
              Scenario.signed_out eq_refl) as (_ & _ & Hnone).
  split; [| split].
  - apply (Hsent request "Bearer t0k3n"); reflexivity.
  - apply (Hodd Scenario.odd_record
             (JObject [("token", JObject [("toString", JNumber "1")])])
             (JObject [("toString", JNumber "1")])); try reflexivity.
    discriminate.
  - destruct (Hnone (or_introl eq_refl)) as [Hauth Hrequest].
    split; [exact Hauth |]. apply (Hrequest (Scenario.get None)). reflexivity.
Defined.

(** The call of a user whose stored token does not convert to a string:
    nothing is sent. *)
Example odd_token_sends_nothing :
  built Scenario.all_500 (IsString "GET") None Scenario.signed_in_oddly
  = Throw (JsError "Cannot convert object to primitive value")
  /\ makeApiRequest Scenario.all_500 Scenario.host1 "/listing/get" (IsString "GET") None
       Scenario.signed_in_oddly
     = (Throw (JsError "Cannot convert object to primitive value"),
        Scenario.signed_in_oddly).
Proof. split; vm_compute; reflexivity. Qed.

(** ** Where the pauses are *)

Section FallbackPauses.

Context (w : World) (endpoint : string) (methodOrOptions : MethodOrOptions)
  (bodyData : option Data) (base : option string).

Lemma between_attempts_fallback s urls blocks fin :
  fallback_run w endpoint methodOrOptions bodyData base s urls blocks fin ->
  between_attempts (events_of blocks).
Proof.
  induction 1 as [s | s devUrl rest blocks fin Hsame Hrun IH
                  | s devUrl rest evs data Hsame Hrun
                  | s devUrl rest evs m blocks fin Hsame Hrun Hfb IH].
  - apply between_attempts_nil.
  - exact IH.
  - unfold events_of. simpl. rewrite app_nil_r. eapply request_run_between; eauto.
  - unfold events_of in *. simpl.
    apply between_attempts_app; [eapply request_run_between; eauto | exact IH].
Qed.

Lemma pauses_fallback s urls blocks fin ms :
  fallback_run w endpoint methodOrOptions bodyData base s urls blocks fin ->
  In ms (pauses (events_of blocks)) -> ms = 1000 \/ ms = 2000.
Proof.
  induction 1 as [s | s devUrl rest blocks fin Hsame Hrun IH
                  | s devUrl rest evs data Hsame Hrun
                  | s devUrl rest evs m blocks fin Hsame Hrun Hfb IH].
  - intros [].
  - exact IH.
  - unfold events_of. simpl. rewrite app_nil_r. eapply request_run_pauses; eauto.
  - unfold events_of in *. simpl. rewrite pauses_app. intros Hin.
    apply in_app_or in Hin as [Hin | Hin]; [eapply request_run_pauses; eauto | auto].
Qed.

End FallbackPauses.

(** A call pauses only between two attempts against the same host: each
    pause in its trace comes right after a request and right before another
    request to the same URL, and lasts 1000 ms or 2000 ms.  So a call does
    not wait before its first request, nor before it moves on to another
    host, nor before it returns or fails. *)
Theorem pauses_only_between_attempts (w : World) (endpoint : string)
    (methodOrOptions : MethodOrOptions) (bodyData : option Data) (s : State) :
  exists evs,
    trace (snd (apiCall w endpoint methodOrOptions bodyData s)) = trace s ++ evs
    /\ forall pre post ms,
         evs = pre ++ ESleep ms :: post ->
         (ms = 1000 \/ ms = 2000)
         /\ exists pre' url b t o o' post',
              pre = pre' ++ [EFetch url b t o] /\ post = EFetch url b t o' :: post'.
Proof.
  destruct (apiCall_run w endpoint methodOrOptions bodyData s)
    as (evs0 & res & Hrun & _ & Hcall).
  pose proof (request_run_between _ _ _ _ _ _ _ _ Hrun) as Hb0.
  destruct res as [data | e].
  - exists evs0. rewrite Hcall. cbn [snd]. rewrite trace_replay.
    split; [reflexivity |]. intros pre post ms Heq. split; [| eapply Hb0; eauto].
    apply (request_run_pauses _ _ _ _ _ _ _ _ ms Hrun). apply pauses_In.
    rewrite Heq. apply in_or_app. right. now left.
  - destruct Hcall as (m & blocks & fin & _ & Hfb & ->).
    exists (evs0 ++ events_of blocks).
    rewrite trace_fallback_result, trace_replay, <- app_assoc.
    split; [reflexivity |]. intros pre post ms Heq. split.
    + assert (Hin : In ms (pauses (evs0 ++ events_of blocks))).
      { apply pauses_In. rewrite Heq. apply in_or_app. right. now left. }
      rewrite pauses_app in Hin. apply in_app_or in Hin as [Hin | Hin].
      * eapply request_run_pauses; eauto.
      * eapply pauses_fallback; eauto.
    + apply (between_attempts_app evs0 (events_of blocks) Hb0
               (between_attempts_fallback _ _ _ _ _ _ _ _ _ Hfb) pre post ms Heq).
Qed.

(** ** The host pointer, once more *)

Lemma pointer_stays_coherent_witness :
  pointer_coherent (snd (testMultipleIPs Scenario.first_down Scenario.signed_out))
  /\ pointer_coherent (snd (apiCall Scenario.first_down "/listing/get" IsUndefined None
                              Scenario.signed_out))
  /\ pointer_coherent (snd (switchToNextApiUrl Scenario.signed_out)).
Proof.
  apply (pointer_stays_coherent Scenario.first_down "/listing/get" IsUndefined None
           Scenario.signed_out).
  - split; [discriminate | simpl; lia].
  - split; [reflexivity | now eexists].
Defined.

(** ** The endpoint wrappers *)

Section CallRequests.

Context (w : World) (endpoint : string) (methodOrOptions : MethodOrOptions)
  (bodyData : option Data).

(** Every request of the fallback loop goes to a host of the list,
    followed by the endpoint, and is a request built from the arguments of
    the call. *)
Lemma fallback_run_request base s urls blocks fin u b t o :
  fallback_run w endpoint methodOrOptions bodyData base s urls blocks fin ->
  In (EFetch u b t o) (events_of blocks) ->
  exists devUrl s',
    In devUrl urls /\ u = devUrl +:+ endpoint
    /\ built w methodOrOptions bodyData s' = Ok b /\ t = TIMEOUT_MS.
Proof.
  induction 1 as [s | s devUrl rest blocks fin Hsame Hrun IH
                  | s devUrl rest evs data Hsame Hrun
                  | s devUrl rest evs m blocks fin Hsame Hrun Hfb IH];
    intros Hin.
  - destruct Hin.
  - destruct (IH Hin) as (d & s' & Hd & H). exists d, s'. split; [now right | exact H].
  - unfold events_of in Hin. simpl in Hin. rewrite app_nil_r in Hin.
    destruct (request_run_options _ _ _ _ _ _ _ _ _ _ _ _ Hrun Hin) as (-> & Hb & ->).
    exists devUrl, s. split; [now left | auto].
  - unfold events_of in Hin. simpl in Hin. apply in_app_or in Hin as [Hin | Hin].
    + destruct (request_run_options _ _ _ _ _ _ _ _ _ _ _ _ Hrun Hin) as (-> & Hb & ->).
      exists devUrl, s. split; [now left | auto].
    + destruct (IH Hin) as (d & s' & Hd & H). exists d, s'. split; [now right | exact H].
Qed.

End CallRequests.

(** Every request of a call goes to the current host or to a configured
    one, followed by the endpoint, with the timeout [TIMEOUT_MS]; its
    method and its body are those the arguments of the call give. *)
Lemma apiCall_request (w : World) (endpoint : string) (methodOrOptions : MethodOrOptions)
    (bodyData : option Data) (s : State) evs u b t o :
  trace (snd (apiCall w endpoint methodOrOptions bodyData s)) = trace s ++ evs ->
  In (EFetch u b t o) evs ->
  (exists host,
      u = host +:+ endpoint
      /\ (host = JsString.template (API_BASE_URL s) \/ In host DEVELOPMENT_API_URLS))
  /\ t = TIMEOUT_MS
  /\ exists method data,
       read_arguments (or_default methodOrOptions) bodyData
       = Ok (method, data, passed_headers (or_default methodOrOptions))
       /\ fetch_method b = method
       /\ request_body method data = Ok (fetch_body b).
Proof.
  intros Htr Hin.
  assert (H : exists host s',
             u = host +:+ endpoint
             /\ (host = JsString.template (API_BASE_URL s) \/ In host DEVELOPMENT_API_URLS)
             /\ built w (or_default methodOrOptions) bodyData s' = Ok b
             /\ t = TIMEOUT_MS).
  { destruct (apiCall_run w endpoint methodOrOptions bodyData s)
      as (evs0 & res & Hrun & _ & Hcall).
    destruct res as [data | e].
    - rewrite Hcall in Htr. cbn [snd] in Htr. rewrite trace_replay in Htr.
      apply app_inv_head in Htr. subst evs0.
      destruct (request_run_options _ _ _ _ _ _ _ _ _ _ _ _ Hrun Hin) as (-> & Hb & ->).
      eauto 8.
    - destruct Hcall as (m & blocks & fin & _ & Hfb & Hcall).
      rewrite Hcall, trace_fallback_result, trace_replay, <- app_assoc in Htr.
      apply app_inv_head in Htr. subst evs.
      apply in_app_or in Hin as [Hin | Hin].
      + destruct (request_run_options _ _ _ _ _ _ _ _ _ _ _ _ Hrun Hin) as (-> & Hb & ->).
        eauto 8.
      + destruct (fallback_run_request _ _ _ _ _ _ _ _ _ _ _ _ _ Hfb Hin)
          as (d & s' & Hd & -> & Hb & ->).
        eauto 8. }
  destruct H as (host & s' & -> & Hhost & Hb & ->).
  split; [eauto |]. split; [reflexivity |].
  destruct (built_inv w _ bodyData s' b Hb) as (method & data & bearer & Ha & _ & Hbody & Hm & _).
  eauto.
Qed.

(** The wrappers send what they are given.  Every request of [login],
    [register] and [createListing] is a POST to the wrapper's endpoint on
    some host, and its body is the data the wrapper was called with: a
    string as it is, anything else as [JSON.stringify] prints it, and no
    body for data that is falsy.  Every request of [logout] and
    [getListings] is a GET without a body; [getListings] appends the query
    string after a question mark when there is one. *)
Theorem wrappers_send_what_they_are_given (w : World) (s : State) :
  let posts (call : option Data -> M JSON) endpoint :=
    forall data evs u b t o,
      trace (snd (call data s)) = trace s ++ evs ->
      In (EFetch u b t o) evs ->
      (exists host, u = host +:+ endpoint)
      /\ fetch_method b = "POST"
      /\ fetch_body b
         = match data with
           | Some (DataString text) =>
               if String.eqb text EmptyString then None else Some text
           | Some (DataValue true (Text text)) => Some text
           | _ => None
           end in
  let gets (call : M JSON) endpoint :=
    forall evs u b t o,
      trace (snd (call s)) = trace s ++ evs ->
      In (EFetch u b t o) evs ->
      (exists host, u = host +:+ endpoint)
      /\ fetch_method b = "GET" /\ fetch_body b = None in
  posts (login w) "/auth/signin"
  /\ posts (register w) "/auth/signup"
  /\ posts (createListing w) "/listing/create"
  /\ gets (logout w) "/auth/signout"
  /\ gets (getListings w EmptyString) "/listing/get"
  /\ forall queryString,
       queryString <> EmptyString ->
       gets (getListings w queryString) ("/listing/get?" +:+ queryString).
Proof.
  assert (Hpost : forall endpoint data evs u b t o,
             trace (snd (apiCall w endpoint (IsString "POST") data s)) = trace s ++ evs ->
             In (EFetch u b t o) evs ->
             (exists host, u = host +:+ endpoint)
             /\ fetch_method b = "POST"
             /\ fetch_body b
                = match data with
                  | Some (DataString text) =>
                      if String.eqb text EmptyString then None else Some text
                  | Some (DataValue true (Text text)) => Some text
                  | _ => None
                  end).
  { intros endpoint data evs u b t o Htr Hin.
    destruct (apiCall_request w endpoint (IsString "POST") data s evs u b t o Htr Hin)
      as ((host & -> & _) & _ & method & data' & [= <- <-] & Hm & Hbody).
    split; [eauto |]. split; [exact Hm |].
    unfold request_body in Hbody.
    destruct data as [[text | [|] [text | | m]] |]; simpl in Hbody;
      try (now injection Hbody); try discriminate.
    destruct (String.eqb text EmptyString); simpl in Hbody; now injection Hbody. }
  assert (Hget : forall endpoint evs u b t o,
             trace (snd (apiCall w endpoint (IsString "GET") None s)) = trace s ++ evs ->
             In (EFetch u b t o) evs ->
             (exists host, u = host +:+ endpoint)
             /\ fetch_method b = "GET" /\ fetch_body b = None).
  { intros endpoint evs u b t o Htr Hin.
    destruct (apiCall_request w endpoint (IsString "GET") None s evs u b t o Htr Hin)
      as ((host & -> & _) & _ & method & data' & [= <- <-] & Hm & Hbody).
    split; [eauto |]. split; [exact Hm |]. now injection Hbody. }
  cbv zeta. split; [| split; [| split; [| split; [| split]]]].
  - intros data. apply Hpost.
  - intros data. apply Hpost.
  - intros data. apply Hpost.
  - apply Hget.
  - apply Hget.
  - intros queryString Hne evs u b t o. unfold getListings.
    destruct (String.eqb queryString EmptyString) eqn:He;
      [apply String.eqb_eq in He; contradiction |].
    replace ("/listing/get?" +:+ queryString)
      with (API_ENDPOINTS.listings +:+ "?" +:+ queryString) by reflexivity.
    apply Hget.
Qed.

(** A login, evaluated: the first host is down and gets the credentials
    three times, the second gets them once and answers. *)
Example login_sends_credentials :
  let credentials := Some (DataValue true (Text "{...}")) in
  let post :=
    {| fetch_method := "POST"; fetch_headers := defaultHeaders None;
       fetch_body := Some "{...}" |} in
  trace (snd (login Scenario.first_down credentials Scenario.signed_out))
  = [EFetch "http://192.168.100.46:3000/api/auth/signin" post 10000 TimedOut;
     ESleep 1000;
     EFetch "http://192.168.100.46:3000/api/auth/signin" post 10000 TimedOut;
     ESleep 2000;
     EFetch "http://192.168.100.46:3000/api/auth/signin" post 10000 TimedOut;
     EFetch "http://192.168.100.1:3000/api/auth/signin" post 10000
       (Scenario.reply 200 Scenario.json_type "{}")].
Proof. vm_compute. reflexivity. Qed.
